(** * Patient appointment queue: the priority scheduling engine

    A shallow embedding of [dsa/queue.py], [dsa/linked_list.py] and
    [dsa/scheduler.py], of the registry of [models/patient.py] and of the
    parts of [app.py] that prepare the rows for the engine, and the
    properties of the serving order.

    Python values are embedded as follows.
    - [str] is [string]; a character is a code point below 256, so that
      [lower] and [strip] are the restrictions of [str.lower] and
      [str.strip] to Latin-1 text.
    - [datetime] is the count of microseconds of its wall-clock fields
      since 0001-01-01T00:00:00 together with its UTC offset, absent for a
      naive value.
    - a [dict] is a finite map from string keys to Python values.
    - a call that may raise returns a [result].
    - [list.sort] is a stable insertion sort with the comparison of the
      keys as its only source of exceptions.
    - [datetime.fromisoformat] is a parameter of the scheduler.
    - a [sqlite3.Row] is a finite map from the column names of its query
      to Python values. *)

From Stdlib Require Import ZArith Ascii String Lia.
From stdpp Require Import base tactics option list strings gmap sorting.

Local Open Scope string_scope.
Local Open Scope Z_scope.
Local Open Scope list_scope.

(** ** Exceptions *)

Inductive exn : Type :=
  | KeyError
  | AttributeError
  | TypeError
  | ValueError
  | IndexError.

#[global] Instance exn_eq_dec : EqDecision exn.
Proof. solve_decision. Defined.

Inductive result (A : Type) : Type :=
  | Ok (a : A)
  | Raise (e : exn).
Arguments Ok {A} a.
Arguments Raise {A} e.

#[global] Instance result_eq_dec {A} `{EqDecision A} : EqDecision (result A).
Proof. solve_decision. Defined.

#[global] Instance result_ret : MRet result := fun _ a => Ok a.
#[global] Instance result_bind : MBind result := fun _ _ f m =>
  match m with
  | Ok a => f a
  | Raise e => Raise e
  end.
#[global] Instance result_fmap : FMap result := fun _ _ f m =>
  match m with
  | Ok a => Ok (f a)
  | Raise e => Raise e
  end.

(** [try: body  except e: handler] *)
Definition try_except {A} (body : result A) (e : exn) (handler : result A)
  : result A :=
  match body with
  | Ok a => Ok a
  | Raise e' => if decide (e' = e) then handler else Raise e'
  end.

(** [for x in xs: acc = f(acc, x)], stopping at the first exception. *)
Fixpoint for_each {A S} (f : S -> A -> result S) (xs : list A) (s : S)
  : result S :=
  match xs with
  | [] => Ok s
  | x :: xs' => s' ← f s x; for_each f xs' s'
  end.

(** [enumerate(l, start)] *)
Fixpoint enumerate_from {A} (start : nat) (l : list A) : list (nat * A) :=
  match l with
  | [] => []
  | x :: l' => (start, x) :: enumerate_from (S start) l'
  end.

(** ** Strings: [str.lower] and [str.strip] *)

Definition is_upper (c : ascii) : bool :=
  let n := N_of_ascii c in
  ((65 <=? n) && (n <=? 90) || (192 <=? n) && (n <=? 214)
   || (216 <=? n) && (n <=? 222))%N.

Definition lower_char (c : ascii) : ascii :=
  if is_upper c then ascii_of_N (N_of_ascii c + 32) else c.

Definition is_whitespace (c : ascii) : bool :=
  let n := N_of_ascii c in
  ((9 <=? n) && (n <=? 13) || (28 <=? n) && (n <=? 32)
   || (n =? 133) || (n =? 160))%N.

Fixpoint lower (s : string) : string :=
  match s with
  | EmptyString => EmptyString
  | String c s' => String (lower_char c) (lower s')
  end.

Fixpoint lstrip (s : string) : string :=
  match s with
  | EmptyString => EmptyString
  | String c s' => if is_whitespace c then lstrip s' else s
  end.

(** Drops the trailing whitespace: a character is kept when it is not
    whitespace or when something is kept after it. *)
Fixpoint rstrip (s : string) : string :=
  match s with
  | EmptyString => EmptyString
  | String c s' =>
      match rstrip s' with
      | EmptyString => if is_whitespace c then EmptyString else String c EmptyString
      | r => String c r
      end
  end.

Definition strip (s : string) : string := rstrip (lstrip s).

(** No whitespace in front. *)
Definition starts_clean (s : string) : bool :=
  match s with
  | EmptyString => true
  | String c _ => negb (is_whitespace c)
  end.

(** [s or d] on strings: the empty string is the only falsy one. *)
Definition str_or (s d : string) : string :=
  match s with
  | EmptyString => d
  | _ => s
  end.

(** ** [datetime]

    [wall_us] counts the microseconds from 0001-01-01T00:00:00 to the
    wall-clock fields of the value; [utcoffset] is the offset of its
    [tzinfo] in microseconds, [None] for a naive value. *)

Record datetime : Type := mkDatetime {
  wall_us : Z;
  utcoffset : option Z
}.

#[global] Instance datetime_eq_dec : EqDecision datetime.
Proof. solve_decision. Defined.

(** [datetime.min] *)
Definition datetime_min : datetime := mkDatetime 0 None.

(** The three-way comparison behind [==] and [<]: wall-clock fields when
    both values are naive or carry the same offset, UTC instants when both
    are aware, and no answer for a naive value against an aware one. *)
Definition datetime_cmp (self other : datetime) : option comparison :=
  match utcoffset self, utcoffset other with
  | None, None => Some (wall_us self ?= wall_us other)
  | Some myoff, Some otoff =>
      if myoff =? otoff then Some (wall_us self ?= wall_us other)
      else Some (wall_us self - myoff ?= wall_us other - otoff)
  | _, _ => None
  end.

(** [self == other]: a naive and an aware value are unequal. *)
Definition datetime_eqb (self other : datetime) : bool :=
  match datetime_cmp self other with
  | Some Eq => true
  | _ => false
  end.

(** [self < other]: a naive value against an aware one is a [TypeError]. *)
Definition datetime_lt (self other : datetime) : result bool :=
  match datetime_cmp self other with
  | Some Lt => Ok true
  | Some _ => Ok false
  | None => Raise TypeError
  end.

(** The point in time a value is compared by: its wall clock, moved to
    UTC when it is aware. *)
Definition instant (d : datetime) : Z :=
  wall_us d - default 0 (utcoffset d).

Definition aware (d : datetime) : bool :=
  match utcoffset d with
  | Some _ => true
  | None => false
  end.

(** *** The proleptic Gregorian calendar of [datetime] *)

Definition is_leap (year : Z) : bool :=
  (year mod 4 =? 0) && (negb (year mod 100 =? 0) || (year mod 400 =? 0)).

Definition days_before_year (year : Z) : Z :=
  let y := year - 1 in
  y * 365 + y / 4 - y / 100 + y / 400.

Definition DAYS_IN_MONTH : list Z :=
  [-1; 31; 28; 31; 30; 31; 30; 31; 31; 30; 31; 30; 31].

Definition DAYS_BEFORE_MONTH : list Z :=
  [-1; 0; 31; 59; 90; 120; 151; 181; 212; 243; 273; 304; 334].

Definition table (t : list Z) (month : Z) : Z :=
  default 0 (t !! Z.to_nat month).

Definition days_in_month (year month : Z) : Z :=
  if (month =? 2) && is_leap year then 29 else table DAYS_IN_MONTH month.

Definition days_before_month (year month : Z) : Z :=
  table DAYS_BEFORE_MONTH month
  + (if (2 <? month) && is_leap year then 1 else 0).

Definition ymd2ord (year month day : Z) : Z :=
  days_before_year year + days_before_month year month + day.

Definition ord2ymd (n : Z) : Z * Z * Z :=
  let n := n - 1 in
  let n400 := n / 146097 in
  let n := n mod 146097 in
  let year := n400 * 400 + 1 in
  let n100 := n / 36524 in
  let n := n mod 36524 in
  let n4 := n / 1461 in
  let n := n mod 1461 in
  let n1 := n / 365 in
  let n := n mod 365 in
  let year := year + n100 * 100 + n4 * 4 + n1 in
  if (n1 =? 4) || (n100 =? 4) then (year - 1, 12, 31)
  else
    let leapyear := (n1 =? 3) && (negb (n4 =? 24) || (n100 =? 3)) in
    let month := Z.shiftr (n + 50) 5 in
    let preceding :=
      table DAYS_BEFORE_MONTH month
      + (if (2 <? month) && leapyear then 1 else 0) in
    if n <? preceding then
      let month := month - 1 in
      let preceding :=
        preceding - (table DAYS_IN_MONTH month
                     + (if (month =? 2) && leapyear then 1 else 0)) in
      (year, month, n - preceding + 1)
    else (year, month, n - preceding + 1).

Definition US_PER_SECOND : Z := 1000000.
Definition US_PER_DAY : Z := 86400 * US_PER_SECOND.

(** The value with the given (valid) fields. *)
Definition datetime_of_fields (year month day hour minute second us : Z)
    (tz : option Z) : datetime :=
  mkDatetime
    (((ymd2ord year month day - 1) * 86400
      + hour * 3600 + minute * 60 + second) * US_PER_SECOND + us)
    tz.

(** *** [datetime.isoformat] *)

Definition digit_char (d : Z) : ascii := ascii_of_N (48 + Z.to_N d).

(** ["%0wd" % n] for [0 <= n < 10^w]. *)
Fixpoint zero_padded (w : nat) (n : Z) (acc : string) : string :=
  match w with
  | O => acc
  | S w' => zero_padded w' (n / 10) (String (digit_char (n mod 10)) acc)
  end.

Definition fmt (w : nat) (n : Z) : string := zero_padded w n "".

Definition format_time (rest : Z) : string :=
  let us := rest mod US_PER_SECOND in
  let secs := rest / US_PER_SECOND in
  fmt 2 (secs / 3600) +:+ ":" +:+ fmt 2 (secs / 60 mod 60) +:+ ":"
  +:+ fmt 2 (secs mod 60)
  +:+ (if us =? 0 then "" else "." +:+ fmt 6 us).

Definition format_offset (off : option Z) : string :=
  match off with
  | None => ""
  | Some off =>
      let sign := if off <? 0 then "-" else "+" in
      let off := Z.abs off in
      let us := off mod US_PER_SECOND in
      let secs := off / US_PER_SECOND in
      sign +:+ fmt 2 (secs / 3600) +:+ ":" +:+ fmt 2 (secs / 60 mod 60)
      +:+ (if (secs mod 60 =? 0) && (us =? 0) then ""
           else ":" +:+ fmt 2 (secs mod 60)
                +:+ (if us =? 0 then "" else "." +:+ fmt 6 us))
  end.

Definition isoformat (d : datetime) : string :=
  let '(year, month, day) := ord2ymd (wall_us d / US_PER_DAY + 1) in
  fmt 4 year +:+ "-" +:+ fmt 2 month +:+ "-" +:+ fmt 2 day +:+ "T"
  +:+ format_time (wall_us d mod US_PER_DAY)
  +:+ format_offset (utcoffset d).

(** *** A parser of canonical ISO strings

    [datetime.fromisoformat] is a parameter of the scheduler below. The
    parser here instantiates it on concrete inputs: it reads
    [YYYY-MM-DD], optionally followed by one separator character, a time
    [HH[:MM[:SS[.fff[fff]]]]] and a UTC offset [+HH:MM[:SS[.ffffff]]] (or
    [-...]), all fields in range, and rejects every other string. Python
    reads these strings to the same values; depending on its version it
    reads further forms too, which no statement below depends on. *)

Definition digit_value (c : ascii) : option Z :=
  let n := N_of_ascii c in
  if ((48 <=? n) && (n <=? 57))%N then Some (Z.of_N n - 48) else None.

Fixpoint parse_digits_go (s : string) (acc : Z) : option Z :=
  match s with
  | EmptyString => Some acc
  | String c s' => d ← digit_value c; parse_digits_go s' (acc * 10 + d)
  end.

(** The number written by the [w] digits of [t] from index [i]. *)
Definition digits_at (t : string) (i w : nat) : option Z :=
  let s := substring i w t in
  if Nat.eqb (String.length s) w then parse_digits_go s 0 else None.

Definition char_at (t : string) (i : nat) (c : ascii) : bool :=
  bool_decide (String.get i t = Some c).

Definition parse_hh_mm_ss_ff (t : string) : option (Z * Z * Z * Z) :=
  let len := String.length t in
  hh ← digits_at t 0 2;
  if Nat.eqb len 2 then Some (hh, 0, 0, 0)
  else if negb (char_at t 2 ":") then None
  else
    mm ← digits_at t 3 2;
    if Nat.eqb len 5 then Some (hh, mm, 0, 0)
    else if negb (char_at t 5 ":") then None
    else
      ss ← digits_at t 6 2;
      if Nat.eqb len 8 then Some (hh, mm, ss, 0)
      else if negb (char_at t 8 ".") then None
      else if Nat.eqb len 12 then
        ff ← digits_at t 9 3; Some (hh, mm, ss, ff * 1000)
      else if Nat.eqb len 15 then
        ff ← digits_at t 9 6; Some (hh, mm, ss, ff)
      else None.

(** Index and sign of the first ['+'] or ['-'] from index [i] on. *)
Fixpoint find_sign (s : string) (i : nat) : option (nat * Z) :=
  match s with
  | EmptyString => None
  | String c s' =>
      if bool_decide (c = "+"%char) then Some (i, 1)
      else if bool_decide (c = "-"%char) then Some (i, -1)
      else find_sign s' (S i)
  end.

Definition in_clock_range (hh mm ss : Z) : bool :=
  (hh <? 24) && (mm <? 60) && (ss <? 60).

Definition parse_isoformat_time (tstr : string)
  : option (Z * Z * Z * Z * option Z) :=
  let len := String.length tstr in
  match find_sign tstr 0 with
  | None =>
      '(hh, mm, ss, ff) ← parse_hh_mm_ss_ff tstr;
      if in_clock_range hh mm ss then Some (hh, mm, ss, ff, None) else None
  | Some (pos, sign) =>
      '(hh, mm, ss, ff) ← parse_hh_mm_ss_ff (substring 0 pos tstr);
      let tzstr := substring (S pos) (len - S pos) tstr in
      let tzlen := String.length tzstr in
      if negb (Nat.eqb tzlen 5 || Nat.eqb tzlen 8 || Nat.eqb tzlen 15)
      then None
      else
        '(th, tm, ts, tf) ← parse_hh_mm_ss_ff tzstr;
        if in_clock_range hh mm ss && in_clock_range th tm ts then
          Some (hh, mm, ss, ff,
                Some (sign * ((th * 3600 + tm * 60 + ts) * US_PER_SECOND + tf)))
        else None
  end.

Definition fromisoformat_canonical (date_string : string) : option datetime :=
  let len := String.length date_string in
  year ← digits_at date_string 0 4;
  month ← digits_at date_string 5 2;
  day ← digits_at date_string 8 2;
  if negb (char_at date_string 4 "-" && char_at date_string 7 "-"
           && (1 <=? year) && (1 <=? month) && (month <=? 12)
           && (1 <=? day) && (day <=? days_in_month year month))
  then None
  else if Nat.eqb len 10 then
    Some (datetime_of_fields year month day 0 0 0 0 None)
  else
    '(hh, mm, ss, ff, tz) ←
      parse_isoformat_time (substring 11 (len - 11) date_string);
    Some (datetime_of_fields year month day hh mm ss ff tz).

(** ** Python values and dicts *)

Inductive pyval : Type :=
  | PyNone
  | PyInt (z : Z)
  | PyStr (s : string)
  | PyDatetime (d : datetime).

#[global] Instance pyval_eq_dec : EqDecision pyval.
Proof. solve_decision. Defined.

Abbreviation pydict := (gmap string pyval).

(** Truth value of [v]. *)
Definition truthy (v : pyval) : bool :=
  match v with
  | PyNone => false
  | PyInt z => negb (z =? 0)
  | PyStr EmptyString => false
  | PyStr _ => true
  | PyDatetime _ => true
  end.

(** [a or b] *)
Definition py_or (a b : pyval) : pyval := if truthy a then a else b.

(** [a.get(k)] *)
Definition dict_get (a : pydict) (k : string) : pyval :=
  default PyNone (a !! k).

(** [a[k]] *)
Definition dict_getitem (a : pydict) (k : string) : result pyval :=
  match a !! k with
  | Some v => Ok v
  | None => Raise KeyError
  end.

(** [v.lower()] and [v.strip()]: only a [str] has these methods. *)
Definition py_lower (v : pyval) : result string :=
  match v with
  | PyStr s => Ok (lower s)
  | _ => Raise AttributeError
  end.

Definition py_strip (v : pyval) : result string :=
  match v with
  | PyStr s => Ok (strip s)
  | _ => Raise AttributeError
  end.

(** [l.pop(0)] and [l[0]] *)
Definition list_pop0 {A} (l : list A) : result (A * list A) :=
  match l with
  | [] => Raise IndexError
  | x :: l' => Ok (x, l')
  end.

Definition list_item0 {A} (l : list A) : result A :=
  match l with
  | [] => Raise IndexError
  | x :: _ => Ok x
  end.

(** [a == b] on the values above. *)
Definition py_eq (a b : pyval) : bool :=
  match a, b with
  | PyNone, PyNone => true
  | PyInt x, PyInt y => x =? y
  | PyStr x, PyStr y => bool_decide (x = y)
  | PyDatetime x, PyDatetime y => datetime_eqb x y
  | _, _ => false
  end.

(** [l.sort(key=key)]: a stable sort that compares keys with [<] only and
    lets an exception of the comparison escape. Each element is placed
    behind the elements already placed that it is not smaller than. *)
Section list_sort.
Context {A K : Type} (key : A -> K) (lt : K -> K -> result bool).

Fixpoint insort (x : A) (sorted : list A) : result (list A) :=
  match sorted with
  | [] => Ok [x]
  | y :: rest =>
      b ← lt (key x) (key y);
      if b : bool then Ok (x :: y :: rest)
      else rest' ← insort x rest; Ok (y :: rest')
  end.

Definition list_sort (l : list A) : result (list A) :=
  for_each (fun sorted x => insort x sorted) l [].

End list_sort.

(** ** queue.py *)

Definition PRIORITY_ORDER : list string :=
  ["critical"; "emergency"; "accident"; "normal"].

(** [for i, x in enumerate(xs): if x == p: return i], from index [i]. *)
Fixpoint enumerate_find (i : nat) (xs : list string) (p : string)
  : option nat :=
  match xs with
  | [] => None
  | x :: xs' => if decide (x = p) then Some i else enumerate_find (S i) xs' p
  end.

Definition priority_rank (p : pyval) : result nat :=
  lowered ← py_lower (py_or p (PyStr "normal"));
  let p := strip lowered in
  match enumerate_find 0 PRIORITY_ORDER p with
  | Some i => Ok i
  | None => Ok 3%nat
  end.

(** The rank of a priority string; [priority_rank] returns on every
    string (lemma [priority_rank_str]). *)
Definition rank_of (priority : string) : nat :=
  match priority_rank (PyStr priority) with
  | Ok i => i
  | Raise _ => 3%nat
  end.

(** The rank of a normalized label. *)
Definition label_rank (label : string) : nat :=
  if decide (label = "critical") then 0
  else if decide (label = "emergency") then 1
  else if decide (label = "accident") then 2
  else 3.

Module QueueItem.

Record t : Type := mk {
  appointment_id : pyval;
  name : pyval;
  priority : string;
  appointment_date : pyval;
  appointment_time : pyval;
  created_at : datetime
}.

Definition to_dict (self : t) : pydict :=
  {[ "appointment_id" := appointment_id self;
     "name" := name self;
     "priority" := PyStr (priority self);
     "appointment_date" := appointment_date self;
     "appointment_time" := appointment_time self;
     "created_at" :=
       if truthy (PyDatetime (created_at self))
       then PyStr (isoformat (created_at self)) else PyNone ]}.

End QueueItem.

Module Queue.

Record t : Type := mk { _items : list QueueItem.t }.

Definition new : t := mk [].

Definition is_empty (self : t) : bool :=
  Nat.eqb (length (_items self)) 0.

Definition enqueue (self : t) (item : QueueItem.t) : t :=
  mk (_items self ++ [item]).

Definition dequeue (self : t) : result (option QueueItem.t * t) :=
  if is_empty self then Ok (None, self)
  else '(x, rest) ← list_pop0 (_items self); Ok (Some x, mk rest).

Definition peek (self : t) : result (option QueueItem.t) :=
  if is_empty self then Ok None
  else x ← list_item0 (_items self); Ok (Some x).

Definition len (self : t) : nat := length (_items self).

Definition to_list (self : t) : list QueueItem.t := _items self.

End Queue.

Module PriorityQueue.

Record t : Type := mk { _queues : list Queue.t }.

Definition new : t := mk (map (fun _ => Queue.new) PRIORITY_ORDER).

(** The lane of a priority, with its index in [_queues]. *)
Definition _queue_for (self : t) (priority : string)
  : result (nat * Queue.t) :=
  i ← priority_rank (PyStr priority);
  match _queues self !! i with
  | Some q => Ok (i, q)
  | None => Raise IndexError
  end.

Definition is_empty (self : t) : bool :=
  forallb Queue.is_empty (_queues self).

Definition enqueue (self : t) (item : QueueItem.t) : result t :=
  '(i, q) ← _queue_for self (QueueItem.priority item);
  Ok (mk (<[i := Queue.enqueue q item]> (_queues self))).

(** [for q in qs: if not q.is_empty(): return q.dequeue()], with the
    lanes as the loop leaves them. *)
Fixpoint dequeue_from (qs : list Queue.t)
  : result (option QueueItem.t * list Queue.t) :=
  match qs with
  | [] => Ok (None, [])
  | q :: qs' =>
      if negb (Queue.is_empty q) then
        '(x, q') ← Queue.dequeue q; Ok (x, q' :: qs')
      else
        '(x, qs'') ← dequeue_from qs'; Ok (x, q :: qs'')
  end.

Definition dequeue (self : t) : result (option QueueItem.t * t) :=
  '(x, qs) ← dequeue_from (_queues self); Ok (x, mk qs).

Fixpoint peek_from (qs : list Queue.t) : result (option QueueItem.t) :=
  match qs with
  | [] => Ok None
  | q :: qs' =>
      if negb (Queue.is_empty q) then Queue.peek q else peek_from qs'
  end.

Definition peek (self : t) : result (option QueueItem.t) :=
  peek_from (_queues self).

Definition len (self : t) : nat :=
  foldr Nat.add 0%nat (map Queue.len (_queues self)).

Definition to_list (self : t) : list QueueItem.t :=
  foldl (fun out q => (out ++ Queue.to_list q)%list) [] (_queues self).

(** A client that dequeues until nothing is left, at most [fuel] times. *)
Fixpoint drain (fuel : nat) (self : t) : result (list QueueItem.t) :=
  match fuel with
  | O => Ok []
  | S fuel' =>
      '(x, self') ← dequeue self;
      match x with
      | None => Ok []
      | Some item => rest ← drain fuel' self'; Ok (item :: rest)
      end
  end.

(** The states that [new] and [enqueue] build: four lanes, and lane [i]
    holds items of rank [i] only. *)
Definition ranked (self : t) : Prop :=
  length (_queues self) = 4%nat /\
  forall i q x, _queues self !! i = Some q -> x ∈ Queue._items q ->
    rank_of (QueueItem.priority x) = i.

(** The same, as a check. *)
Definition wf (self : t) : bool :=
  Nat.eqb (length (_queues self)) 4 &&
  forallb (fun iq : nat * Queue.t =>
             forallb (fun x => Nat.eqb (rank_of (QueueItem.priority x)) iq.1)
               (Queue._items iq.2))
    (enumerate_from 0 (_queues self)).

(** The states a client can reach. *)
Inductive reachable : t -> Prop :=
  | reachable_new : reachable new
  | reachable_enqueue self item self' :
      reachable self -> enqueue self item = Ok self' -> reachable self'
  | reachable_dequeue self x self' :
      reachable self -> dequeue self = Ok (x, self') -> reachable self'.

End PriorityQueue.

(** ** linked_list.py *)

Module PatientNode.

#[warnings="-register-all"]
Inductive t : Type := mk {
  appointment_id : pyval;
  name : pyval;
  priority : string;
  appointment_date : pyval;
  appointment_time : pyval;
  created_at : pyval;
  next : option t
}.

(** The record a node stores: the node without its link. *)
Definition detach (self : t) : t :=
  mk (appointment_id self) (name self) (priority self)
     (appointment_date self) (appointment_time self) (created_at self) None.

End PatientNode.

Module PatientLinkedList.

Record t : Type := mk { head : option PatientNode.t }.

Definition new : t := mk None.

(** [PatientNode(appointment_id=a["id"], ...)] *)
Definition make_node (a : pydict) : result PatientNode.t :=
  appointment_id ← dict_getitem a "id";
  let name :=
    py_or (py_or (dict_get a "name") (dict_get a "patient_name")) (PyStr "") in
  lowered ← py_lower (py_or (dict_get a "priority") (PyStr "normal"));
  let priority := strip lowered in
  let appointment_date := py_or (dict_get a "appointment_date") (PyStr "") in
  let appointment_time := py_or (dict_get a "appointment_time") (PyStr "") in
  let created_at := dict_get a "created_at" in
  Ok (PatientNode.mk appointment_id name priority appointment_date
        appointment_time created_at None).

(** The chain from [current] once the loop
    [while current.next is not None: current = current.next] has run and
    [current.next = node] has been stored in its last node. *)
Fixpoint link_last (current node : PatientNode.t) : PatientNode.t :=
  match current with
  | PatientNode.mk i n p d t c nx =>
      match nx with
      | None => PatientNode.mk i n p d t c (Some node)
      | Some nxt => PatientNode.mk i n p d t c (Some (link_last nxt node))
      end
  end.

(** The linking half of [insert_from_appointment_dict]. *)
Definition append_node (self : t) (node : PatientNode.t) : t :=
  match head self with
  | None => mk (Some node)
  | Some h => mk (Some (link_last h node))
  end.

Definition insert_from_appointment_dict (self : t) (a : pydict) : result t :=
  node ← make_node a;
  Ok (append_node self node).

(** The nodes visited by [while current is not None] from [current]. *)
Fixpoint nodes_from (current : PatientNode.t) : list PatientNode.t :=
  current ::
  match current with
  | PatientNode.mk _ _ _ _ _ _ nx =>
      match nx with
      | None => []
      | Some nxt => nodes_from nxt
      end
  end.

Definition to_list (self : t) : list PatientNode.t :=
  match head self with
  | None => []
  | Some h => nodes_from h
  end.

(** The removal loop from [current]: [None] when no node matches, and
    otherwise what the link that led to [current] points to afterwards. *)
Fixpoint unlink (current : PatientNode.t) (appointment_id : pyval)
  : option (option PatientNode.t) :=
  match current with
  | PatientNode.mk i n p d t c nx =>
      if py_eq i appointment_id then Some nx
      else
        match nx with
        | None => None
        | Some nxt =>
            match unlink nxt appointment_id with
            | Some nxt' => Some (Some (PatientNode.mk i n p d t c nxt'))
            | None => None
            end
        end
  end.

Definition remove_by_id (self : t) (appointment_id : pyval) : t * bool :=
  match head self with
  | None => (self, false)
  | Some h =>
      match unlink h appointment_id with
      | Some h' => (mk h', true)
      | None => (self, false)
      end
  end.

(** The records of the store, in traversal order. *)
Definition records (self : t) : list PatientNode.t :=
  map PatientNode.detach (to_list self).

End PatientLinkedList.

(** ** models/patient.py *)

Module Models.

Module PatientRecord.

Record t : Type := mk {
  id : Z;
  name : string;
  priority : string;
  created_at : datetime;
  doctor_id : option Z
}.

Definition to_dict (self : t) : pydict :=
  {[ "id" := PyInt (id self);
     "name" := PyStr (name self);
     "priority" := PyStr (priority self);
     "created_at" :=
       if truthy (PyDatetime (created_at self))
       then PyStr (isoformat (created_at self)) else PyNone;
     "doctor_id" :=
       match doctor_id self with
       | Some d => PyInt d
       | None => PyNone
       end ]}.

End PatientRecord.

Module PatientNode.

#[warnings="-register-all"]
Inductive t : Type := mk {
  record : PatientRecord.t;
  next : option t
}.

End PatientNode.

Module PatientLinkedList.

Record t : Type := mk {
  head : option PatientNode.t;
  _size : Z
}.

Definition new : t := mk None 0.

Definition is_empty (self : t) : bool :=
  match head self with
  | None => true
  | Some _ => false
  end.

Definition len (self : t) : Z := _size self.

(** The chain from [current] once the loop
    [while current.next is not None: current = current.next] has run and
    [current.next = new_node] has been stored in its last node. *)
Fixpoint link_last (current new_node : PatientNode.t) : PatientNode.t :=
  match current with
  | PatientNode.mk r nx =>
      match nx with
      | None => PatientNode.mk r (Some new_node)
      | Some nxt => PatientNode.mk r (Some (link_last nxt new_node))
      end
  end.

Definition append (self : t) (record : PatientRecord.t) : t :=
  let new_node := PatientNode.mk record None in
  mk (match head self with
      | None => Some new_node
      | Some h => Some (link_last h new_node)
      end)
     (_size self + 1).

(** The search loop from [current]. *)
Fixpoint find_from (current : PatientNode.t) (patient_id : Z)
  : option PatientRecord.t :=
  match current with
  | PatientNode.mk r nx =>
      if PatientRecord.id r =? patient_id then Some r
      else
        match nx with
        | None => None
        | Some nxt => find_from nxt patient_id
        end
  end.

Definition find_by_id (self : t) (patient_id : Z) : option PatientRecord.t :=
  match head self with
  | None => None
  | Some h => find_from h patient_id
  end.

(** The records collected by [while current is not None] from [current]. *)
Fixpoint records_from (current : PatientNode.t) : list PatientRecord.t :=
  match current with
  | PatientNode.mk r nx =>
      r ::
      match nx with
      | None => []
      | Some nxt => records_from nxt
      end
  end.

Definition to_list (self : t) : list PatientRecord.t :=
  match head self with
  | None => []
  | Some h => records_from h
  end.

Definition clear (self : t) : t := mk None 0.

(** The calls that change a registry, and a client that makes them in
    turn on a new registry. *)
Inductive call : Type :=
  | Append (record : PatientRecord.t)
  | Clear.

Definition step (self : t) (c : call) : t :=
  match c with
  | Append record => append self record
  | Clear => clear self
  end.

Definition run (calls : list call) : t := foldl step new calls.

End PatientLinkedList.

End Models.

(** A record for the examples. *)
Definition sample_record (id : Z) (name : string) : Models.PatientRecord.t :=
  Models.PatientRecord.mk id name "normal" datetime_min None.

(** ** app.py *)

Definition PRIORITIES : list string :=
  ["normal"; "accident"; "emergency"; "critical"].

(** [request.form.get(name) or d]: a form field is a [str], or [None]
    when the form has no such field. *)
Definition form_get_or (field : option string) (d : string) : string :=
  match field with
  | Some s => str_or s d
  | None => d
  end.

(** The priority that [register_patient] and [patient_dashboard] store
    with a new appointment:
    [priority = (request.form.get("priority") or "normal").strip().lower()]
    and [if priority not in PRIORITIES: priority = "normal"]. *)
Definition form_priority (field : option string) : string :=
  let priority := lower (strip (form_get_or field "normal")) in
  if bool_decide (priority ∈ PRIORITIES) then priority else "normal".

(** [r[k]] on a [sqlite3.Row], the row of a query by column name: a name
    that is no column of the query is an [IndexError]. *)
Definition row_getitem (r : pydict) (k : string) : result pyval :=
  match r !! k with
  | Some v => Ok v
  | None => Raise IndexError
  end.

Definition _appointment_rows_to_dicts (rows : list pydict)
  : result (list pydict) :=
  mapM (fun r =>
          id ← row_getitem r "id";
          name ← row_getitem r "patient_name";
          appointment_date ← row_getitem r "appointment_date";
          appointment_time ← row_getitem r "appointment_time";
          priority ← row_getitem r "priority";
          status ← row_getitem r "status";
          created_at ← row_getitem r "created_at";
          doctor_id ← row_getitem r "doctor_id";
          Ok ({[ "id" := id;
                 "name" := name;
                 "appointment_date" := appointment_date;
                 "appointment_time" := appointment_time;
                 "priority" := priority;
                 "status" := status;
                 "created_at" := created_at;
                 "doctor_id" := doctor_id ]} : pydict))
    rows.

(** The columns that the queries of the dashboards select. *)
Definition appointment_columns : list string :=
  ["id"; "patient_name"; "appointment_date"; "appointment_time"; "priority";
   "status"; "created_at"; "doctor_id"].

(** The row has every column of the query. *)
Definition selected (r : pydict) : bool :=
  forallb (fun k => bool_decide (is_Some (r !! k))) appointment_columns.

(** What [_appointment_rows_to_dicts] makes of a row: a dict of eight
    keys, with the patient_name of the row under "name". *)
Definition row_dict_of (r a : pydict) : Prop :=
  dom a
  = ({[ "id"; "name"; "appointment_date"; "appointment_time"; "priority";
        "status"; "created_at"; "doctor_id" ]} : gset string) /\
  a !! "name" = r !! "patient_name" /\
  a !! "id" = r !! "id" /\
  a !! "appointment_date" = r !! "appointment_date" /\
  a !! "appointment_time" = r !! "appointment_time" /\
  a !! "priority" = r !! "priority" /\
  a !! "status" = r !! "status" /\
  a !! "created_at" = r !! "created_at" /\
  a !! "doctor_id" = r !! "doctor_id".

(** ** The order of the sort keys, for the statements *)

(** [x <= y] on comparable values. *)
Definition datetime_le (x y : datetime) : Prop :=
  match datetime_cmp x y with
  | Some Lt | Some Eq => True
  | _ => False
  end.

(** Ascending on rank, then due time, then creation time. *)
Definition key_ordered (x y : nat * datetime * datetime) : Prop :=
  let '(r1, d1, c1) := x in
  let '(r2, d2, c2) := y in
  (r1 <= r2)%nat /\
  (r1 = r2 -> datetime_le d1 d2) /\
  (r1 = r2 -> datetime_eqb d1 d2 = true -> datetime_le c1 c2).

(** The whole key is equal. *)
Definition key_equal (x y : nat * datetime * datetime) : Prop :=
  let '(r1, d1, c1) := x in
  let '(r2, d2, c2) := y in
  r1 = r2 /\ datetime_eqb d1 d2 = true /\ datetime_eqb c1 c2 = true.

#[global] Instance datetime_le_dec x y : Decision (datetime_le x y).
Proof.
  unfold datetime_le. destruct (datetime_cmp x y) as [[]|]; apply _.
Defined.

#[global] Instance key_ordered_dec : RelDecision key_ordered.
Proof. intros [[r1 d1] c1] [[r2 d2] c2]. simpl. apply _. Defined.

#[global] Instance key_equal_dec : RelDecision key_equal.
Proof. intros [[r1 d1] c1] [[r2 d2] c2]. simpl. apply _. Defined.

(** No two of the keys are equal. *)
Fixpoint distinct_keys (keys : list (nat * datetime * datetime)) : bool :=
  match keys with
  | [] => true
  | k :: rest =>
      forallb (fun k' => negb (bool_decide (key_equal k k'))) rest
      && distinct_keys rest
  end.

(** A field that holds a string or [None], or is missing. *)
Definition is_text (v : pyval) : bool :=
  match v with
  | PyNone | PyStr _ => true
  | _ => false
  end.

(** An appointment row as the application builds it: an integer [id],
    text (or nothing) in the text columns, and any creation time. *)
Definition well_typed (a : pydict) : bool :=
  match a !! "id" with
  | Some (PyInt _) => true
  | _ => false
  end
  && is_text (dict_get a "priority")
  && is_text (dict_get a "appointment_date")
  && is_text (dict_get a "appointment_time").

(** *** Rows for the examples *)

(** A row of the snapshot. *)
Definition appointment (id : Z) (name priority date time created : string)
  : pydict :=
  {[ "id" := PyInt id; "name" := PyStr name; "priority" := PyStr priority;
     "appointment_date" := PyStr date; "appointment_time" := PyStr time;
     "created_at" := PyStr created ]}.

(** A dict of the output. *)
Definition served (id : Z) (name priority date time created : string)
  : pydict :=
  {[ "appointment_id" := PyInt id; "name" := PyStr name;
     "priority" := PyStr priority; "appointment_date" := PyStr date;
     "appointment_time" := PyStr time; "created_at" := PyStr created ]}.

(** Two critical rows behind a normal one. *)
Definition three_rows : list pydict :=
  [ appointment 1 "A" "normal" "2025-02-01" "10:00" "2025-01-01T00:00:00";
    appointment 2 "B" "critical" "2025-02-02" "09:00" "2025-01-01T00:00:01";
    appointment 3 "C" "CRITICAL " "2025-02-01" "08:00" "2025-01-01T00:00:02" ].

Definition three_rows_served : list pydict :=
  [ served 3 "C" "critical" "2025-02-01" "08:00" "2025-01-01T00:00:02";
    served 2 "B" "critical" "2025-02-02" "09:00" "2025-01-01T00:00:01";
    served 1 "A" "normal" "2025-02-01" "10:00" "2025-01-01T00:00:00" ].

Definition three_rows_keys : list (nat * datetime * datetime) :=
  [ (3%nat, datetime_of_fields 2025 2 1 10 0 0 0 None,
     datetime_of_fields 2025 1 1 0 0 0 0 None);
    (0%nat, datetime_of_fields 2025 2 2 9 0 0 0 None,
     datetime_of_fields 2025 1 1 0 0 1 0 None);
    (0%nat, datetime_of_fields 2025 2 1 8 0 0 0 None,
     datetime_of_fields 2025 1 1 0 0 2 0 None) ].

(** The first two of them, and the third. *)
Definition two_rows : list pydict :=
  [ appointment 1 "A" "normal" "2025-02-01" "10:00" "2025-01-01T00:00:00";
    appointment 2 "B" "critical" "2025-02-02" "09:00" "2025-01-01T00:00:01" ].

Definition third_row : pydict :=
  appointment 3 "C" "CRITICAL " "2025-02-01" "08:00" "2025-01-01T00:00:02".

(** The same rows, already in serving order. *)
Definition ordered_rows : list pydict :=
  [ appointment 3 "C" "CRITICAL " "2025-02-01" "08:00" "2025-01-01T00:00:02";
    appointment 2 "B" "critical" "2025-02-02" "09:00" "2025-01-01T00:00:01";
    appointment 1 "A" "normal" "2025-02-01" "10:00" "2025-01-01T00:00:00" ].

Definition ordered_rows_keys : list (nat * datetime * datetime) :=
  [ (0%nat, datetime_of_fields 2025 2 1 8 0 0 0 None,
     datetime_of_fields 2025 1 1 0 0 2 0 None);
    (0%nat, datetime_of_fields 2025 2 2 9 0 0 0 None,
     datetime_of_fields 2025 1 1 0 0 1 0 None);
    (3%nat, datetime_of_fields 2025 2 1 10 0 0 0 None,
     datetime_of_fields 2025 1 1 0 0 0 0 None) ].

(** A single row. *)
Definition sample_row : pydict :=
  appointment 1 "A" "normal" "2025-02-01" "10:00" "2025-01-01T00:00:00".

(** One row, trivially in serving order. *)
Definition one_row : list pydict := [sample_row].

Definition one_row_served : list pydict :=
  [ served 1 "A" "normal" "2025-02-01" "10:00" "2025-01-01T00:00:00" ].

(** A row whose label is blank. *)
Definition blank_label_row : list pydict :=
  [ appointment 1 "A" "   " "2025-02-01" "10:00" "2025-01-01T00:00:00" ].

(** A row with an unrecognized label, no date or time, and a creation
    time that does not parse. *)
Definition degraded_row : list pydict :=
  [ appointment 7 "Z" "URGENT!" "" "" "yesterday" ].

Definition degraded_row_served : list pydict :=
  [ served 7 "Z" "urgent!" "" "" "0001-01-01T00:00:00" ].


(** Two rows with the creation time as the application writes it, by
    [datetime.now(timezone.utc).isoformat()]: same priority, one with a
    date and a time, one with neither. *)
Definition stored_rows : list pydict :=
  [ appointment 1 "A" "normal" "2025-02-01" "09:00"
      "2025-01-01T00:00:00.000001+00:00";
    appointment 2 "B" "normal" "" ""
      "2025-01-01T00:00:01.000001+00:00" ].

(** A layered queue with a critical item and two items of rank 3. *)
Definition sample_item (id : Z) (priority : string) : QueueItem.t :=
  QueueItem.mk (PyInt id) (PyStr "P") priority (PyStr "") (PyStr "")
    datetime_min.

Definition sample_queue : PriorityQueue.t :=
  PriorityQueue.mk
    [ Queue.mk [sample_item 2 "critical"]; Queue.mk []; Queue.mk [];
      Queue.mk [sample_item 1 "normal"; sample_item 3 "urgent!"] ].

(** Two rows as a query of the dashboards returns them, the dicts made
    of them, and the queue shown for them. *)
Definition query_row (id : Z) (name priority date time created : string)
  : pydict :=
  {[ "id" := PyInt id; "patient_name" := PyStr name;
     "appointment_date" := PyStr date; "appointment_time" := PyStr time;
     "priority" := PyStr priority; "status" := PyStr "scheduled";
     "created_at" := PyStr created; "doctor_id" := PyInt 1 ]}.

Definition query_dict (id : Z) (name priority date time created : string)
  : pydict :=
  {[ "id" := PyInt id; "name" := PyStr name;
     "appointment_date" := PyStr date; "appointment_time" := PyStr time;
     "priority" := PyStr priority; "status" := PyStr "scheduled";
     "created_at" := PyStr created; "doctor_id" := PyInt 1 ]}.

Definition query_rows : list pydict :=
  [ query_row 1 "A" "normal" "2025-02-01" "10:00" "2025-01-01T00:00:00";
    query_row 2 "" "critical" "2025-02-02" "09:00" "2025-01-01T00:00:01" ].

Definition query_dicts : list pydict :=
  [ query_dict 1 "A" "normal" "2025-02-01" "10:00" "2025-01-01T00:00:00";
    query_dict 2 "" "critical" "2025-02-02" "09:00" "2025-01-01T00:00:01" ].

Definition query_served : list pydict :=
  [ served 2 "" "critical" "2025-02-02" "09:00" "2025-01-01T00:00:01";
    served 1 "A" "normal" "2025-02-01" "10:00" "2025-01-01T00:00:00" ].

(** ** scheduler.py *)

Section Scheduler.

(** [datetime.fromisoformat] on a [str]: the value read, or [None] where
    Python raises [ValueError]. *)
Variable fromisoformat : string -> option datetime.

Definition datetime_fromisoformat (s : string) : result datetime :=
  match fromisoformat s with
  | Some d => Ok d
  | None => Raise ValueError
  end.

Definition _parse_created_at (value : pyval) : result datetime :=
  match value with
  | PyDatetime d => Ok d
  | PyStr s =>
      if truthy (PyStr s) then
        try_except (datetime_fromisoformat s) ValueError (Ok datetime_min)
      else Ok datetime_min
  | _ => Ok datetime_min
  end.

Definition _parse_appointment_datetime (date_str time_str : pyval)
    (fallback : datetime) : result datetime :=
  date_str ← py_strip (py_or date_str (PyStr ""));
  time_str ← py_strip (py_or time_str (PyStr ""));
  if negb (truthy (PyStr date_str)) || negb (truthy (PyStr time_str))
  then Ok fallback
  else
    try_except (datetime_fromisoformat (date_str +:+ "T" +:+ time_str))
      ValueError (Ok fallback).

Definition build_queue_item (appointment_id name : pyval) (priority : string)
    (appointment_date appointment_time : pyval) (created_at : datetime)
  : QueueItem.t :=
  QueueItem.mk appointment_id name
    (strip (lower (str_or priority "normal")))
    (py_or appointment_date (PyStr ""))
    (py_or appointment_time (PyStr ""))
    created_at.

(** An entry of [enriched_items]. *)
Definition enriched : Type := nat * datetime * datetime * PatientNode.t.

(** The body of the loop over the traversed nodes. *)
Definition enrich (node : PatientNode.t) : result enriched :=
  let prio := strip (lower (str_or (PatientNode.priority node) "normal")) in
  let prio := if bool_decide (prio ∈ PRIORITY_ORDER) then prio else "normal" in
  created ← _parse_created_at (PatientNode.created_at node);
  appt_dt ←
    _parse_appointment_datetime (PatientNode.appointment_date node)
      (PatientNode.appointment_time node) created;
  rank ← priority_rank (PyStr prio);
  Ok (rank, appt_dt, created, node).

(** [lambda x: (x[0], x[1], x[2])] *)
Definition sort_key (x : enriched) : nat * datetime * datetime :=
  let '(rank, appt_dt, created, _) := x in (rank, appt_dt, created).

(** [<] on the key tuples: the first component on which they differ
    (by [==]) decides, by its own [<]. *)
Definition key_lt (x y : nat * datetime * datetime) : result bool :=
  let '(r1, d1, c1) := x in
  let '(r2, d2, c2) := y in
  if negb (Nat.eqb r1 r2) then Ok (Nat.ltb r1 r2)
  else if negb (datetime_eqb d1 d2) then datetime_lt d1 d2
  else if negb (datetime_eqb c1 c2) then datetime_lt c1 c2
  else Ok false.

(** Every two of the keys can be compared. *)
Definition comparable (keys : list (nat * datetime * datetime)) : bool :=
  forallb (fun k1 =>
             forallb (fun k2 =>
                        match key_lt k1 k2 with
                        | Ok _ => true
                        | Raise _ => false
                        end) keys) keys.

(** The queue item of a node, as the loading loop builds it. *)
Definition item_of (node : PatientNode.t) : result QueueItem.t :=
  created ← _parse_created_at (PatientNode.created_at node);
  Ok (build_queue_item (PatientNode.appointment_id node)
        (PatientNode.name node) (PatientNode.priority node)
        (PatientNode.appointment_date node)
        (PatientNode.appointment_time node) created).

(** The body of the loop that loads the priority queue. *)
Definition load (pq : PriorityQueue.t) (x : enriched)
  : result PriorityQueue.t :=
  let '(_, _, _, node) := x in
  item ← item_of node;
  PriorityQueue.enqueue pq item.

Definition get_optimized_queue_list (appointments : list pydict)
  : result (list pydict) :=
  patient_list ←
    for_each PatientLinkedList.insert_from_appointment_dict appointments
      PatientLinkedList.new;
  let nodes := PatientLinkedList.to_list patient_list in
  enriched_items ←
    for_each (fun items node => e ← enrich node; Ok (items ++ [e])%list)
      nodes [];
  enriched_items ← list_sort sort_key key_lt enriched_items;
  pq ← for_each load enriched_items PriorityQueue.new;
  Ok (map QueueItem.to_dict (PriorityQueue.to_list pq)).

(** Two entries out of order, made from nodes without date, time or
    creation time. *)
Definition sample_node (id : Z) (priority : string) : PatientNode.t :=
  PatientNode.mk (PyInt id) (PyStr "P") priority (PyStr "") (PyStr "") PyNone
    None.

(** A store of one record, and the same store behind the record of
    [sample_row]. *)
Definition sample_store : PatientLinkedList.t :=
  PatientLinkedList.mk (Some (sample_node 2 "critical")).

Definition sample_store_grown : PatientLinkedList.t :=
  PatientLinkedList.mk
    (Some (PatientNode.mk (PyInt 2) (PyStr "P") "critical" (PyStr "")
             (PyStr "") PyNone
             (Some (PatientNode.mk (PyInt 1) (PyStr "A") "normal"
                      (PyStr "2025-02-01") (PyStr "10:00")
                      (PyStr "2025-01-01T00:00:00") None)))).



(** *** What the statements say about one record *)

(** An entry with its node taken off the chain. *)
Definition detach_entry (x : enriched) : enriched :=
  (x.1, PatientNode.detach x.2).

(** The sort key of an appointment row. *)
Definition record_key (a : pydict) : result (nat * datetime * datetime) :=
  node ← PatientLinkedList.make_node a;
  e ← enrich node;
  Ok (sort_key e).

(** The output dict of an appointment row. *)
Definition output_record (a : pydict) : result pydict :=
  node ← PatientLinkedList.make_node a;
  item ← item_of node;
  Ok (QueueItem.to_dict item).

(** Row [i] of the snapshot is served directly before row [j]. *)
Definition serves_before (snapshot : list pydict) (i j : nat) : Prop :=
  exists a b ka kb,
    snapshot !! i = Some a /\ snapshot !! j = Some b /\
    record_key a = Ok ka /\ record_key b = Ok kb /\
    key_ordered ka kb /\ (key_equal ka kb -> (i < j)%nat).

(** The whole pass as one stable sort: make the records, compute the
    keys, sort, and map each record to its output dict. *)
Definition single_stable_sort (snapshot : list pydict) : result (list pydict) :=
  nodes ← mapM PatientLinkedList.make_node snapshot;
  keyed ← mapM enrich nodes;
  sorted ← list_sort sort_key key_lt keyed;
  mapM (fun x : enriched => QueueItem.to_dict <$> item_of x.2) sorted.

(** The creation time the claim describes: the value itself, the parse of
    a non-empty string, and [datetime.min] otherwise. *)
Definition created_of (value : pyval) : datetime :=
  match value with
  | PyDatetime d => d
  | PyStr s => if decide (s = "") then datetime_min
               else default datetime_min (fromisoformat s)
  | _ => datetime_min
  end.

(** The text of a field that is a string or [None]. *)
Definition text_of (v : pyval) : string :=
  match v with
  | PyStr s => s
  | _ => ""
  end.

(** The due time the claim describes: the parse of the combined date and
    time when both are non-blank and it parses, else the creation time. *)
Definition due_of (date time : pyval) (created : datetime) : datetime :=
  let d := strip (text_of date) in
  let t := strip (text_of time) in
  if decide (d = "" \/ t = "") then created
  else default created (fromisoformat (d +:+ "T" +:+ t)).

(** * Properties *)

(** ** The result monad *)

Lemma bind_Ok {A B} (m : result A) (f : A -> result B) (b : B) :
  m ≫= f = Ok b <-> exists a, m = Ok a /\ f a = Ok b.
Proof.
  destruct m as [a|e]; simpl.
  - split; [eauto|]. by intros (a' & [= <-] & ?).
  - split; [done|]. by intros (? & ? & ?).
Qed.

Lemma fmap_Ok {A B} (f : A -> B) (m : result A) (b : B) :
  f <$> m = Ok b <-> exists a, m = Ok a /\ b = f a.
Proof.
  destruct m as [a|e]; simpl.
  - split; [intros [= <-]; eauto|]. by intros (a' & [= <-] & ->).
  - split; [done|]. by intros (? & ? & ?).
Qed.

Lemma mapM_Ok_Forall2 {A B} (f : A -> result B) (l : list A) (k : list B) :
  mapM f l = Ok k <-> Forall2 (fun x y => f x = Ok y) l k.
Proof.
  revert k. induction l as [|x l IH]; intros k; simpl.
  - split; [intros [= <-]; constructor|]. by inversion 1.
  - rewrite bind_Ok. split.
    + intros (y & Hy & Hrest). apply bind_Ok in Hrest as (k' & Hk' & [= <-]).
      constructor; [done|]. by apply IH.
    + inversion 1 as [|? y ? k' Hy Hk']; subst. exists y. split; [done|].
      apply bind_Ok. exists k'. split; [by apply IH|done].
Qed.

(** A loop that appends one computed entry per element is a [mapM]. *)
Lemma for_each_append {A B} (f : A -> result B) (l : list A) (acc : list B) :
  for_each (fun items x => e ← f x; Ok (items ++ [e])) l acc
  = (k ← mapM f l; Ok (acc ++ k)).
Proof.
  revert acc. induction l as [|x l IH]; intros acc; simpl.
  - by rewrite app_nil_r.
  - destruct (f x) as [y|e]; simpl; [|done].
    rewrite IH. destruct (mapM f l) as [k|e]; simpl; [|done].
    by rewrite <- app_assoc.
Qed.

(** ** Strings *)

Lemma lower_char_idem c : lower_char (lower_char c) = lower_char c.
Proof. by destruct c as [[] [] [] [] [] [] [] []]. Qed.

Lemma is_whitespace_lower_char c :
  is_whitespace (lower_char c) = is_whitespace c.
Proof. by destruct c as [[] [] [] [] [] [] [] []]. Qed.

Lemma lower_idem s : lower (lower s) = lower s.
Proof. induction s as [|c s IH]; simpl; [done|]. by rewrite lower_char_idem, IH. Qed.

Lemma lstrip_lower s : lstrip (lower s) = lower (lstrip s).
Proof.
  induction s as [|c s IH]; simpl; [done|].
  rewrite is_whitespace_lower_char. by destruct (is_whitespace c).
Qed.

Lemma rstrip_lower s : rstrip (lower s) = lower (rstrip s).
Proof.
  induction s as [|c s IH]; simpl; [done|].
  rewrite IH, is_whitespace_lower_char.
  destruct (rstrip s); simpl; [|done]. by destruct (is_whitespace c).
Qed.

Lemma strip_lower s : strip (lower s) = lower (strip s).
Proof. unfold strip. by rewrite lstrip_lower, rstrip_lower. Qed.

Lemma rstrip_idem s : rstrip (rstrip s) = rstrip s.
Proof.
  induction s as [|c s IH]; simpl; [done|].
  destruct (rstrip s) as [|a r] eqn:Hr.
  - destruct (is_whitespace c) eqn:Hc; simpl; [done|]. by rewrite Hc.
  - change (rstrip (String c (String a r))) with
      (match rstrip (String a r) with
       | EmptyString =>
           if is_whitespace c then EmptyString else String c EmptyString
       | r' => String c r'
       end).
    by rewrite IH.
Qed.

Lemma lstrip_starts_clean s : starts_clean (lstrip s) = true.
Proof.
  induction s as [|c s IH]; simpl; [done|].
  destruct (is_whitespace c) eqn:Hc; [done|]. simpl. by rewrite Hc.
Qed.

Lemma lstrip_clean s : starts_clean s = true -> lstrip s = s.
Proof. destruct s as [|c s]; simpl; [done|]. by destruct (is_whitespace c). Qed.

Lemma rstrip_starts_clean s :
  starts_clean s = true -> starts_clean (rstrip s) = true.
Proof.
  destruct s as [|c s]; simpl; [done|]. intros Hc.
  destruct (rstrip s); simpl; [|done].
  destruct (is_whitespace c) eqn:E; simpl in *; [done|]. by rewrite E.
Qed.

Lemma strip_idem s : strip (strip s) = strip s.
Proof.
  unfold strip.
  rewrite (lstrip_clean (rstrip (lstrip s))).
  - apply rstrip_idem.
  - apply rstrip_starts_clean, lstrip_starts_clean.
Qed.

(** Normalizing a label twice is normalizing it once. *)
Lemma normalize_idem s : strip (lower (strip (lower s))) = strip (lower s).
Proof. by rewrite strip_lower, strip_idem, <- strip_lower, lower_idem. Qed.

(** ** The priority classifier *)

Lemma py_lower_or_normal s :
  py_lower (py_or (PyStr s) (PyStr "normal")) = Ok (lower (str_or s "normal")).
Proof. by destruct s. Qed.

Lemma priority_rank_str s :
  priority_rank (PyStr s) = Ok (label_rank (strip (lower (str_or s "normal")))).
Proof.
  unfold priority_rank. rewrite py_lower_or_normal. simpl.
  unfold label_rank. simpl.
  repeat case_decide; congruence.
Qed.

Lemma rank_of_label s :
  rank_of s = label_rank (strip (lower (str_or s "normal"))).
Proof. unfold rank_of. by rewrite priority_rank_str. Qed.

Lemma label_rank_le label : (label_rank label <= 3)%nat.
Proof. unfold label_rank. repeat case_decide; lia. Qed.

Lemma rank_of_le s : (rank_of s <= 3)%nat.
Proof. rewrite rank_of_label. apply label_rank_le. Qed.

(** C4. [priority_rank] returns on [None] and on every string, never
    raising: it lower-cases and trims the label (taking "normal" for
    [None] and the empty string), gives critical 0, emergency 1,
    accident 2, normal 3 and every other label 3, so the rank is
    always within 0..3. *)
Theorem priority_rank_total_classifier :
  priority_rank PyNone = Ok 3%nat /\
  priority_rank (PyStr "") = Ok 3%nat /\
  forall s : string,
    let label := strip (lower (str_or s "normal")) in
    exists r : nat,
      priority_rank (PyStr s) = Ok r /\ (r <= 3)%nat /\
      r = (if decide (label = "critical") then 0
           else if decide (label = "emergency") then 1
           else if decide (label = "accident") then 2
           else if decide (label = "normal") then 3
           else 3)%nat.
Proof.
  split; [done|]. split; [done|]. intros s label.
  exists (label_rank label). split; [apply priority_rank_str|].
  split; [apply label_rank_le|].
  unfold label_rank. by repeat case_decide.
Qed.

(** ** The order of datetimes and of sort keys *)

Lemma datetime_cmp_instant x y :
  datetime_cmp x y =
  if Bool.eqb (aware x) (aware y) then Some (instant x ?= instant y) else None.
Proof.
  unfold datetime_cmp, aware, instant.
  destruct (utcoffset x) as [a|], (utcoffset y) as [b|]; simpl; try done.
  - destruct (Z.eqb_spec a b) as [->|]; [|done]. f_equal.
    destruct (Z.compare_spec (wall_us x) (wall_us y)),
      (Z.compare_spec (wall_us x - b) (wall_us y - b)); done || lia.
  - by rewrite !Z.sub_0_r.
Qed.

Lemma datetime_cmp_opp x y : datetime_cmp y x = CompOpp <$> datetime_cmp x y.
Proof.
  rewrite !datetime_cmp_instant.
  destruct (aware x), (aware y); simpl; try done;
    by rewrite Z.compare_antisym.
Qed.

Lemma datetime_le_trans x y z :
  datetime_le x y -> datetime_le y z -> datetime_le x z.
Proof.
  unfold datetime_le. rewrite !datetime_cmp_instant.
  destruct (aware x), (aware y), (aware z); simpl; try done;
    destruct (Z.compare_spec (instant x) (instant y)),
      (Z.compare_spec (instant y) (instant z)),
      (Z.compare_spec (instant x) (instant z)); done || lia.
Qed.

(** [x == y] and [y <= z] on one side, [x <= z] on the other. *)
Lemma datetime_eqb_trans x y z :
  datetime_eqb x y = true -> datetime_eqb y z = true -> datetime_eqb x z = true.
Proof.
  unfold datetime_eqb. rewrite !datetime_cmp_instant.
  destruct (aware x), (aware y), (aware z); simpl; try done;
    destruct (Z.compare_spec (instant x) (instant y)),
      (Z.compare_spec (instant y) (instant z)),
      (Z.compare_spec (instant x) (instant z)); done || lia.
Qed.

Lemma datetime_le_antisym x y :
  datetime_le x y -> datetime_le y x -> datetime_eqb x y = true.
Proof.
  unfold datetime_le, datetime_eqb. rewrite (datetime_cmp_opp x y).
  by destruct (datetime_cmp x y) as [[]|].
Qed.

Lemma datetime_eqb_le x y : datetime_eqb x y = true -> datetime_le x y.
Proof.
  unfold datetime_le, datetime_eqb. by destruct (datetime_cmp x y) as [[]|].
Qed.

Lemma datetime_eqb_sym x y : datetime_eqb x y = datetime_eqb y x.
Proof.
  unfold datetime_eqb. rewrite (datetime_cmp_opp x y).
  by destruct (datetime_cmp x y) as [[]|].
Qed.

(** Splits on the ranks and on the two comparisons of the datetimes of
    two keys, after turning the reversed comparisons around. *)
Ltac order_cases r1 d1 c1 r2 d2 c2 :=
  unfold key_lt, key_ordered, key_equal, datetime_le, datetime_eqb,
    datetime_lt;
  rewrite ?(datetime_cmp_opp d1 d2), ?(datetime_cmp_opp c1 c2);
  destruct (Nat.eqb_spec r1 r2), (Nat.eqb_spec r2 r1), (Nat.ltb_spec r1 r2),
    (Nat.ltb_spec r2 r1);
  try lia;
  destruct (datetime_cmp d1 d2) as [[]|], (datetime_cmp c1 c2) as [[]|];
  simpl; try done; try (intros; repeat split; intros; done || lia);
  try (intros (? & ? & ?); done || lia || auto).

Lemma key_lt_asym a b : key_lt a b = Ok true -> key_lt b a = Ok false.
Proof. destruct a as [[r1 d1] c1], b as [[r2 d2] c2]. order_cases r1 d1 c1 r2 d2 c2. Qed.

Lemma key_lt_false_ordered a b : key_lt b a = Ok false -> key_ordered a b.
Proof. destruct a as [[r1 d1] c1], b as [[r2 d2] c2]. order_cases r1 d1 c1 r2 d2 c2. Qed.

Lemma key_ordered_lt_false a b : key_ordered a b -> key_lt b a = Ok false.
Proof.
  destruct a as [[r1 d1] c1], b as [[r2 d2] c2].
  order_cases r1 d1 c1 r2 d2 c2; intros (? & H1 & H2);
    try (by destruct (H1 eq_refl)); try (by destruct (H2 eq_refl eq_refl)).
Qed.

Lemma key_equal_lt_false a b : key_equal a b -> key_lt a b = Ok false.
Proof. destruct a as [[r1 d1] c1], b as [[r2 d2] c2]. order_cases r1 d1 c1 r2 d2 c2. Qed.

Lemma key_ordered_rank a b : key_ordered a b -> (a.1.1 <= b.1.1)%nat.
Proof. destruct a as [[r1 d1] c1], b as [[r2 d2] c2]. by intros [? _]. Qed.

Lemma key_ordered_trans a b c :
  key_ordered a b -> key_ordered b c -> key_ordered a c.
Proof.
  destruct a as [[r1 d1] c1], b as [[r2 d2] c2], c as [[r3 d3] c3].
  unfold key_ordered. intros (Hr1 & Hd1 & Hc1) (Hr2 & Hd2 & Hc2).
  split; [lia|]. split.
  - intros ->. assert (r2 = r3) as -> by lia.
    eapply datetime_le_trans; eauto.
  - intros -> Heq. assert (r2 = r3) as -> by lia.
    specialize (Hd1 eq_refl). specialize (Hd2 eq_refl).
    assert (datetime_eqb d1 d2 = true) as H12.
    { apply datetime_le_antisym; [done|].
      eapply datetime_le_trans; [done|].
      apply datetime_eqb_le. by rewrite datetime_eqb_sym. }
    assert (datetime_eqb d2 d3 = true) as H23.
    { eapply datetime_eqb_trans; [|done]. by rewrite datetime_eqb_sym. }
    eapply datetime_le_trans; eauto.
Qed.

(** A comparison of keys raises nothing but [TypeError]. *)
Lemma key_lt_raises a b e : key_lt a b = Raise e -> e = TypeError.
Proof.
  destruct a as [[r1 d1] c1], b as [[r2 d2] c2].
  unfold key_lt, datetime_lt.
  destruct (negb (r1 =? r2)%nat); [done|].
  destruct (negb (datetime_eqb d1 d2)).
  - destruct (datetime_cmp d1 d2) as [[]|]; congruence.
  - destruct (negb (datetime_eqb c1 c2)); [|done].
    destruct (datetime_cmp c1 c2) as [[]|]; congruence.
Qed.

(** ** The sort *)

Section list_sort_facts.
Context {A K : Type} (key : A -> K) (lt : K -> K -> result bool).

Lemma insort_perm x l l' : insort key lt x l = Ok l' -> l' ≡ₚ x :: l.
Proof.
  revert l'. induction l as [|y l IH]; intros l'; simpl.
  - by intros [= <-].
  - destruct (lt (key x) (key y)) as [[]|e]; simpl; [by intros [= <-]| |done].
    destruct (insort key lt x l) as [r|e]; simpl; [|done].
    intros [= <-]. rewrite (IH r eq_refl). apply Permutation_swap.
Qed.

Lemma for_each_insort_perm l acc out :
  for_each (fun sorted x => insort key lt x sorted) l acc = Ok out ->
  out ≡ₚ acc ++ l.
Proof.
  revert acc. induction l as [|x l IH]; intros acc; simpl.
  - intros [= <-]. by rewrite app_nil_r.
  - destruct (insort key lt x acc) as [acc'|e] eqn:Hins; simpl; [|done].
    intros Hout. rewrite (IH _ Hout), (insort_perm _ _ _ Hins).
    apply Permutation_middle.
Qed.

Lemma list_sort_perm l out : list_sort key lt l = Ok out -> out ≡ₚ l.
Proof. apply for_each_insort_perm. Qed.

(** The sort returns when every comparison it may make returns. *)
Lemma insort_returns x l :
  Forall (fun y => exists b, lt (key x) (key y) = Ok b) l ->
  exists l', insort key lt x l = Ok l'.
Proof.
  induction 1 as [|y l [b Hb] _ [r IH]]; simpl; [eauto|].
  rewrite Hb. simpl. destruct b; [eauto|]. rewrite IH. simpl. eauto.
Qed.

Lemma for_each_insort_returns l acc :
  (forall x y, x ∈ acc ++ l -> y ∈ acc ++ l ->
     exists b, lt (key x) (key y) = Ok b) ->
  exists out, for_each (fun sorted x => insort key lt x sorted) l acc = Ok out.
Proof.
  revert acc. induction l as [|x l IH]; intros acc Hcmp; simpl; [eauto|].
  destruct (insort_returns x acc) as [acc' Hacc'].
  { apply Forall_forall. intros y Hy. apply Hcmp; set_solver. }
  rewrite Hacc'. simpl. apply IH.
  assert (acc' ++ l ≡ₚ acc ++ x :: l) as Hp.
  { rewrite (insort_perm _ _ _ Hacc'). apply Permutation_middle. }
  intros a b Ha Hb. apply Hcmp; by rewrite <- Hp.
Qed.

Lemma list_sort_returns l :
  (forall x y, x ∈ l -> y ∈ l -> exists b, lt (key x) (key y) = Ok b) ->
  exists out, list_sort key lt l = Ok out.
Proof. intros H. by apply for_each_insort_returns. Qed.

(** An exception of the sort is an exception of a comparison of two of
    the keys. *)
Lemma insort_raises x l e :
  insort key lt x l = Raise e -> exists y, y ∈ l /\ lt (key x) (key y) = Raise e.
Proof.
  induction l as [|y l IH]; simpl; [done|].
  destruct (lt (key x) (key y)) as [[]|e'] eqn:Hlt; simpl.
  - done.
  - destruct (insort key lt x l) as [r|e'']; simpl; [done|].
    intros [= <-]. destruct IH as (z & ? & ?); [done|].
    exists z. split; [set_solver|done].
  - intros [= <-]. exists y. split; [set_solver|done].
Qed.

Lemma for_each_insort_raises l acc e :
  for_each (fun sorted x => insort key lt x sorted) l acc = Raise e ->
  exists x y, x ∈ acc ++ l /\ y ∈ acc ++ l /\ lt (key x) (key y) = Raise e.
Proof.
  revert acc. induction l as [|x l IH]; intros acc; simpl; [done|].
  destruct (insort key lt x acc) as [acc'|e'] eqn:Hins; simpl.
  - intros (a & b & Ha & Hb & Hab)%IH. exists a, b.
    assert (acc' ++ l ≡ₚ acc ++ x :: l) as Hp.
    { rewrite (insort_perm _ _ _ Hins). apply Permutation_middle. }
    by rewrite <- Hp.
  - intros [= <-]. apply insort_raises in Hins as (y & Hy & Hlt).
    exists x, y. set_solver.
Qed.

Lemma list_sort_raises l e :
  list_sort key lt l = Raise e ->
  exists x y, x ∈ l /\ y ∈ l /\ lt (key x) (key y) = Raise e.
Proof. apply for_each_insort_raises. Qed.

(** A list that is already in order comes back unchanged. *)
Lemma insort_last x l :
  Forall (fun y => lt (key x) (key y) = Ok false) l ->
  insort key lt x l = Ok (l ++ [x]).
Proof.
  induction 1 as [|y l Hy _ IH]; simpl; [done|].
  rewrite Hy. simpl. by rewrite IH.
Qed.

Lemma for_each_insort_sorted l acc :
  StronglySorted (fun y x => lt (key x) (key y) = Ok false) (acc ++ l) ->
  for_each (fun sorted x => insort key lt x sorted) l acc = Ok (acc ++ l).
Proof.
  revert acc. induction l as [|x l IH]; intros acc Hs; simpl.
  - by rewrite app_nil_r.
  - rewrite insort_last.
    + simpl. rewrite IH; rewrite <- app_assoc; done.
    + clear IH. induction acc as [|y acc IHacc]; [constructor|].
      simpl in Hs. apply StronglySorted_inv in Hs as [Hs Hy].
      constructor; [|by apply IHacc].
      rewrite Forall_forall in Hy. apply Hy. set_solver.
Qed.

Lemma list_sort_sorted l :
  StronglySorted (fun y x => lt (key x) (key y) = Ok false) l ->
  list_sort key lt l = Ok l.
Proof. intros H. by apply (for_each_insort_sorted l []). Qed.

(** Sorting commutes with a map that keeps the keys. *)
Lemma insort_map {B} (f : B -> A) x l :
  insort key lt (f x) (map f l) = map f <$> insort (key ∘ f) lt x l.
Proof.
  induction l as [|y l IH]; simpl; [done|].
  destruct (lt (key (f x)) (key (f y))) as [[]|e]; simpl; [done| |done].
  rewrite IH. by destruct (insort (key ∘ f) lt x l).
Qed.

Lemma for_each_insort_map {B} (f : B -> A) l acc :
  for_each (fun sorted x => insort key lt x sorted) (map f l) (map f acc)
  = map f <$> for_each (fun sorted x => insort (key ∘ f) lt x sorted) l acc.
Proof.
  revert acc. induction l as [|x l IH]; intros acc; simpl; [done|].
  rewrite insort_map.
  destruct (insort (key ∘ f) lt x acc) as [acc'|e]; simpl; [|done].
  apply IH.
Qed.

Lemma list_sort_map {B} (f : B -> A) l :
  list_sort key lt (map f l) = map f <$> list_sort (key ∘ f) lt l.
Proof. apply (for_each_insort_map f l []). Qed.

(** Order and stability. Each element carries the position [idx] it had
    before the sort; [placed] relates an element to its successor. *)
Context (idx : A -> nat).
Hypothesis lt_asym : forall a b, lt a b = Ok true -> lt b a = Ok false.

#[local] Abbreviation placed := (fun x y =>
  lt (key y) (key x) = Ok false /\
  (lt (key x) (key y) = Ok false -> (idx x < idx y)%nat)).

Lemma insort_HdRel y x l l' :
  insort key lt x l = Ok l' -> placed y x -> HdRel placed y l ->
  HdRel placed y l'.
Proof.
  destruct l as [|z l]; simpl.
  - intros [= <-] Hyx _. by constructor.
  - destruct (lt (key x) (key z)) as [[]|e]; simpl; [| |done].
    + intros [= <-] Hyx _. by constructor.
    + destruct (insort key lt x l) as [r|e]; simpl; [|done].
      intros [= <-] _ Hyz. apply HdRel_inv in Hyz. by constructor.
Qed.

Lemma insort_Sorted x l l' :
  Sorted placed l -> Forall (fun y => (idx y < idx x)%nat) l ->
  insort key lt x l = Ok l' -> Sorted placed l'.
Proof.
  revert l'. induction l as [|y l IH]; intros l' Hs Hidx; simpl.
  - intros [= <-]. by repeat constructor.
  - apply Sorted_inv in Hs as [Hs Hy].
    apply Forall_cons in Hidx as [Hyx Hidx].
    destruct (lt (key x) (key y)) as [[]|e] eqn:Hlt; simpl; [| |done].
    + intros [= <-]. constructor; [by constructor|].
      constructor. split; [by apply lt_asym|]. congruence.
    + destruct (insort key lt x l) as [r|e] eqn:Hins; simpl; [|done].
      intros [= <-]. constructor; [by apply IH|].
      eapply insort_HdRel; [done| |done]. by split.
Qed.

Lemma for_each_insort_Sorted l acc out :
  Sorted placed acc ->
  (forall x y, x ∈ acc -> y ∈ l -> (idx x < idx y)%nat) ->
  StronglySorted (fun x y => (idx x < idx y)%nat) l ->
  for_each (fun sorted x => insort key lt x sorted) l acc = Ok out ->
  Sorted placed out.
Proof.
  revert acc. induction l as [|x l IH]; intros acc Hs Hacc Hl; simpl.
  - by intros [= <-].
  - destruct (insort key lt x acc) as [acc'|e] eqn:Hins; simpl; [|done].
    apply StronglySorted_inv in Hl as [Hl Hx]. rewrite Forall_forall in Hx.
    apply IH; [|intros a b Ha Hb|done].
    + eapply insort_Sorted; [done| |done].
      apply Forall_forall. intros y Hy. apply Hacc; set_solver.
    + rewrite (insort_perm _ _ _ Hins) in Ha.
      apply elem_of_cons in Ha as [->|Ha]; [by apply Hx|].
      apply Hacc; set_solver.
Qed.

Lemma list_sort_Sorted l out :
  StronglySorted (fun x y => (idx x < idx y)%nat) l ->
  list_sort key lt l = Ok out -> Sorted placed out.
Proof.
  intros Hl. apply for_each_insort_Sorted; [constructor|set_solver|done].
Qed.

End list_sort_facts.

(** ** The FIFO queue and the layered queue *)

Lemma Queue_dequeue_empty q :
  Queue.is_empty q = true -> Queue.dequeue q = Ok (None, q).
Proof. unfold Queue.dequeue. by intros ->. Qed.

Lemma Queue_peek_empty q : Queue.is_empty q = true -> Queue.peek q = Ok None.
Proof. unfold Queue.peek. by intros ->. Qed.

Lemma PriorityQueue_to_list_concat pq :
  PriorityQueue.to_list pq = concat (map Queue._items (PriorityQueue._queues pq)).
Proof.
  unfold PriorityQueue.to_list, Queue.to_list.
  generalize (PriorityQueue._queues pq). intros qs.
  rewrite <- (app_nil_l (concat _)). generalize (@nil QueueItem.t).
  induction qs as [|q qs IH]; intros acc; simpl.
  - by rewrite app_nil_r.
  - by rewrite IH, app_assoc.
Qed.

Lemma PriorityQueue_len_to_list pq :
  PriorityQueue.len pq = length (PriorityQueue.to_list pq).
Proof.
  rewrite PriorityQueue_to_list_concat. unfold PriorityQueue.len, Queue.len.
  induction (PriorityQueue._queues pq) as [|q qs IH]; simpl; [done|].
  by rewrite length_app, IH.
Qed.

(** What the scan of the lanes does: it takes the head of the first
    non-empty lane, or finds every lane empty and changes nothing. *)
Lemma dequeue_from_spec qs :
  match PriorityQueue.dequeue_from qs with
  | Ok (Some x, qs') =>
      exists i rest,
        qs !! i = Some (Queue.mk (x :: rest)) /\
        (forall j q, (j < i)%nat -> qs !! j = Some q -> Queue._items q = []) /\
        qs' = <[i := Queue.mk rest]> qs
  | Ok (None, qs') => qs' = qs /\ Forall (fun q => Queue._items q = []) qs
  | Raise _ => False
  end.
Proof.
  induction qs as [|q qs IH]; simpl; [done|].
  destruct q as [[|x l]]; simpl.
  - destruct (PriorityQueue.dequeue_from qs) as [[[y|] qs']|e]; simpl; [| |done].
    + destruct IH as (i & rest & Hi & Hlt & ->).
      exists (S i), rest. split; [done|]. split; [|done].
      intros [|j] q' Hj; simpl; [by intros [= <-]|].
      apply Hlt. lia.
    + destruct IH as [-> IH]. split; [done|]. by constructor.
  - exists 0%nat, l. split; [done|]. split; [|done]. intros; lia.
Qed.

Lemma peek_from_spec qs :
  match PriorityQueue.dequeue_from qs with
  | Ok (x, _) => PriorityQueue.peek_from qs = Ok x
  | Raise _ => False
  end.
Proof.
  induction qs as [|q qs IH]; simpl; [done|].
  destruct q as [[|x l]]; simpl; [|done].
  by destruct (PriorityQueue.dequeue_from qs) as [[y qs']|e].
Qed.

Lemma concat_lanes_insert (qs : list Queue.t) i x rest :
  qs !! i = Some (Queue.mk (x :: rest)) ->
  (forall j q, (j < i)%nat -> qs !! j = Some q -> Queue._items q = []) ->
  concat (map Queue._items qs)
  = x :: concat (map Queue._items (<[i := Queue.mk rest]> qs)).
Proof.
  revert i. induction qs as [|q qs IH]; intros [|i]; simpl; try done.
  - by intros [= ->] _.
  - intros Hi Hlt. rewrite (Hlt 0%nat q); [|lia|done]. simpl.
    apply IH; [done|]. intros j q' Hj. apply (Hlt (S j)). lia.
Qed.

Lemma PriorityQueue_dequeue_some pq x pq' :
  PriorityQueue.dequeue pq = Ok (Some x, pq') ->
  PriorityQueue.to_list pq = x :: PriorityQueue.to_list pq'.
Proof.
  unfold PriorityQueue.dequeue. rewrite !PriorityQueue_to_list_concat.
  pose proof (dequeue_from_spec (PriorityQueue._queues pq)) as Hspec.
  destruct (PriorityQueue.dequeue_from _) as [[[y|] qs']|e]; simpl; [|done..].
  intros [= -> <-]. destruct Hspec as (i & rest & Hi & Hlt & ->). simpl.
  by apply concat_lanes_insert.
Qed.

Lemma PriorityQueue_dequeue_none pq pq' :
  PriorityQueue.dequeue pq = Ok (None, pq') ->
  pq' = pq /\ PriorityQueue.to_list pq = [].
Proof.
  unfold PriorityQueue.dequeue. rewrite !PriorityQueue_to_list_concat.
  pose proof (dequeue_from_spec (PriorityQueue._queues pq)) as Hspec.
  destruct (PriorityQueue.dequeue_from _) as [[[y|] qs']|e]; simpl; [done| |done].
  intros [= <-]. destruct Hspec as [-> Hall]. split; [by destruct pq|].
  induction Hall as [|q qs Hq _ IH]; simpl; [done|]. by rewrite Hq, IH.
Qed.

Lemma PriorityQueue_dequeue_returns pq :
  exists r, PriorityQueue.dequeue pq = Ok r.
Proof.
  unfold PriorityQueue.dequeue.
  pose proof (dequeue_from_spec (PriorityQueue._queues pq)) as Hspec.
  destruct (PriorityQueue.dequeue_from _) as [[y qs']|e]; simpl; [eauto|done].
Qed.

(** Dequeuing until nothing is left yields the flattened sequence. *)
Lemma PriorityQueue_drain_to_list fuel pq :
  (length (PriorityQueue.to_list pq) <= fuel)%nat ->
  PriorityQueue.drain fuel pq = Ok (PriorityQueue.to_list pq).
Proof.
  revert pq. induction fuel as [|fuel IH]; intros pq Hlen; simpl.
  - destruct (PriorityQueue.to_list pq); [done|simpl in Hlen; lia].
  - destruct (PriorityQueue_dequeue_returns pq) as [[[x|] pq'] Hd];
      rewrite Hd; simpl.
    + apply PriorityQueue_dequeue_some in Hd. rewrite Hd in Hlen |- *.
      simpl in Hlen. rewrite IH; [done|lia].
    + by apply PriorityQueue_dequeue_none in Hd as [_ ->].
Qed.

(** Items of a well-formed queue sit in the lane of their rank, so that
    the flattened sequence ascends by rank. *)
Lemma concat_lanes_lookup (qs : list Queue.t) n x :
  concat (map Queue._items qs) !! n = Some x ->
  exists i q, qs !! i = Some q /\ x ∈ Queue._items q.
Proof.
  intros Hn. apply list_elem_of_lookup_2, list_elem_of_In, in_concat in Hn
    as (l & Hl & Hx).
  apply in_map_iff in Hl as (q & <- & Hq).
  apply list_elem_of_In, list_elem_of_lookup in Hq as [i Hi].
  exists i, q. by rewrite list_elem_of_In.
Qed.

Lemma concat_lanes_order (qs : list Queue.t) n m x y i j qi qj :
  concat (map Queue._items qs) !! n = Some x ->
  concat (map Queue._items qs) !! m = Some y ->
  qs !! i = Some qi -> x ∈ Queue._items qi ->
  qs !! j = Some qj -> y ∈ Queue._items qj ->
  (forall k1 k2 q1 q2 z, qs !! k1 = Some q1 -> qs !! k2 = Some q2 ->
     z ∈ Queue._items q1 -> z ∈ Queue._items q2 -> k1 = k2) ->
  (i < j)%nat -> (n < m)%nat.
Proof.
  revert n m i j. induction qs as [|q qs IH]; intros n m i j; [done|].
  simpl. intros Hn Hm Hi Hx Hj Hy Huniq Hij.
  destruct j as [|j]; [lia|]. simpl in Hj.
  assert (y ∉ Queue._items q) as Hyq.
  { intros Hin. by specialize (Huniq 0%nat (S j) q qj y eq_refl Hj Hin Hy). }
  assert (length (Queue._items q) <= m)%nat as Hmq.
  { destruct (decide (m < length (Queue._items q))%nat) as [Hlt|]; [|lia].
    rewrite lookup_app_l in Hm by done.
    by apply list_elem_of_lookup_2 in Hm. }
  destruct i as [|i]; simpl in Hi.
  - injection Hi as ->.
    destruct (decide (n < length (Queue._items qi))%nat) as [Hlt|Hge]; [lia|].
    rewrite lookup_app_r in Hn by lia.
    apply concat_lanes_lookup in Hn as (k & qk & Hk & Hxk).
    by specialize (Huniq 0%nat (S k) qi qk x eq_refl Hk Hx Hxk).
  - assert (x ∉ Queue._items q) as Hxq.
    { intros Hin.
      by specialize (Huniq 0%nat (S i) q qi x eq_refl Hi Hin Hx). }
    assert (length (Queue._items q) <= n)%nat as Hnq.
    { destruct (decide (n < length (Queue._items q))%nat) as [Hlt|]; [|lia].
      rewrite lookup_app_l in Hn by done.
      by apply list_elem_of_lookup_2 in Hn. }
    rewrite lookup_app_r in Hn, Hm by done.
    enough (n - length (Queue._items q) < m - length (Queue._items q))%nat
      by lia.
    eapply (IH _ _ i j); try done; [|lia].
    intros k1 k2 q1 q2 z Hk1 Hk2 Hz1 Hz2.
    by specialize (Huniq (S k1) (S k2) q1 q2 z Hk1 Hk2 Hz1 Hz2) as [= ->].
Qed.

Lemma PriorityQueue_to_list_ranked pq n m x y :
  PriorityQueue.ranked pq ->
  PriorityQueue.to_list pq !! n = Some x ->
  PriorityQueue.to_list pq !! m = Some y ->
  (rank_of (QueueItem.priority x) < rank_of (QueueItem.priority y))%nat ->
  (n < m)%nat.
Proof.
  rewrite PriorityQueue_to_list_concat. intros [_ Hwf] Hn Hm Hr.
  destruct (concat_lanes_lookup _ _ _ Hn) as (i & qi & Hi & Hxi).
  destruct (concat_lanes_lookup _ _ _ Hm) as (j & qj & Hj & Hyj).
  eapply (concat_lanes_order _ n m x y i j); try done.
  - intros k1 k2 q1 q2 z Hk1 Hk2 Hz1 Hz2.
    by rewrite <- (Hwf _ _ _ Hk1 Hz1), <- (Hwf _ _ _ Hk2 Hz2).
  - by rewrite <- (Hwf _ _ _ Hi Hxi), <- (Hwf _ _ _ Hj Hyj).
Qed.

Lemma PriorityQueue_new_ranked : PriorityQueue.ranked PriorityQueue.new.
Proof.
  split; [done|]. intros i q x Hi Hx.
  do 4 (destruct i as [|i]; [injection Hi as <-; by apply elem_of_nil in Hx|]).
  done.
Qed.

Lemma PriorityQueue_enqueue_spec pq item :
  PriorityQueue.ranked pq ->
  exists q,
    PriorityQueue._queues pq !! rank_of (QueueItem.priority item) = Some q /\
    PriorityQueue.enqueue pq item =
      Ok (PriorityQueue.mk
            (<[rank_of (QueueItem.priority item) := Queue.enqueue q item]>
               (PriorityQueue._queues pq))).
Proof.
  intros [Hlen _]. unfold PriorityQueue.enqueue, PriorityQueue._queue_for.
  rewrite priority_rank_str, <- rank_of_label. simpl.
  destruct (lookup_lt_is_Some_2 (PriorityQueue._queues pq)
              (rank_of (QueueItem.priority item))) as [q Hq].
  { pose proof (rank_of_le (QueueItem.priority item)). lia. }
  exists q. by rewrite Hq.
Qed.

Lemma PriorityQueue_enqueue_ranked pq item pq' :
  PriorityQueue.ranked pq -> PriorityQueue.enqueue pq item = Ok pq' ->
  PriorityQueue.ranked pq'.
Proof.
  intros Hwf Henq.
  destruct (PriorityQueue_enqueue_spec pq item Hwf) as (q & Hq & Heq).
  rewrite Heq in Henq. injection Henq as <-.
  destruct Hwf as [Hlen Hwf]. split; simpl; [by rewrite length_insert|].
  intros i q' x Hi Hx.
  destruct (decide (i = rank_of (QueueItem.priority item))) as [->|Hne].
  - rewrite list_lookup_insert_eq in Hi by (by eapply lookup_lt_Some).
    injection Hi as <-. simpl in Hx.
    apply elem_of_app in Hx as [Hx|Hx]; [by eapply Hwf|].
    by apply list_elem_of_singleton in Hx as ->.
  - rewrite list_lookup_insert_ne in Hi by done. by eapply Hwf.
Qed.

Lemma elem_of_lane_to_list pq i q x :
  PriorityQueue._queues pq !! i = Some q -> x ∈ Queue._items q ->
  x ∈ PriorityQueue.to_list pq.
Proof.
  intros Hi Hx. rewrite PriorityQueue_to_list_concat.
  apply list_elem_of_In, in_concat. exists (Queue._items q).
  split; [|by apply list_elem_of_In].
  apply in_map, list_elem_of_In. by eapply list_elem_of_lookup_2.
Qed.

(** An item whose rank is not below any rank in the queue goes to the end
    of the flattened sequence. *)
Lemma PriorityQueue_enqueue_last pq item pq' :
  PriorityQueue.ranked pq ->
  (forall y, y ∈ PriorityQueue.to_list pq ->
     (rank_of (QueueItem.priority y) <= rank_of (QueueItem.priority item))%nat) ->
  PriorityQueue.enqueue pq item = Ok pq' ->
  PriorityQueue.to_list pq' = PriorityQueue.to_list pq ++ [item].
Proof.
  intros Hwf Hle Henq.
  destruct (PriorityQueue_enqueue_spec pq item Hwf) as (q & Hq & Heq).
  rewrite Heq in Henq. injection Henq as <-.
  set (r := rank_of (QueueItem.priority item)) in *.
  assert (concat (map Queue._items (drop (S r) (PriorityQueue._queues pq))) = [])
    as Hafter.
  { destruct (concat _) as [|z l] eqn:Hz; [done|]. exfalso.
    assert (z ∈ concat (map Queue._items (drop (S r) (PriorityQueue._queues pq))))
      as Hin by (rewrite Hz; set_solver).
    apply list_elem_of_lookup in Hin as [n Hn].
    apply concat_lanes_lookup in Hn as (k & qk & Hk & Hzk).
    rewrite lookup_drop in Hk.
    pose proof (proj2 Hwf _ _ _ Hk Hzk) as Hrank.
    pose proof (Hle z (elem_of_lane_to_list _ _ _ _ Hk Hzk)). lia. }
  rewrite !PriorityQueue_to_list_concat. simpl.
  rewrite insert_take_drop by (by eapply lookup_lt_Some).
  rewrite <- (take_drop_middle _ _ _ Hq) at 3.
  rewrite !map_app, !concat_app. simpl. rewrite Hafter, !app_nil_r.
  by rewrite app_assoc.
Qed.

Lemma enumerate_from_lookup {A} k (l : list A) i x :
  l !! i = Some x -> (k + i, x)%nat ∈ enumerate_from k l.
Proof.
  revert k i. induction l as [|y l IH]; intros k [|i]; simpl; try done.
  - intros [= ->]. rewrite Nat.add_0_r. set_solver.
  - intros Hi. apply elem_of_cons. right.
    replace (k + S i)%nat with (S k + i)%nat by lia. by apply IH.
Qed.

Lemma PriorityQueue_wf_ranked pq :
  PriorityQueue.wf pq = true -> PriorityQueue.ranked pq.
Proof.
  unfold PriorityQueue.wf, PriorityQueue.ranked.
  intros [Hlen Hall]%andb_prop. split; [by apply Nat.eqb_eq|].
  intros i q x Hi Hx.
  apply (enumerate_from_lookup 0) in Hi.
  rewrite forallb_forall in Hall. apply list_elem_of_In, Hall in Hi.
  simpl in Hi. rewrite forallb_forall in Hi.
  apply list_elem_of_In, Hi in Hx. by apply Nat.eqb_eq in Hx.
Qed.

(** C9. Dequeue and peek on an empty layered queue raise nothing: both
    return the no-item result [None], and the queue is left as it was,
    so it is still empty; the same holds of each of its (empty) lanes. *)
Theorem dequeue_peek_empty_no_item (pq : PriorityQueue.t) :
  PriorityQueue.is_empty pq = true ->
  PriorityQueue.dequeue pq = Ok (None, pq) /\
  PriorityQueue.peek pq = Ok None /\
  Forall (fun q => Queue.dequeue q = Ok (None, q) /\ Queue.peek q = Ok None)
    (PriorityQueue._queues pq).
Proof.
  unfold PriorityQueue.is_empty, PriorityQueue.dequeue, PriorityQueue.peek.
  destruct pq as [qs]. simpl. intros Hempty.
  assert (Forall (fun q => Queue.is_empty q = true) qs) as Hall.
  { induction qs as [|q qs IH]; [constructor|]. simpl in Hempty.
    apply andb_prop in Hempty as [Hq Hqs]. constructor; auto. }
  clear Hempty. split; [|split].
  - induction Hall as [|q qs Hq _ IH]; simpl; [done|].
    rewrite Hq. simpl.
    destruct (PriorityQueue.dequeue_from qs) as [[x qs']|e]; simpl in *;
      [|done].
    by injection IH as -> ->.
  - induction Hall as [|q qs Hq _ IH]; simpl; [done|]. by rewrite Hq.
  - eapply Forall_impl; [done|]. intros q Hq. simpl in Hq.
    split; [by apply Queue_dequeue_empty|by apply Queue_peek_empty].
Qed.

(** C2. In a well-formed layered queue, dequeue returns without raising;
    when it returns an item, that item is the first of the first
    non-empty lane (every lane before it is empty), it is removed from
    that lane and nothing else changes, and no item in the queue has a
    lower rank; dequeue returns no item only when nothing is queued. In
    the flattened sequence an item of lower rank stands before every item
    of higher rank, and dequeuing until nothing is left yields exactly the
    flattened sequence. *)
Theorem dequeue_level_precedence (pq : PriorityQueue.t) :
  PriorityQueue.wf pq = true ->
  (exists r, PriorityQueue.dequeue pq = Ok r) /\
  (forall x pq', PriorityQueue.dequeue pq = Ok (Some x, pq') ->
     (exists i rest,
        PriorityQueue._queues pq !! i = Some (Queue.mk (x :: rest)) /\
        (forall j q, (j < i)%nat -> PriorityQueue._queues pq !! j = Some q ->
           Queue._items q = []) /\
        PriorityQueue._queues pq' = <[i := Queue.mk rest]> (PriorityQueue._queues pq)) /\
     (forall y, y ∈ PriorityQueue.to_list pq ->
        (rank_of (QueueItem.priority x) <= rank_of (QueueItem.priority y))%nat)) /\
  (forall pq', PriorityQueue.dequeue pq = Ok (None, pq') ->
     PriorityQueue.to_list pq = []) /\
  (forall n m x y,
     PriorityQueue.to_list pq !! n = Some x ->
     PriorityQueue.to_list pq !! m = Some y ->
     (rank_of (QueueItem.priority x) < rank_of (QueueItem.priority y))%nat ->
     (n < m)%nat) /\
  PriorityQueue.drain (PriorityQueue.len pq) pq = Ok (PriorityQueue.to_list pq).
Proof.
  intros Hwf%PriorityQueue_wf_ranked.
  split; [apply PriorityQueue_dequeue_returns|].
  split; [|split; [|split]].
  - intros x pq' Hd. split.
    + unfold PriorityQueue.dequeue in Hd.
      pose proof (dequeue_from_spec (PriorityQueue._queues pq)) as Hspec.
      destruct (PriorityQueue.dequeue_from _) as [[[z|] qs']|e]; simpl in Hd;
        [|done..].
      injection Hd as -> <-. destruct Hspec as (i & rest & Hi & Hlt & ->).
      by exists i, rest.
    + intros y Hy. apply PriorityQueue_dequeue_some in Hd.
      apply list_elem_of_lookup in Hy as [m Hm].
      destruct (decide (rank_of (QueueItem.priority y)
                        < rank_of (QueueItem.priority x))%nat) as [Hlt|]; [|lia].
      assert (PriorityQueue.to_list pq !! 0%nat = Some x) as H0
        by (by rewrite Hd).
      pose proof (PriorityQueue_to_list_ranked pq m 0 y x Hwf Hm H0 Hlt). lia.
  - intros pq' Hd. by apply PriorityQueue_dequeue_none in Hd as [_ ?].
  - intros n m x y. by apply PriorityQueue_to_list_ranked.
  - apply PriorityQueue_drain_to_list. by rewrite PriorityQueue_len_to_list.
Qed.

(** ** The record store *)

Lemma PatientNode_chain_ind (P : PatientNode.t -> Prop) :
  (forall i n p d t c, P (PatientNode.mk i n p d t c None)) ->
  (forall i n p d t c nxt, P nxt -> P (PatientNode.mk i n p d t c (Some nxt))) ->
  forall node, P node.
Proof.
  intros Hlast Hstep. fix IH 1. intros [i n p d t c [nxt|]].
  - apply Hstep, IH.
  - apply Hlast.
Qed.

Lemma records_link_last h node :
  map PatientNode.detach (PatientLinkedList.nodes_from (PatientLinkedList.link_last h node))
  = map PatientNode.detach (PatientLinkedList.nodes_from h)
    ++ map PatientNode.detach (PatientLinkedList.nodes_from node).
Proof.
  induction h as [i n p d t c|i n p d t c nxt IH] using PatientNode_chain_ind.
  - done.
  - simpl in *. by rewrite IH.
Qed.

Lemma records_append_node l node :
  PatientLinkedList.records (PatientLinkedList.append_node l node)
  = PatientLinkedList.records l
    ++ map PatientNode.detach (PatientLinkedList.nodes_from node).
Proof.
  unfold PatientLinkedList.records, PatientLinkedList.append_node,
    PatientLinkedList.to_list.
  destruct l as [[h|]]; simpl; [|done]. apply records_link_last.
Qed.

Lemma make_node_unlinked a node :
  PatientLinkedList.make_node a = Ok node -> PatientNode.next node = None.
Proof.
  unfold PatientLinkedList.make_node.
  destruct (dict_getitem a "id"); simpl; [|done].
  destruct (py_lower _); simpl; [|done]. intros [= <-]. reflexivity.
Qed.

Lemma detach_unlinked node :
  PatientNode.next node = None -> PatientNode.detach node = node.
Proof. destruct node; simpl. by intros ->. Qed.

Lemma nodes_from_unlinked node :
  PatientNode.next node = None -> PatientLinkedList.nodes_from node = [node].
Proof. destruct node; simpl. by intros ->. Qed.

(** Ingesting a snapshot makes one node per row and links them in the
    order given. *)
Lemma ingest_nodes appointments l :
  for_each PatientLinkedList.insert_from_appointment_dict appointments l
  = (nodes ← mapM PatientLinkedList.make_node appointments;
     Ok (foldl PatientLinkedList.append_node l nodes)).
Proof.
  unfold PatientLinkedList.insert_from_appointment_dict.
  revert l. induction appointments as [|a s IH]; intros l; simpl; [done|].
  destruct (PatientLinkedList.make_node a) as [node|e]; simpl; [|done].
  rewrite IH. by destruct (mapM _ s).
Qed.

Lemma records_foldl_append l nodes :
  Forall (fun node => PatientNode.next node = None) nodes ->
  PatientLinkedList.records (foldl PatientLinkedList.append_node l nodes)
  = PatientLinkedList.records l ++ nodes.
Proof.
  intros Hall. revert l.
  induction Hall as [|node nodes Hnode _ IH]; intros l; simpl.
  - by rewrite app_nil_r.
  - rewrite IH, records_append_node, nodes_from_unlinked by done. simpl.
    by rewrite detach_unlinked, <- app_assoc.
Qed.

Lemma mapM_make_node_unlinked appointments nodes :
  mapM PatientLinkedList.make_node appointments = Ok nodes ->
  Forall (fun node => PatientNode.next node = None) nodes.
Proof.
  rewrite mapM_Ok_Forall2. induction 1; constructor; eauto using make_node_unlinked.
Qed.

(** The removal loop unlinks the first node that matches, if any. *)
Lemma unlink_spec h id :
  match list_find (fun n => py_eq (PatientNode.appointment_id n) id = true)
          (map PatientNode.detach (PatientLinkedList.nodes_from h)) with
  | Some (i, _) =>
      exists h', PatientLinkedList.unlink h id = Some h' /\
        PatientLinkedList.records (PatientLinkedList.mk h')
        = delete i (map PatientNode.detach (PatientLinkedList.nodes_from h))
  | None => PatientLinkedList.unlink h id = None
  end.
Proof.
  induction h as [i n p d t c|i n p d t c nxt IH] using PatientNode_chain_ind;
    simpl; destruct (py_eq i id) eqn:Heq; simpl.
  - by exists None.
  - done.
  - by exists (Some nxt).
  - destruct (list_find _ _) as [[k x]|]; simpl.
    + destruct IH as (h' & -> & Hrec). eexists. split; [done|].
      unfold PatientLinkedList.records, PatientLinkedList.to_list in *.
      simpl in *. by rewrite Hrec.
    + by rewrite IH.
Qed.

(** C8. [remove_by_id] removes the first record whose identifier equals
    the given one and returns [True], leaving the other records as they
    were and in their order; when no record matches it returns [False]
    and leaves the store unchanged. ([list_find] gives the first index at
    which the test holds.) *)
Theorem remove_by_id_first_match (l : PatientLinkedList.t) (id : pyval) :
  match list_find (fun n => py_eq (PatientNode.appointment_id n) id = true)
          (PatientLinkedList.records l) with
  | Some (i, _) =>
      exists l', PatientLinkedList.remove_by_id l id = (l', true) /\
        PatientLinkedList.records l' = delete i (PatientLinkedList.records l)
  | None => PatientLinkedList.remove_by_id l id = (l, false)
  end.
Proof.
  unfold PatientLinkedList.remove_by_id.
  destruct l as [[h|]]; [|done].
  unfold PatientLinkedList.records at 1 3. simpl.
  pose proof (unlink_spec h id) as Hspec.
  destruct (list_find _ _) as [[i x]|].
  - destruct Hspec as (h' & -> & Hrec). by eexists.
  - by rewrite Hspec.
Qed.

(** ** Stability of the sort *)

Lemma enumerate_from_snd {A} k (l : list A) : map snd (enumerate_from k l) = l.
Proof. revert k. induction l as [|x l IH]; intros k; simpl; [done|]. by rewrite IH. Qed.

Lemma enumerate_from_fst {A} k (l : list A) :
  map fst (enumerate_from k l) = seq k (length l).
Proof. revert k. induction l as [|x l IH]; intros k; simpl; [done|]. by rewrite IH. Qed.

Lemma enumerate_from_elem {A} k (l : list A) i x :
  (i, x) ∈ enumerate_from k l -> (k <= i)%nat /\ l !! (i - k)%nat = Some x.
Proof.
  revert k. induction l as [|y l IH]; intros k; simpl.
  - by intros ?%elem_of_nil.
  - intros [[= -> ->]|Hin]%elem_of_cons.
    + by rewrite Nat.sub_diag.
    + apply IH in Hin as [Hle Hl]. split; [lia|].
      by replace (i - k)%nat with (S (i - S k)) by lia.
Qed.

Lemma enumerate_from_sorted {A} k (l : list A) :
  StronglySorted (fun p q => (p.1 < q.1)%nat) (enumerate_from k l).
Proof.
  revert k. induction l as [|y l IH]; intros k; simpl; constructor; [done|].
  apply Forall_forall. intros [i x] Hin.
  apply enumerate_from_elem in Hin as [? _]. simpl. lia.
Qed.

(** What a stable sort is: the output lists the input elements, each
    once, so that an element never stands before a smaller one and
    elements that compare equal keep their input order. [D] pairs each
    output element with its input position. *)
Lemma list_sort_stable {A K} (key : A -> K) (lt : K -> K -> result bool)
    (l out : list A) :
  (forall a b, lt a b = Ok true -> lt b a = Ok false) ->
  list_sort key lt l = Ok out ->
  exists D : list (nat * A),
    out = map snd D /\
    map fst D ≡ₚ seq 0 (length l) /\
    (forall i x, (i, x) ∈ D -> l !! i = Some x) /\
    Sorted (fun p q =>
              lt (key q.2) (key p.2) = Ok false /\
              (lt (key p.2) (key q.2) = Ok false -> (p.1 < q.1)%nat)) D.
Proof.
  intros Hasym. rewrite <- (enumerate_from_snd 0 l) at 1.
  rewrite list_sort_map. intros (D & HD & ->)%fmap_Ok.
  exists D. split; [done|].
  pose proof (list_sort_perm _ _ _ _ HD) as Hperm.
  split; [|split].
  - rewrite <- enumerate_from_fst. by apply Permutation_map.
  - intros i x Hin. rewrite Hperm in Hin.
    apply enumerate_from_elem in Hin as [_ Hl]. by rewrite Nat.sub_0_r in Hl.
  - eapply (list_sort_Sorted (key ∘ snd) lt fst); [done| |done].
    apply enumerate_from_sorted.
Qed.

Lemma list_sort_ext {A K} (key key' : A -> K) (lt : K -> K -> result bool) l :
  (forall x, key x = key' x) -> list_sort key lt l = list_sort key' lt l.
Proof.
  intros Hext. unfold list_sort. generalize (@nil A).
  induction l as [|x l IH]; intros acc; simpl; [done|].
  assert (insort key lt x acc = insort key' lt x acc) as ->.
  { induction acc as [|y acc IHacc]; simpl; [done|].
    by rewrite !Hext, IHacc. }
  destruct (insort key' lt x acc); simpl; [apply IH|done].
Qed.

Lemma StronglySorted_weaken {A} (R R' : A -> A -> Prop) l :
  (forall x y, R x y -> R' x y) -> StronglySorted R l -> StronglySorted R' l.
Proof.
  intros HR. induction 1 as [|x l _ IH Hx]; constructor; [done|].
  eapply Forall_impl; [done|]. auto.
Qed.

(** The output of the sort ascends by key. *)
Lemma list_sort_key_ordered (l out : list enriched) :
  list_sort sort_key key_lt l = Ok out ->
  StronglySorted (fun x y => key_ordered (sort_key x) (sort_key y)) out.
Proof.
  intros (D & -> & _ & _ & Hs)%list_sort_stable; [|apply key_lt_asym].
  apply Sorted_StronglySorted.
  { intros x y z. apply key_ordered_trans. }
  change (map snd D) with (snd <$> D).
  eapply Sorted_fmap; [|exact Hs]. intros p q [Hpq _]. simpl.
  by apply key_lt_false_ordered.
Qed.

(** ** The scheduling pass *)

Lemma mapM_map_fmap {A A' B B'} (f : A -> result B) (f' : A' -> result B')
    (g : A' -> A) (h : B' -> B) l :
  (forall x, f (g x) = h <$> f' x) ->
  mapM f (map g l) = map h <$> mapM f' l.
Proof.
  intros Hfg. induction l as [|x l IH]; simpl; [done|].
  rewrite Hfg, IH. destruct (f' x); simpl; [|done]. by destruct (mapM f' l).
Qed.

Lemma mapM_fmap_result {A B C} (f : A -> result B) (g : B -> C) l :
  mapM (fun x => g <$> f x) l = map g <$> mapM f l.
Proof.
  induction l as [|x l IH]; simpl; [done|].
  rewrite IH. destruct (f x); simpl; [|done]. by destruct (mapM f l).
Qed.

Lemma mapM_ext_result {A B} (f g : A -> result B) l :
  (forall x, f x = g x) -> mapM f l = mapM g l.
Proof. intros Hfg. induction l as [|x l IH]; simpl; [done|]. by rewrite Hfg, IH. Qed.

Lemma mapM_map_result {A A' B} (f : A -> result B) (g : A' -> A) l :
  mapM f (map g l) = mapM (f ∘ g) l.
Proof. induction l as [|x l IH]; simpl; [done|]. by rewrite IH. Qed.

Lemma enrich_detach node :
  enrich (PatientNode.detach node) = detach_entry <$> enrich node.
Proof.
  destruct node as [i n p d t c nx]. unfold enrich. simpl.
  destruct (_parse_created_at c) as [created|e]; simpl; [|done].
  destruct (_parse_appointment_datetime d t created) as [due|e]; simpl; [|done].
  by destruct (priority_rank _).
Qed.

Lemma item_of_detach node : item_of (PatientNode.detach node) = item_of node.
Proof. by destruct node. Qed.

Lemma sort_key_detach_entry x : sort_key (detach_entry x) = sort_key x.
Proof. by destruct x as [[[r d] c] n]. Qed.

(** The rank used as sort key is the rank of the lane the item goes to. *)
Lemma rank_of_normalized p :
  let q := strip (lower (str_or p "normal")) in
  rank_of (if bool_decide (q ∈ PRIORITY_ORDER) then q else "normal") = rank_of q.
Proof.
  intros q. assert (strip (lower q) = q) as Hidem by apply normalize_idem.
  clearbody q. case_bool_decide as Hq; [done|].
  rewrite !rank_of_label.
  destruct (decide (q = "")) as [->|Hne]; [done|].
  assert (str_or q "normal" = q) as -> by (by destruct q).
  rewrite Hidem. change (strip (lower (str_or "normal" "normal"))) with "normal".
  unfold label_rank, PRIORITY_ORDER in *.
  repeat case_decide; subst; try done; exfalso; apply Hq; set_solver.
Qed.

Lemma enrich_inv node e :
  enrich node = Ok e ->
  exists due created,
    e = (rank_of (strip (lower (str_or (PatientNode.priority node) "normal"))),
         due, created, node) /\
    _parse_created_at (PatientNode.created_at node) = Ok created /\
    _parse_appointment_datetime (PatientNode.appointment_date node)
      (PatientNode.appointment_time node) created = Ok due.
Proof.
  unfold enrich.
  destruct (_parse_created_at _) as [created|?]; simpl; [|done].
  destruct (_parse_appointment_datetime _ _ _) as [due|?] eqn:Hdue; simpl;
    [|done].
  rewrite priority_rank_str, <- rank_of_label, rank_of_normalized. simpl.
  intros [= <-]. by exists due, created.
Qed.

Lemma enrich_item_of node e :
  enrich node = Ok e ->
  e.2 = node /\
  exists item, item_of node = Ok item /\
    rank_of (QueueItem.priority item) = e.1.1.1.
Proof.
  intros (due & created & -> & Hc & _)%enrich_inv. split; [done|].
  unfold item_of. rewrite Hc. simpl. eexists. split; [done|]. done.
Qed.

(** Loading entries that ascend by rank keeps them in their order. *)
Lemma load_sorted (entries : list enriched) pq :
  PriorityQueue.ranked pq ->
  Forall (fun e => enrich e.2 = Ok e) entries ->
  StronglySorted (fun x y : enriched => (x.1.1.1 <= y.1.1.1)%nat) entries ->
  (forall y e, y ∈ PriorityQueue.to_list pq -> e ∈ entries ->
     (rank_of (QueueItem.priority y) <= e.1.1.1)%nat) ->
  exists pq' items,
    for_each load entries pq = Ok pq' /\
    mapM (fun e : enriched => item_of e.2) entries = Ok items /\
    PriorityQueue.to_list pq' = PriorityQueue.to_list pq ++ items.
Proof.
  intros Hwf Hall. revert pq Hwf.
  induction Hall as [|e entries He _ IH]; intros pq Hwf Hs Hle; simpl.
  - exists pq, []. by rewrite app_nil_r.
  - apply StronglySorted_inv in Hs as [Hs Hhd]. rewrite Forall_forall in Hhd.
    destruct (enrich_item_of _ _ He) as (_ & item & Hitem & Hrank).
    destruct e as [[[r d] c] node]. simpl in *. rewrite Hitem. simpl.
    destruct (PriorityQueue_enqueue_spec pq item Hwf) as (q & Hq & Henq).
    rewrite Henq. simpl.
    assert (PriorityQueue.to_list
              (PriorityQueue.mk
                 (<[rank_of (QueueItem.priority item) := Queue.enqueue q item]>
                    (PriorityQueue._queues pq)))
            = PriorityQueue.to_list pq ++ [item]) as Hlist.
    { apply (PriorityQueue_enqueue_last pq item); [done| |done].
      intros y Hy. rewrite Hrank. apply (Hle y (r, d, c, node)); set_solver. }
    destruct (IH _ (PriorityQueue_enqueue_ranked _ _ _ Hwf Henq) Hs)
      as (pq' & items & Hload & Hitems & Hout).
    { intros y e' Hy He'. rewrite Hlist in Hy.
      apply elem_of_app in Hy as [Hy|Hy].
      - apply Hle; set_solver.
      - apply list_elem_of_singleton in Hy as ->. rewrite Hrank.
        by apply (Hhd e'). }
    exists pq', (item :: items). rewrite Hload, Hitems. simpl.
    split; [done|]. split; [done|]. by rewrite Hout, Hlist, <- app_assoc.
Qed.

(** The linked list and the layered queue change nothing in the order:
    the pass is the sort between two maps. *)
Lemma get_optimized_queue_list_unfold (snapshot : list pydict) :
  get_optimized_queue_list snapshot = single_stable_sort snapshot.
Proof.
  unfold get_optimized_queue_list, single_stable_sort.
  rewrite ingest_nodes.
  destruct (mapM PatientLinkedList.make_node snapshot) as [nodes|e] eqn:Hnodes;
    simpl; [|done].
  assert (map PatientNode.detach
            (PatientLinkedList.to_list
               (foldl PatientLinkedList.append_node PatientLinkedList.new nodes))
          = nodes) as Hrec.
  { apply (records_foldl_append PatientLinkedList.new).
    by eapply mapM_make_node_unlinked. }
  set (linked := PatientLinkedList.to_list _) in *. clearbody linked.
  rewrite for_each_append, <- Hrec.
  rewrite (mapM_map_fmap enrich enrich _ detach_entry) by apply enrich_detach.
  destruct (mapM enrich linked) as [keyed|e] eqn:Hkeyed; simpl; [|done].
  rewrite list_sort_map.
  rewrite (list_sort_ext (sort_key ∘ detach_entry) sort_key)
    by apply sort_key_detach_entry.
  destruct (list_sort sort_key key_lt keyed) as [sorted|e] eqn:Hsorted; simpl;
    [|done].
  rewrite mapM_map_result.
  rewrite (mapM_ext_result _ (fun e : enriched => QueueItem.to_dict <$> item_of e.2)).
  2: { intros [[[r d] c] node]. simpl. by rewrite item_of_detach. }
  destruct (load_sorted sorted PriorityQueue.new PriorityQueue_new_ranked)
    as (pq & items & -> & Hitems & Hout).
  - apply Forall_forall. intros x Hx.
    rewrite (list_sort_perm _ _ _ _ Hsorted) in Hx.
    apply mapM_Ok_Forall2 in Hkeyed.
    apply list_elem_of_lookup in Hx as [i Hi].
    destruct (Forall2_lookup_r _ _ _ _ _ Hkeyed Hi) as (node & _ & He).
    by destruct (enrich_item_of _ _ He) as [-> _].
  - eapply StronglySorted_weaken; [|by apply (list_sort_key_ordered keyed)].
    intros [[[r1 d1] c1] n1] [[[r2 d2] c2] n2] Hxy.
    by apply key_ordered_rank in Hxy.
  - intros y e' Hy. by apply elem_of_nil in Hy.
  - simpl. rewrite mapM_fmap_result, Hitems. simpl. by rewrite Hout.
Qed.


(** ** The serving order *)

Lemma Sorted_map_elem {A B} (f : A -> B) (R : A -> A -> Prop)
    (R' : B -> B -> Prop) l :
  (forall x y, x ∈ l -> y ∈ l -> R x y -> R' (f x) (f y)) ->
  Sorted R l -> Sorted R' (map f l).
Proof.
  intros HR Hs. induction Hs as [|x l Hs IH Hhd]; simpl; constructor.
  - apply IH. intros a b Ha Hb. apply HR; set_solver.
  - destruct Hhd as [|y l' Hxy]; simpl; constructor.
    apply HR; [set_solver..|done].
Qed.

Lemma mapM_returns {A B} (f : A -> result B) l :
  Forall (fun x => exists y, f x = Ok y) l -> exists k, mapM f l = Ok k.
Proof.
  induction 1 as [|x l [y Hy] _ [k IH]]; simpl; [eauto|].
  rewrite Hy, IH. simpl. eauto.
Qed.

(** The steps of a pass that returns. *)
Lemma single_stable_sort_Ok snapshot out :
  single_stable_sort snapshot = Ok out ->
  exists nodes keyed sorted,
    Forall2 (fun a node => PatientLinkedList.make_node a = Ok node) snapshot nodes /\
    Forall2 (fun node e => enrich node = Ok e) nodes keyed /\
    list_sort sort_key key_lt keyed = Ok sorted /\
    Forall2 (fun (e : enriched) o => QueueItem.to_dict <$> item_of e.2 = Ok o)
      sorted out.
Proof.
  unfold single_stable_sort.
  intros (nodes & Hnodes & (keyed & Hkeyed & (sorted & Hsorted & Hout)%bind_Ok)%bind_Ok)%bind_Ok.
  exists nodes, keyed, sorted. by rewrite <- !mapM_Ok_Forall2.
Qed.

(** The row, node and entry at an index. *)
Lemma entry_at snapshot nodes keyed i (e : enriched) :
  Forall2 (fun a node => PatientLinkedList.make_node a = Ok node) snapshot nodes ->
  Forall2 (fun node e => enrich node = Ok e) nodes keyed ->
  keyed !! i = Some e ->
  exists a, snapshot !! i = Some a /\
    PatientLinkedList.make_node a = Ok e.2 /\ enrich e.2 = Ok e.
Proof.
  intros Hnodes Hkeyed Hi.
  destruct (Forall2_lookup_r _ _ _ _ _ Hkeyed Hi) as (node & Hnode & He).
  destruct (Forall2_lookup_r _ _ _ _ _ Hnodes Hnode) as (a & Ha & Hmk).
  destruct (enrich_item_of _ _ He) as [-> _]. eauto.
Qed.

Lemma record_key_entry a (e : enriched) :
  PatientLinkedList.make_node a = Ok e.2 -> enrich e.2 = Ok e ->
  record_key a = Ok (sort_key e).
Proof. unfold record_key. intros -> He. simpl. by rewrite He. Qed.

Lemma output_record_entry a (e : enriched) o :
  PatientLinkedList.make_node a = Ok e.2 ->
  QueueItem.to_dict <$> item_of e.2 = Ok o ->
  output_record a = Ok o.
Proof.
  unfold output_record. intros -> (item & Hitem & ->)%fmap_Ok.
  simpl. by rewrite Hitem.
Qed.

(** A pass that returns serves the rows in a stable ascending order. *)
Lemma served_in_order snapshot out :
  get_optimized_queue_list snapshot = Ok out ->
  exists order : list nat,
    order ≡ₚ seq 0 (length snapshot) /\
    Forall2 (fun i o => exists a, snapshot !! i = Some a /\ output_record a = Ok o)
      order out /\
    Sorted (serves_before snapshot) order.
Proof.
  rewrite get_optimized_queue_list_unfold.
  intros (nodes & keyed & sorted & Hnodes & Hkeyed & Hsorted & Hout)%single_stable_sort_Ok.
  apply list_sort_stable in Hsorted as (D & -> & Hperm & HD & Hs);
    [|apply key_lt_asym].
  assert (forall p, p ∈ D -> exists a, snapshot !! p.1 = Some a /\
            PatientLinkedList.make_node a = Ok p.2.2 /\ enrich p.2.2 = Ok p.2)
    as Hrow.
  { intros [i e] Hp. simpl. eapply entry_at; eauto. }
  exists (map fst D). split; [|split].
  - rewrite Hperm. by rewrite <- (Forall2_length _ _ _ Hkeyed),
      <- (Forall2_length _ _ _ Hnodes).
  - clear Hs Hperm HD. revert out Hout Hrow.
    induction D as [|p D IH]; intros out Hout Hrow; simpl in *.
    + inversion Hout. constructor.
    + inversion Hout as [|? o ? out' Ho Hout']; subst. constructor.
      * destruct (Hrow p) as (a & Ha & Hmk & _); [set_solver|].
        exists a. split; [done|]. by eapply output_record_entry.
      * apply IH; [done|]. intros q Hq. apply Hrow. set_solver.
  - eapply Sorted_map_elem; [|exact Hs].
    intros p q Hp Hq [Hqp Hstable].
    destruct (Hrow p Hp) as (a & Ha & Hmka & Hea).
    destruct (Hrow q Hq) as (b & Hb & Hmkb & Heb).
    exists a, b, (sort_key p.2), (sort_key q.2).
    split; [done|]. split; [done|].
    split; [by apply record_key_entry|]. split; [by apply record_key_entry|].
    split; [by apply key_lt_false_ordered|].
    intros Heq. by apply Hstable, key_equal_lt_false.
Qed.

Lemma mapM_record_key_Ok snapshot keys :
  mapM record_key snapshot = Ok keys ->
  exists nodes keyed,
    mapM PatientLinkedList.make_node snapshot = Ok nodes /\
    mapM enrich nodes = Ok keyed /\ keys = map sort_key keyed.
Proof.
  revert keys. induction snapshot as [|a s IH]; intros keys; simpl.
  - intros [= <-]. by exists [], [].
  - intros (k & Hk & (ks & Hks & [= <-])%bind_Ok)%bind_Ok.
    destruct (IH _ Hks) as (nodes & keyed & Hnodes & Hkeyed & ->).
    unfold record_key in Hk.
    apply bind_Ok in Hk as (node & Hnode & (e & He & [= <-])%bind_Ok).
    exists (node :: nodes), (e :: keyed).
    rewrite Hnode, Hnodes. simpl. rewrite He, Hkeyed. done.
Qed.

(** The pass returns when the keys of the rows can be computed and
    compared with each other. *)
Lemma returns_when_comparable snapshot keys :
  mapM record_key snapshot = Ok keys ->
  (forall k1 k2, k1 ∈ keys -> k2 ∈ keys -> exists b, key_lt k1 k2 = Ok b) ->
  exists out, get_optimized_queue_list snapshot = Ok out.
Proof.
  intros (nodes & keyed & Hnodes & Hkeyed & ->)%mapM_record_key_Ok Hcmp.
  rewrite get_optimized_queue_list_unfold. unfold single_stable_sort.
  rewrite Hnodes. simpl. rewrite Hkeyed. simpl.
  destruct (list_sort_returns sort_key key_lt keyed) as [sorted Hsorted].
  { intros x y Hx Hy.
    apply Hcmp; apply list_elem_of_In, in_map; by apply list_elem_of_In. }
  rewrite Hsorted. simpl.
  apply mapM_returns, Forall_forall. intros e He.
  rewrite (list_sort_perm _ _ _ _ Hsorted) in He.
  apply list_elem_of_lookup in He as [i Hi].
  apply mapM_Ok_Forall2 in Hkeyed.
  destruct (Forall2_lookup_r _ _ _ _ _ Hkeyed Hi) as (node & _ & He).
  destruct (enrich_item_of _ _ He) as (-> & item & -> & _). simpl. eauto.
Qed.

(** C1. When the pass returns, its output lists the rows of the snapshot,
    each once, so that of two neighbours [x] before [y]: the rank of [x]
    is at most that of [y]; with equal ranks the due time of [x] is at
    most that of [y]; with equal due times too the creation time of [x]
    is at most that of [y]; and with the whole key equal [x] stood before
    [y] in the snapshot. The pass does return whenever the keys of the
    rows can be computed and compared with each other. *)
Theorem serving_order_sorted_stable (snapshot : list pydict) :
  (forall out,
     get_optimized_queue_list snapshot = Ok out ->
     exists order : list nat,
       order ≡ₚ seq 0 (length snapshot) /\
       Forall2 (fun i o =>
                  exists a, snapshot !! i = Some a /\ output_record a = Ok o)
         order out /\
       Sorted (serves_before snapshot) order) /\
  (forall keys,
     mapM record_key snapshot = Ok keys ->
     comparable keys = true ->
     exists out, get_optimized_queue_list snapshot = Ok out).
Proof.
  split; [apply served_in_order|].
  intros keys Hkeys Hcmp. apply (returns_when_comparable _ keys Hkeys).
  intros k1 k2 H1%list_elem_of_In H2%list_elem_of_In.
  unfold comparable in Hcmp. rewrite forallb_forall in Hcmp.
  specialize (Hcmp k1 H1). rewrite forallb_forall in Hcmp.
  specialize (Hcmp k2 H2). destruct (key_lt k1 k2); [eauto|done].
Qed.

(** ** Fallbacks of the parsers *)

Lemma parse_created_at_total value :
  _parse_created_at value = Ok (created_of value).
Proof.
  destruct value as [| |s|d]; simpl; try done.
  destruct s as [|c s]; simpl; [done|].
  unfold datetime_fromisoformat. by destruct (fromisoformat _).
Qed.

Lemma py_strip_or_empty v :
  is_text v = true -> py_strip (py_or v (PyStr "")) = Ok (strip (text_of v)).
Proof. by destruct v as [| |[|c s]|]. Qed.

Lemma parse_appointment_datetime_total date time fallback :
  is_text date = true -> is_text time = true ->
  _parse_appointment_datetime date time fallback
  = Ok (due_of date time fallback).
Proof.
  intros Hd Ht. unfold _parse_appointment_datetime, due_of.
  rewrite !py_strip_or_empty by done. simpl.
  destruct (strip (text_of date)) as [|c1 s1],
    (strip (text_of time)) as [|c2 s2];
    simpl; try case_decide; try done; try (exfalso; naive_solver).
  all: unfold datetime_fromisoformat; by destruct (fromisoformat _).
Qed.

Lemma is_text_or_empty v :
  is_text v = true ->
  is_text (py_or v (PyStr "")) = true /\ text_of (py_or v (PyStr "")) = text_of v.
Proof. by destruct v as [| |[|c s]|]. Qed.


Lemma make_node_well_typed a :
  well_typed a = true ->
  exists node,
    PatientLinkedList.make_node a = Ok node /\
    PatientNode.appointment_date node = py_or (dict_get a "appointment_date") (PyStr "") /\
    PatientNode.appointment_time node = py_or (dict_get a "appointment_time") (PyStr "") /\
    PatientNode.created_at node = dict_get a "created_at".
Proof.
  unfold well_typed, PatientLinkedList.make_node, dict_getitem.
  intros [[[Hid Hp]%andb_prop _]%andb_prop _]%andb_prop.
  destruct (a !! "id") as [[]|]; try done. simpl.
  destruct (dict_get a "priority") as [| |[|c s]|]; try done; simpl; eauto.
Qed.


(** ** Rows that are already in order *)

Lemma mapM_output_record nodes keyed (snapshot : list pydict) :
  Forall2 (fun a node => PatientLinkedList.make_node a = Ok node) snapshot nodes ->
  Forall2 (fun node e => enrich node = Ok e) nodes keyed ->
  exists out,
    mapM (fun e : enriched => QueueItem.to_dict <$> item_of e.2) keyed = Ok out /\
    Forall2 (fun a o => output_record a = Ok o) snapshot out.
Proof.
  intros Hnodes. revert keyed.
  induction Hnodes as [|a node s nodes Ha _ IH]; intros keyed Hkeyed.
  - inversion Hkeyed. exists []. by split; [|constructor].
  - inversion Hkeyed as [|? e ? keyed' He Hkeyed']; subst.
    destruct (IH _ Hkeyed') as (out & Hout & Hall).
    destruct (enrich_item_of _ _ He) as (Hnode & item & Hitem & _).
    exists (QueueItem.to_dict item :: out). simpl.
    rewrite Hnode, Hitem, Hout. simpl. split; [done|]. constructor; [|done].
    unfold output_record. rewrite Ha. simpl. by rewrite Hitem.
Qed.

(** C6, as the code has it. When the keys of the rows already ascend,
    the pass returns the output dicts of the rows in the order given. *)
Theorem presorted_order_kept (snapshot : list pydict)
    (keys : list (nat * datetime * datetime)) :
  mapM record_key snapshot = Ok keys ->
  Sorted key_ordered keys ->
  exists out,
    get_optimized_queue_list snapshot = Ok out /\
    Forall2 (fun a o => output_record a = Ok o) snapshot out.
Proof.
  intros (nodes & keyed & Hnodes & Hkeyed & ->)%mapM_record_key_Ok Hsorted.
  rewrite get_optimized_queue_list_unfold. unfold single_stable_sort.
  rewrite Hnodes. simpl. rewrite Hkeyed. simpl.
  rewrite list_sort_sorted.
  - simpl. apply mapM_Ok_Forall2 in Hnodes, Hkeyed.
    by apply (mapM_output_record nodes).
  - apply Sorted_StronglySorted in Hsorted.
    2: { intros x y z. apply key_ordered_trans. }
    clear Hkeyed. induction keyed as [|e keyed IH]; [constructor|].
    simpl in Hsorted. apply StronglySorted_inv in Hsorted as [Hs Hhd].
    constructor; [by apply IH|].
    rewrite Forall_forall in Hhd. apply Forall_forall. intros e' He'.
    apply key_ordered_lt_false, Hhd.
    apply list_elem_of_In, in_map. by apply list_elem_of_In.
Qed.

(** ** The fields of the output *)

Lemma to_dict_priority item :
  QueueItem.to_dict item !! "priority" = Some (PyStr (QueueItem.priority item)).
Proof. unfold QueueItem.to_dict. by simplify_map_eq. Qed.

Lemma to_dict_created_at item :
  QueueItem.to_dict item !! "created_at"
  = Some (PyStr (isoformat (QueueItem.created_at item))).
Proof. unfold QueueItem.to_dict. by simplify_map_eq. Qed.

Lemma to_dict_appointment_id item :
  QueueItem.to_dict item !! "appointment_id" = Some (QueueItem.appointment_id item).
Proof. unfold QueueItem.to_dict. by simplify_map_eq. Qed.

Lemma output_record_inv a o :
  output_record a = Ok o ->
  exists node,
    PatientLinkedList.make_node a = Ok node /\
    o = QueueItem.to_dict
          (build_queue_item (PatientNode.appointment_id node)
             (PatientNode.name node) (PatientNode.priority node)
             (PatientNode.appointment_date node)
             (PatientNode.appointment_time node)
             (created_of (PatientNode.created_at node))).
Proof.
  unfold output_record, item_of.
  intros (node & Hnode & Hitem)%bind_Ok. exists node. split; [done|].
  rewrite parse_created_at_total in Hitem. simpl in Hitem. by injection Hitem.
Qed.

Lemma make_node_fields a node :
  PatientLinkedList.make_node a = Ok node ->
  a !! "id" = Some (PatientNode.appointment_id node) /\
  PatientNode.created_at node = dict_get a "created_at" /\
  strip (lower (str_or (PatientNode.priority node) "normal"))
  = str_or (strip (lower (text_of (dict_get a "priority")))) "normal".
Proof.
  unfold PatientLinkedList.make_node, dict_getitem.
  destruct (a !! "id") as [i|]; simpl; [|done].
  destruct (dict_get a "priority") as [|z|label|d]; try done.
  - by intros [= <-].
  - unfold py_or. simpl.
    destruct (Z.eqb_spec z 0) as [->|]; simpl; [|done]. by intros [= <-].
  - destruct (decide (label = "")) as [->|Hne]; [by intros [= <-]|].
    assert (py_or (PyStr label) (PyStr "normal") = PyStr label) as ->
      by (by destruct label).
    intros [= <-]. split; [done|]. split; [done|].
    cbn [PatientNode.priority text_of].
    destruct (strip (lower label)) as [|c q] eqn:Hq; [done|].
    cbn [str_or]. rewrite <- Hq. apply normalize_idem.
Qed.

(** C10, as the code has it. When the pass returns, its output holds
    one dict for every row of the snapshot and nothing else: the dicts
    are those of the rows in some rearrangement. The dict of a row
    carries the id of the row as its appointment_id; its priority field
    is the lower-cased, trimmed label of the row when that is not empty
    (an unrecognized label is kept), and "normal" when the label is
    missing, empty or blank; its created_at field is the ISO string of
    the parsed creation time of the row, which is that of the minimum
    timestamp when the creation time is missing or does not parse. *)
Theorem output_fields_normalized (snapshot out : list pydict) :
  get_optimized_queue_list snapshot = Ok out ->
  exists order : list nat,
    order ≡ₚ seq 0 (length snapshot) /\
    Forall2
      (fun i o =>
         exists a, snapshot !! i = Some a /\
           o !! "appointment_id" = a !! "id" /\
           o !! "priority"
           = Some (PyStr (str_or (strip (lower (text_of (dict_get a "priority"))))
                            "normal")) /\
           o !! "created_at"
           = Some (PyStr (isoformat (created_of (dict_get a "created_at")))) /\
           (created_of (dict_get a "created_at") = datetime_min ->
            o !! "created_at" = Some (PyStr "0001-01-01T00:00:00")))
      order out.
Proof.
  intros (order & Hperm & Hout & _)%served_in_order.
  exists order. split; [done|].
  eapply Forall2_impl; [exact Hout|].
  intros i o (a & Hi & Ha). exists a. split; [done|].
  apply output_record_inv in Ha as (node & Hnode & ->).
  destruct (make_node_fields _ _ Hnode) as (Hid & Hc & Hp).
  rewrite to_dict_appointment_id, to_dict_priority, to_dict_created_at. simpl.
  rewrite Hp, Hc, Hid. split; [done|]. split; [done|]. split; [done|].
  by intros ->.
Qed.

(** ** No row is lost or served twice *)

Lemma map_lookup_seq {A B} (g : option A -> B) (l : list A) k :
  map (fun i => g (l !! (i - k)%nat)) (seq k (length l)) = map (g ∘ Some) l.
Proof.
  revert k. induction l as [|x l IH]; intros k; simpl; [done|].
  rewrite Nat.sub_diag. simpl. f_equal.
  rewrite <- (IH (S k)). apply map_ext_in. intros i Hi%in_seq.
  by replace (i - k)%nat with (S (i - S k)) by lia.
Qed.

(** When the pass returns, the output has the length of the snapshot
    and its appointment_id fields are the ids of the rows, each as often
    as it occurs in the snapshot. *)
Lemma no_data_loss_when_returned snapshot out :
  get_optimized_queue_list snapshot = Ok out ->
  length out = length snapshot /\
  map (fun o => o !! "appointment_id") out
  ≡ₚ map (fun a => a !! "id") snapshot.
Proof.
  intros (order & Hperm & Hout & _)%served_in_order. split.
  - by rewrite <- (Forall2_length _ _ _ Hout), Hperm, length_seq.
  - assert (map (fun o : pydict => o !! "appointment_id") out
            = map (fun i => snapshot !! i ≫= (.!! "id")) order) as ->.
    { clear Hperm. induction Hout as [|i o order out (a & Hi & Ha) _ IH];
        [done|].
      cbn [map]. rewrite IH, Hi. f_equal.
      apply output_record_inv in Ha as (node & Hnode & ->).
      destruct (make_node_fields _ _ Hnode) as (Hid & _).
      rewrite to_dict_appointment_id. simpl. by rewrite Hid. }
    assert (map (fun i => snapshot !! i ≫= (.!! "id")) (seq 0 (length snapshot))
            = map (fun a : pydict => a !! "id") snapshot) as <-.
    { rewrite (map_ext _ (fun i => (fun x : option pydict => x ≫= (.!! "id"))
                                     (snapshot !! (i - 0)%nat)))
        by (intros i; by rewrite Nat.sub_0_r).
      by rewrite map_lookup_seq. }
    by apply Permutation_map.
Qed.

(** ** Reachable states of the layered queue *)

Lemma PriorityQueue_ranked_wf pq :
  PriorityQueue.ranked pq -> PriorityQueue.wf pq = true.
Proof.
  intros [Hlen Hrank]. unfold PriorityQueue.wf.
  apply andb_true_intro. split; [by apply Nat.eqb_eq|].
  apply forallb_forall. intros [i q] Hin%list_elem_of_In.
  apply enumerate_from_elem in Hin as [_ Hi]. rewrite Nat.sub_0_r in Hi.
  apply forallb_forall. intros x Hx%list_elem_of_In. simpl.
  apply Nat.eqb_eq. by eapply Hrank.
Qed.

Lemma PriorityQueue_dequeue_ranked pq x pq' :
  PriorityQueue.ranked pq -> PriorityQueue.dequeue pq = Ok (x, pq') ->
  PriorityQueue.ranked pq'.
Proof.
  intros [Hlen Hrank]. unfold PriorityQueue.dequeue.
  pose proof (dequeue_from_spec (PriorityQueue._queues pq)) as Hspec.
  destruct (PriorityQueue.dequeue_from _) as [[[y|] qs']|e]; simpl; [| |done].
  - intros [= <- <-]. destruct Hspec as (i & rest & Hi & _ & ->).
    split; simpl; [by rewrite length_insert|].
    intros j q z Hj Hz. destruct (decide (j = i)) as [->|Hne].
    + rewrite list_lookup_insert_eq in Hj by (by eapply lookup_lt_Some).
      injection Hj as <-. apply (Hrank _ _ _ Hi). simpl. set_solver.
    + rewrite list_lookup_insert_ne in Hj by done. by eapply Hrank.
  - intros [= <- <-]. by destruct Hspec as [-> _].
Qed.

(** Every state a client can reach is well formed. *)
Lemma PriorityQueue_reachable_wf pq :
  PriorityQueue.reachable pq -> PriorityQueue.wf pq = true.
Proof.
  intros Hreach. apply PriorityQueue_ranked_wf.
  induction Hreach as [|pq item pq' _ IH Henq|pq x pq' _ IH Hdeq].
  - apply PriorityQueue_new_ranked.
  - by eapply PriorityQueue_enqueue_ranked.
  - by eapply PriorityQueue_dequeue_ranked.
Qed.

(** ** When the pass raises [TypeError] *)

Lemma key_lt_defined_sym a b e :
  key_lt a b = Raise e -> exists e', key_lt b a = Raise e'.
Proof.
  destruct a as [[r1 d1] c1], b as [[r2 d2] c2].
  unfold key_lt, datetime_eqb, datetime_lt.
  rewrite (datetime_cmp_opp d1 d2), (datetime_cmp_opp c1 c2).
  destruct (Nat.eqb_spec r1 r2), (Nat.eqb_spec r2 r1); try done; try lia.
  destruct (datetime_cmp d1 d2) as [[]|], (datetime_cmp c1 c2) as [[]|];
    simpl; eauto; done.
Qed.

(** The sort raises exactly when two of the keys cannot be compared,
    whichever comparisons a stable sort makes first. *)
Lemma list_sort_raises_iff (l : list enriched) :
  (exists e, list_sort sort_key key_lt l = Raise e) <->
  exists x y, x ∈ l /\ y ∈ l /\
    key_lt (sort_key x) (sort_key y) = Raise TypeError.
Proof.
  split.
  - intros [e (x & y & Hx & Hy & Hlt)%list_sort_raises].
    exists x, y. by rewrite <- (key_lt_raises _ _ _ Hlt).
  - intros (x & y & Hx & Hy & Hlt).
    destruct (list_sort sort_key key_lt l) as [out|e] eqn:Hsort; [|eauto].
    exfalso.
    pose proof (list_sort_key_ordered _ _ Hsort) as Hs.
    rewrite <- (list_sort_perm _ _ _ _ Hsort) in Hx, Hy.
    apply list_elem_of_lookup in Hx as [i Hi].
    apply list_elem_of_lookup in Hy as [j Hj].
    assert (forall n m a b, (n < m)%nat -> out !! n = Some a -> out !! m = Some b ->
              key_ordered (sort_key a) (sort_key b)) as Hord.
    { clear -Hs. induction Hs as [|z out _ IH Hz]; intros n m a b Hnm Hn Hm.
      - done.
      - destruct m as [|m]; [lia|]. simpl in Hm. destruct n as [|n].
        + injection Hn as <-. rewrite Forall_forall in Hz.
          apply Hz. by eapply list_elem_of_lookup_2.
        + simpl in Hn. apply (IH n m); [lia|done..]. }
    destruct (Nat.lt_trichotomy i j) as [Hlt'|[->|Hgt]].
    + pose proof (key_ordered_lt_false _ _ (Hord _ _ _ _ Hlt' Hi Hj)) as Hyx.
      destruct (key_lt_defined_sym _ _ _ Hlt) as [e' He']. congruence.
    + assert (x = y) as -> by congruence.
      destruct (sort_key y) as [[r d] c]. revert Hlt.
      unfold key_lt, datetime_eqb, datetime_lt.
      rewrite Nat.eqb_refl, !datetime_cmp_instant, !Bool.eqb_reflx,
        !Z.compare_refl.
      done.
    + pose proof (key_ordered_lt_false _ _ (Hord _ _ _ _ Hgt Hj Hi)) as Hxy.
      congruence.
Qed.

Lemma comparable_true keys :
  (forall k1 k2, k1 ∈ keys -> k2 ∈ keys -> exists b, key_lt k1 k2 = Ok b) ->
  comparable keys = true.
Proof.
  intros Hcmp. unfold comparable.
  apply forallb_forall. intros k1 H1%list_elem_of_In.
  apply forallb_forall. intros k2 H2%list_elem_of_In.
  by destruct (Hcmp k1 k2 H1 H2) as [b ->].
Qed.

(** With keys that can be computed, the pass raises exactly when two of
    them cannot be compared. *)
Lemma pass_raises_iff snapshot keys :
  mapM record_key snapshot = Ok keys ->
  get_optimized_queue_list snapshot = Raise TypeError <-> comparable keys = false.
Proof.
  intros Hkeys. split.
  - intros Hraise. destruct (comparable keys) eqn:Hcmp; [|done].
    destruct (returns_when_comparable snapshot keys Hkeys) as [out Hout];
      [|congruence].
    intros k1 k2 H1%list_elem_of_In H2%list_elem_of_In.
    unfold comparable in Hcmp. rewrite forallb_forall in Hcmp.
    specialize (Hcmp k1 H1). rewrite forallb_forall in Hcmp.
    specialize (Hcmp k2 H2). destruct (key_lt k1 k2); [eauto|done].
  - intros Hcmp.
    apply mapM_record_key_Ok in Hkeys as (nodes & keyed & Hnodes & Hkeyed & ->).
    rewrite get_optimized_queue_list_unfold. unfold single_stable_sort.
    rewrite Hnodes. simpl. rewrite Hkeyed. simpl.
    destruct (list_sort sort_key key_lt keyed) as [sorted|e] eqn:Hsort; simpl.
    + exfalso. rewrite comparable_true in Hcmp; [done|].
      intros k1 k2 (x & <- & Hx%list_elem_of_In)%list_elem_of_In%in_map_iff
        (y & <- & Hy%list_elem_of_In)%list_elem_of_In%in_map_iff.
      destruct (key_lt (sort_key x) (sort_key y)) as [b|e] eqn:Hlt; [eauto|].
      exfalso.
      assert (exists e', list_sort sort_key key_lt keyed = Raise e') as [e' He'].
      { apply list_sort_raises_iff. exists x, y.
        by rewrite <- (key_lt_raises _ _ _ Hlt). }
      congruence.
    + apply list_sort_raises in Hsort as (x & y & _ & _ & Hlt).
      by rewrite (key_lt_raises _ _ _ Hlt).
Qed.

(** * Further properties of the code *)

(** ** queue.py: the rank of any value *)

Lemma priority_rank_rank_of s : priority_rank (PyStr s) = Ok (rank_of s).
Proof. by rewrite priority_rank_str, <- rank_of_label. Qed.


(** ** queue.py: the FIFO queue *)

Lemma Queue_enqueue_all q xs :
  Queue._items (foldl Queue.enqueue q xs) = Queue._items q ++ xs.
Proof.
  revert q. induction xs as [|x xs IH]; intros q; simpl.
  - by rewrite app_nil_r.
  - rewrite IH. simpl. by rewrite <- app_assoc.
Qed.

(** X2. The queue is first in, first out. After the items [xs] have been
    enqueued in turn, the queue holds what it held before followed by
    [xs]; its length has grown by the number of items; it is empty only
    when nothing was held and nothing enqueued; [peek] returns the
    oldest item, and [dequeue] returns the same item and leaves the
    others in their order. Neither raises: on the empty queue both return
    [None]. *)
Theorem Queue_first_in_first_out (q : Queue.t) (xs : list QueueItem.t) :
  let q' := foldl Queue.enqueue q xs in
  Queue.to_list q' = Queue.to_list q ++ xs /\
  Queue.len q' = (Queue.len q + length xs)%nat /\
  Queue.is_empty q' = bool_decide (Queue.to_list q ++ xs = []) /\
  Queue.peek q' = Ok (head (Queue.to_list q ++ xs)) /\
  Queue.dequeue q'
  = Ok (head (Queue.to_list q ++ xs), Queue.mk (tail (Queue.to_list q ++ xs))).
Proof.
  intros q'. pose proof (Queue_enqueue_all q xs) as Hq. fold q' in Hq.
  unfold Queue.to_list, Queue.len, Queue.peek, Queue.dequeue, Queue.is_empty.
  rewrite Hq. destruct q' as [items]. simpl in Hq. subst items.
  split; [done|]. split; [apply length_app|].
  by destruct (Queue._items q ++ xs) as [|y rest].
Qed.

(** ** queue.py: the layered queue *)

(** X3. On every layered queue, [peek] returns the first item of
    [to_list] ([None] when there is none), and [dequeue] returns the same
    item and leaves a queue whose [to_list] is the rest, one item
    shorter, on the same number of lanes. Neither raises. *)
Theorem PriorityQueue_peek_is_next_dequeue (pq : PriorityQueue.t) :
  PriorityQueue.peek pq = Ok (head (PriorityQueue.to_list pq)) /\
  exists pq',
    PriorityQueue.dequeue pq = Ok (head (PriorityQueue.to_list pq), pq') /\
    PriorityQueue.to_list pq' = tail (PriorityQueue.to_list pq) /\
    PriorityQueue.len pq' = Nat.pred (PriorityQueue.len pq) /\
    length (PriorityQueue._queues pq') = length (PriorityQueue._queues pq).
Proof.
  pose proof (peek_from_spec (PriorityQueue._queues pq)) as Hpeek.
  pose proof (dequeue_from_spec (PriorityQueue._queues pq)) as Hspec.
  unfold PriorityQueue.peek.
  destruct (PriorityQueue.dequeue pq) as [[x pq']|e] eqn:Hdq;
    [|by destruct (PriorityQueue_dequeue_returns pq) as [r Hr]; rewrite Hr in Hdq].
  unfold PriorityQueue.dequeue in Hdq.
  destruct (PriorityQueue.dequeue_from _) as [[x' qs]|] eqn:Hfrom; [|done].
  simpl in Hdq. injection Hdq as <- <-.
  assert (PriorityQueue.dequeue pq = Ok (x', PriorityQueue.mk qs)) as Hdq
    by (unfold PriorityQueue.dequeue; by rewrite Hfrom).
  rewrite (PriorityQueue_len_to_list pq).
  destruct x' as [x|].
  - rewrite (PriorityQueue_dequeue_some _ _ _ Hdq). simpl.
    split; [done|]. eexists. split; [done|]. split; [done|].
    split; [apply PriorityQueue_len_to_list|].
    destruct Hspec as (i & rest & _ & _ & ->). simpl. by rewrite length_insert.
  - destruct (PriorityQueue_dequeue_none _ _ Hdq) as [Heq Hnil].
    rewrite Hnil. simpl.
    split; [done|]. eexists. split; [done|]. rewrite Heq.
    split; [done|]. split; [|done].
    by rewrite PriorityQueue_len_to_list, Hnil.
Qed.

(** X4. [len] counts the items of [to_list], and [is_empty] holds exactly
    when [len] is 0, that is when [to_list] is empty. *)
Theorem PriorityQueue_is_empty_iff_len_zero (pq : PriorityQueue.t) :
  PriorityQueue.len pq = length (PriorityQueue.to_list pq) /\
  (PriorityQueue.is_empty pq = true <-> PriorityQueue.len pq = 0%nat) /\
  (PriorityQueue.is_empty pq = true <-> PriorityQueue.to_list pq = []).
Proof.
  split; [apply PriorityQueue_len_to_list|].
  assert (PriorityQueue.is_empty pq = true <-> PriorityQueue.to_list pq = [])
    as Hempty.
  { rewrite PriorityQueue_to_list_concat. unfold PriorityQueue.is_empty.
    destruct pq as [qs]. simpl.
    induction qs as [|[items] qs IH]; simpl; [done|].
    unfold Queue.is_empty at 1. simpl. rewrite andb_true_iff, IH, Nat.eqb_eq.
    destruct items; simpl; [|split; [lia|done]]. tauto. }
  split; [|done].
  rewrite Hempty, PriorityQueue_len_to_list.
  by destruct (PriorityQueue.to_list pq).
Qed.

Lemma filter_all {A} (P : A -> Prop) `{forall x, Decision (P x)} (l : list A) :
  Forall P l -> filter P l = l.
Proof.
  induction 1 as [|x l Hx _ IH]; [done|].
  rewrite filter_cons. destruct (decide (P x)); [|done]. by rewrite IH.
Qed.

Lemma filter_none {A} (P : A -> Prop) `{forall x, Decision (P x)} (l : list A) :
  Forall (fun x => ~ P x) l -> filter P l = [].
Proof.
  induction 1 as [|x l Hx _ IH]; [done|].
  rewrite filter_cons. by destruct (decide (P x)).
Qed.

(** What [enqueue] does to the four lanes: the item goes to the end of
    the lane of its rank. *)
Lemma PriorityQueue_enqueue_lanes a b c d item :
  PriorityQueue.enqueue
    (PriorityQueue.mk [Queue.mk a; Queue.mk b; Queue.mk c; Queue.mk d]) item
  = Ok (PriorityQueue.mk
          [ Queue.mk (a ++ filter (fun x => rank_of (QueueItem.priority x) = 0%nat) [item]);
            Queue.mk (b ++ filter (fun x => rank_of (QueueItem.priority x) = 1%nat) [item]);
            Queue.mk (c ++ filter (fun x => rank_of (QueueItem.priority x) = 2%nat) [item]);
            Queue.mk (d ++ filter (fun x => rank_of (QueueItem.priority x) = 3%nat) [item]) ]).
Proof.
  unfold PriorityQueue.enqueue, PriorityQueue._queue_for.
  rewrite priority_rank_rank_of. simpl.
  pose proof (rank_of_le (QueueItem.priority item)) as Hle.
  rewrite !filter_cons, !filter_nil.
  destruct (rank_of (QueueItem.priority item)) as [|[|[|[|r]]]] eqn:Hr;
    [..|lia]; simpl; repeat case_decide; try done;
    by rewrite ?app_nil_r.
Qed.

Lemma PriorityQueue_ranked_lanes pq :
  PriorityQueue.ranked pq ->
  exists a b c d,
    pq = PriorityQueue.mk [Queue.mk a; Queue.mk b; Queue.mk c; Queue.mk d] /\
    Forall (fun x => rank_of (QueueItem.priority x) = 0%nat) a /\
    Forall (fun x => rank_of (QueueItem.priority x) = 1%nat) b /\
    Forall (fun x => rank_of (QueueItem.priority x) = 2%nat) c /\
    Forall (fun x => rank_of (QueueItem.priority x) = 3%nat) d.
Proof.
  destruct pq as [qs]. intros [Hlen Hrank]. simpl in *.
  destruct qs as [|[a] [|[b] [|[c] [|[d] [|]]]]]; try done.
  exists a, b, c, d. split; [done|].
  repeat split; apply Forall_forall; intros x Hx.
  - by apply (Hrank 0%nat (Queue.mk a) x).
  - by apply (Hrank 1%nat (Queue.mk b) x).
  - by apply (Hrank 2%nat (Queue.mk c) x).
  - by apply (Hrank 3%nat (Queue.mk d) x).
Qed.

(** X5. On a well-formed layered queue (four lanes, lane [i] holding
    items of rank [i]) [enqueue] returns; the queue stays well-formed
    and is one item longer; and in [to_list] the new item stands behind
    every item whose rank is at most its own and before every item of a
    greater rank, the other items keeping their order. *)
Theorem PriorityQueue_enqueue_position (pq : PriorityQueue.t)
    (item : QueueItem.t) :
  PriorityQueue.wf pq = true ->
  exists pq',
    PriorityQueue.enqueue pq item = Ok pq' /\
    PriorityQueue.wf pq' = true /\
    PriorityQueue.len pq' = S (PriorityQueue.len pq) /\
    PriorityQueue.to_list pq'
    = filter (fun x => (rank_of (QueueItem.priority x)
                        <= rank_of (QueueItem.priority item))%nat)
        (PriorityQueue.to_list pq)
      ++ item ::
         filter (fun x => (rank_of (QueueItem.priority item)
                           < rank_of (QueueItem.priority x))%nat)
           (PriorityQueue.to_list pq).
Proof.
  intros Hwf%PriorityQueue_wf_ranked.
  destruct (PriorityQueue_ranked_lanes _ Hwf) as (a & b & c & d & -> & Ha & Hb & Hc & Hd).
  eexists. split; [apply PriorityQueue_enqueue_lanes|].
  split.
  { eapply PriorityQueue_ranked_wf, PriorityQueue_enqueue_ranked;
      [exact Hwf|apply PriorityQueue_enqueue_lanes]. }
  pose proof (rank_of_le (QueueItem.priority item)) as Hle.
  rewrite !PriorityQueue_len_to_list.
  unfold PriorityQueue.to_list, Queue.to_list. simpl.
  rewrite !filter_cons, !filter_nil, !filter_app.
  assert (forall (P : QueueItem.t -> Prop) `{forall x, Decision (P x)} n l,
            Forall (fun x => rank_of (QueueItem.priority x) = n) l ->
            (forall x, rank_of (QueueItem.priority x) = n -> P x) ->
            filter P l = l) as Hall.
  { intros P ? n l Hl HP. apply filter_all. eapply Forall_impl; [exact Hl|].
    intros x Hx. by apply HP. }
  assert (forall (P : QueueItem.t -> Prop) `{forall x, Decision (P x)} n l,
            Forall (fun x => rank_of (QueueItem.priority x) = n) l ->
            (forall x, rank_of (QueueItem.priority x) = n -> ~ P x) ->
            filter P l = []) as Hnone.
  { intros P ? n l Hl HP. apply filter_none. eapply Forall_impl; [exact Hl|].
    intros x Hx. by apply HP. }
  destruct (rank_of (QueueItem.priority item)) as [|[|[|[|r]]]] eqn:Hr;
    [..|lia]; repeat case_decide; try done; try lia.
  - rewrite (Hall _ _ _ _ Ha), (Hnone _ _ _ _ Hb), (Hnone _ _ _ _ Hc),
      (Hnone _ _ _ _ Hd), (Hnone _ _ _ _ Ha), (Hall _ _ _ _ Hb),
      (Hall _ _ _ _ Hc), (Hall _ _ _ _ Hd) by (intros; lia).
    split; [rewrite !length_app; simpl; lia|].
    by rewrite ?app_nil_r, <- ?app_assoc.
  - rewrite (Hall _ _ _ _ Ha), (Hall _ _ _ _ Hb), (Hnone _ _ _ _ Hc),
      (Hnone _ _ _ _ Hd), (Hnone _ _ _ _ Ha), (Hnone _ _ _ _ Hb),
      (Hall _ _ _ _ Hc), (Hall _ _ _ _ Hd) by (intros; lia).
    split; [rewrite !length_app; simpl; lia|].
    by rewrite ?app_nil_r, <- ?app_assoc.
  - rewrite (Hall _ _ _ _ Ha), (Hall _ _ _ _ Hb), (Hall _ _ _ _ Hc),
      (Hnone _ _ _ _ Hd), (Hnone _ _ _ _ Ha), (Hnone _ _ _ _ Hb),
      (Hnone _ _ _ _ Hc), (Hall _ _ _ _ Hd) by (intros; lia).
    split; [rewrite !length_app; simpl; lia|].
    by rewrite ?app_nil_r, <- ?app_assoc.
  - rewrite (Hall _ _ _ _ Ha), (Hall _ _ _ _ Hb), (Hall _ _ _ _ Hc),
      (Hall _ _ _ _ Hd), (Hnone _ _ _ _ Ha), (Hnone _ _ _ _ Hb),
      (Hnone _ _ _ _ Hc), (Hnone _ _ _ _ Hd) by (intros; lia).
    split; [rewrite !length_app; simpl; lia|].
    by rewrite ?app_nil_r, <- ?app_assoc.
Qed.

Lemma PriorityQueue_enqueue_all_lanes xs a b c d :
  for_each PriorityQueue.enqueue xs
    (PriorityQueue.mk [Queue.mk a; Queue.mk b; Queue.mk c; Queue.mk d])
  = Ok (PriorityQueue.mk
          [ Queue.mk (a ++ filter (fun x => rank_of (QueueItem.priority x) = 0%nat) xs);
            Queue.mk (b ++ filter (fun x => rank_of (QueueItem.priority x) = 1%nat) xs);
            Queue.mk (c ++ filter (fun x => rank_of (QueueItem.priority x) = 2%nat) xs);
            Queue.mk (d ++ filter (fun x => rank_of (QueueItem.priority x) = 3%nat) xs) ]).
Proof.
  revert a b c d. induction xs as [|x xs IH]; intros a b c d.
  - simpl. by rewrite !filter_nil, !app_nil_r.
  - cbn [for_each]. rewrite PriorityQueue_enqueue_lanes. simpl. rewrite IH.
    rewrite <- !app_assoc.
    by rewrite <- !(filter_app _ [x] xs).
Qed.

Lemma ranks_partition (xs : list QueueItem.t) :
  concat (map (fun i => filter (fun x => rank_of (QueueItem.priority x) = i) xs)
            [0; 1; 2; 3]%nat) ≡ₚ xs.
Proof.
  induction xs as [|x xs IH]; [done|].
  pose proof (rank_of_le (QueueItem.priority x)) as Hle.
  cbn [map concat] in *. rewrite !filter_cons, app_nil_r in *.
  destruct (rank_of (QueueItem.priority x)) as [|[|[|[|r]]]] eqn:Hr;
    [..|lia]; repeat case_decide; try done; try lia;
    rewrite <- ?app_comm_cons.
  - by rewrite IH.
  - rewrite <- Permutation_middle. by rewrite IH.
  - rewrite app_assoc, <- Permutation_middle, <- app_assoc. by rewrite IH.
  - rewrite !app_assoc, <- Permutation_middle, <- !app_assoc. by rewrite IH.
Qed.

(** X6. Enqueuing the items [xs] in turn into a new layered queue never
    raises, and lane [i] of the result holds exactly the items of [xs]
    whose rank is [i], in the order in which they were enqueued. So
    [to_list] lists the items of [xs], each once, by rank and first in
    first out within a rank; the result is well-formed; and dequeuing
    as often as there are items returns them in that order. *)
Theorem PriorityQueue_load_groups_by_rank (xs : list QueueItem.t) :
  exists pq,
    for_each PriorityQueue.enqueue xs PriorityQueue.new = Ok pq /\
    PriorityQueue.wf pq = true /\
    map Queue.to_list (PriorityQueue._queues pq)
    = map (fun i => filter (fun x => rank_of (QueueItem.priority x) = i) xs)
        [0; 1; 2; 3]%nat /\
    PriorityQueue.to_list pq
    = concat (map (fun i =>
                     filter (fun x => rank_of (QueueItem.priority x) = i) xs)
                [0; 1; 2; 3]%nat) /\
    PriorityQueue.to_list pq ≡ₚ xs /\
    PriorityQueue.drain (length xs) pq = Ok (PriorityQueue.to_list pq).
Proof.
  pose proof (PriorityQueue_enqueue_all_lanes xs [] [] [] []) as Hload.
  cbn [app] in Hload. eexists. split; [exact Hload|].
  match goal with |- PriorityQueue.wf ?p = true /\ _ => set (pq := p) end.
  assert (PriorityQueue.to_list pq
          = concat (map (fun i =>
                           filter (fun x => rank_of (QueueItem.priority x) = i) xs)
                      [0; 1; 2; 3]%nat)) as Hlist
    by (by rewrite PriorityQueue_to_list_concat).
  split.
  { apply PriorityQueue_ranked_wf. split; [done|].
    intros i q x Hq Hx. simpl in Hq.
    destruct i as [|[|[|[|i]]]]; simpl in Hq; try done;
      injection Hq as <-; simpl in Hx;
      by apply list_elem_of_filter in Hx as [Hx _]. }
  split; [done|]. split; [done|].
  split; [rewrite Hlist; apply ranks_partition|].
  apply PriorityQueue_drain_to_list.
  by rewrite Hlist, (ranks_partition xs).
Qed.

(** X7. A layered queue built by [PriorityQueue()], [enqueue] and
    [dequeue] alone is well-formed, and on it no operation raises:
    [enqueue] finds the lane of every item (the index computed by
    [priority_rank] is within the four lanes), and [dequeue] and [peek]
    return. *)
Theorem PriorityQueue_reachable_operations_return (pq : PriorityQueue.t) :
  PriorityQueue.reachable pq ->
  PriorityQueue.wf pq = true /\
  (forall item, exists pq',
     PriorityQueue.enqueue pq item = Ok pq' /\ PriorityQueue.reachable pq') /\
  (exists x pq',
     PriorityQueue.dequeue pq = Ok (x, pq') /\ PriorityQueue.reachable pq') /\
  (exists x, PriorityQueue.peek pq = Ok x).
Proof.
  intros Hreach. pose proof (PriorityQueue_reachable_wf _ Hreach) as Hwf.
  split; [done|]. split; [|split].
  - intros item.
    destruct (PriorityQueue_enqueue_spec pq item) as (q & _ & Henq);
      [by apply PriorityQueue_wf_ranked|].
    eexists. split; [exact Henq|].
    by eapply PriorityQueue.reachable_enqueue.
  - destruct (PriorityQueue_dequeue_returns pq) as [[x pq'] Hdq].
    exists x, pq'. split; [done|]. by eapply PriorityQueue.reachable_dequeue.
  - pose proof (peek_from_spec (PriorityQueue._queues pq)) as Hpeek.
    destruct (PriorityQueue.dequeue_from _) as [[x qs]|]; [|done].
    by exists x.
Qed.

(** ** linked_list.py: insertion *)

Lemma py_eq_refl v : py_eq v v = true.
Proof.
  destruct v as [|z|s|d]; simpl; [done|apply Z.eqb_refl|by apply bool_decide_eq_true_2|].
  unfold datetime_eqb, datetime_cmp.
  destruct (utcoffset d); [rewrite Z.eqb_refl|]; by rewrite Z.compare_refl.
Qed.

Lemma insert_Ok_records l a l' :
  PatientLinkedList.insert_from_appointment_dict l a = Ok l' ->
  exists node,
    PatientLinkedList.make_node a = Ok node /\
    PatientLinkedList.records l' = PatientLinkedList.records l ++ [node].
Proof.
  unfold PatientLinkedList.insert_from_appointment_dict.
  intros (node & Hnode & [= <-])%bind_Ok. exists node. split; [done|].
  pose proof (make_node_unlinked _ _ Hnode) as Hnext.
  rewrite records_append_node, nodes_from_unlinked by done. simpl.
  by rewrite detach_unlinked.
Qed.


(** X9. Inserting a row and then removing its id restores the store:
    when no record already stored has that id, [remove_by_id] returns
    [True] after the insertion and the records are those from before it,
    in their order. *)
Theorem insert_then_remove_restores (l l' : PatientLinkedList.t) (a : pydict)
    (id : pyval) :
  a !! "id" = Some id ->
  forallb (fun n => negb (py_eq (PatientNode.appointment_id n) id))
    (PatientLinkedList.records l) = true ->
  PatientLinkedList.insert_from_appointment_dict l a = Ok l' ->
  exists l'',
    PatientLinkedList.remove_by_id l' id = (l'', true) /\
    PatientLinkedList.records l'' = PatientLinkedList.records l.
Proof.
  intros Hid Hfresh (node & Hnode & Hrec)%insert_Ok_records.
  destruct (make_node_fields _ _ Hnode) as (Hid' & _).
  rewrite Hid in Hid'. injection Hid' as ->.
  assert (list_find (fun n => py_eq (PatientNode.appointment_id n)
                                (PatientNode.appointment_id node) = true)
            (PatientLinkedList.records l')
          = Some (length (PatientLinkedList.records l), node)) as Hfind.
  { rewrite Hrec, list_find_app_r.
    - simpl. rewrite decide_True by apply py_eq_refl. done.
    - apply list_find_None, Forall_forall. intros n Hn.
      rewrite forallb_forall in Hfresh.
      apply list_elem_of_In, Hfresh in Hn. by destruct (py_eq _ _). }
  unfold PatientLinkedList.remove_by_id.
  destruct l' as [[h|]]; [|by destruct (PatientLinkedList.records l)].
  simpl. pose proof (unlink_spec h (PatientNode.appointment_id node)) as Hspec.
  unfold PatientLinkedList.records at 1, PatientLinkedList.to_list in Hfind.
  simpl in Hfind. rewrite Hfind in Hspec.
  destruct Hspec as (h' & -> & Hdel). eexists. split; [done|].
  rewrite Hdel.
  change (map PatientNode.detach (PatientLinkedList.nodes_from h))
    with (PatientLinkedList.records (PatientLinkedList.mk (Some h))).
  rewrite Hrec.
  rewrite <- (app_nil_r (PatientLinkedList.records l)) at 3.
  apply delete_middle.
Qed.

(** ** scheduler.py: what a pass returns *)

Lemma Forall2_output_record_mapM (snapshot out : list pydict) :
  Forall2 (fun a o => output_record a = Ok o) snapshot out ->
  mapM output_record snapshot = Ok out.
Proof. by rewrite mapM_Ok_Forall2. Qed.

(** X10. A pass that returns loses no row and serves none twice: its
    output is a rearrangement of the output dicts of the rows (one per
    row, duplicates of the snapshot as often as they occur), so it has
    the length of the snapshot and its appointment_id fields are the ids
    of the rows. *)
Theorem schedule_keeps_every_record (snapshot out : list pydict) :
  get_optimized_queue_list snapshot = Ok out ->
  exists records,
    mapM output_record snapshot = Ok records /\
    out ≡ₚ records /\
    length out = length snapshot /\
    map (fun o => o !! "appointment_id") out
    ≡ₚ map (fun a => a !! "id") snapshot.
Proof.
  intros Hout. destruct (no_data_loss_when_returned _ _ Hout) as [Hlen Hids].
  revert Hout. rewrite get_optimized_queue_list_unfold.
  intros (nodes & keyed & sorted & Hnodes & Hkeyed & Hsorted & Hout)%single_stable_sort_Ok.
  destruct (mapM_output_record nodes keyed snapshot Hnodes Hkeyed)
    as (records & Hrecords%mapM_Ok_Forall2 & Hall).
  exists records. split; [by apply Forall2_output_record_mapM|].
  split; [|done].
  destruct (Permutation_Forall2 (list_sort_perm _ _ _ _ Hsorted) Hout)
    as (records' & Hperm & Hkeyed').
  rewrite Hperm. apply Permutation_refl'.
  eapply Forall2_unique; [exact Hkeyed'|exact Hrecords|]. congruence.
Qed.

Lemma comparable_Ok keys k1 k2 :
  comparable keys = true -> k1 ∈ keys -> k2 ∈ keys ->
  exists b, key_lt k1 k2 = Ok b.
Proof.
  intros Hcmp H1%list_elem_of_In H2%list_elem_of_In.
  unfold comparable in Hcmp. rewrite forallb_forall in Hcmp.
  specialize (Hcmp k1 H1). rewrite forallb_forall in Hcmp.
  specialize (Hcmp k2 H2). destruct (key_lt k1 k2); [eauto|done].
Qed.

Lemma record_key_well_typed a :
  well_typed a = true -> exists k, record_key a = Ok k.
Proof.
  intros Ha.
  destruct (make_node_well_typed a Ha) as (node & Hnode & Hd & Ht & Hc).
  apply andb_prop in Ha as [[_ Hdate]%andb_prop Htime].
  unfold record_key, enrich. rewrite Hnode. simpl.
  rewrite parse_created_at_total. simpl. rewrite Hd, Ht.
  rewrite parse_appointment_datetime_total by (by apply is_text_or_empty).
  simpl. rewrite priority_rank_str. simpl. eauto.
Qed.

(** X11. On a snapshot of well-typed rows (an integer id; priority, date
    and time each a string, [None] or missing; any creation time) the
    sort key of every row can be computed, and the pass has two
    outcomes only: it returns a list of the length of the snapshot when
    every two keys can be compared, and it raises [TypeError] when two
    of them cannot, which is when an aware datetime meets a naive one. *)
Theorem well_typed_snapshot_outcome (snapshot : list pydict) :
  forallb well_typed snapshot = true ->
  exists keys,
    mapM record_key snapshot = Ok keys /\
    length keys = length snapshot /\
    (comparable keys = true ->
     exists out,
       get_optimized_queue_list snapshot = Ok out /\
       length out = length snapshot) /\
    (comparable keys = false ->
     get_optimized_queue_list snapshot = Raise TypeError).
Proof.
  intros Hrows.
  destruct (mapM_returns record_key snapshot) as [keys Hkeys].
  { apply Forall_forall. intros a Ha%list_elem_of_In.
    rewrite forallb_forall in Hrows. by apply record_key_well_typed, Hrows. }
  exists keys. split; [done|]. split; [|split].
  - apply mapM_Ok_Forall2 in Hkeys. symmetry. by eapply Forall2_length.
  - intros Hcmp.
    destruct (returns_when_comparable snapshot keys Hkeys) as [out Hout].
    { intros k1 k2. by apply comparable_Ok. }
    exists out. split; [done|]. by apply no_data_loss_when_returned.
  - by apply pass_raises_iff.
Qed.

Lemma key_lt_same_awareness (b : bool) k1 k2 :
  Bool.eqb (aware k1.1.2) b && Bool.eqb (aware k1.2) b = true ->
  Bool.eqb (aware k2.1.2) b && Bool.eqb (aware k2.2) b = true ->
  exists r, key_lt k1 k2 = Ok r.
Proof.
  destruct k1 as [[r1 d1] c1], k2 as [[r2 d2] c2]. simpl.
  intros [Hd1%Bool.eqb_prop Hc1%Bool.eqb_prop]%andb_prop
    [Hd2%Bool.eqb_prop Hc2%Bool.eqb_prop]%andb_prop.
  unfold key_lt, datetime_eqb, datetime_lt.
  rewrite !datetime_cmp_instant, Hd1, Hd2, Hc1, Hc2, !Bool.eqb_reflx.
  destruct (negb (r1 =? r2)%nat); [eauto|].
  destruct (instant d1 ?= instant d2), (instant c1 ?= instant c2); simpl; eauto.
Qed.

(** X12. The pass returns whenever the sort keys of the rows can be
    computed and their datetimes are all naive, or all aware: then no
    comparison of the sort can raise. *)
Theorem same_awareness_returns (snapshot : list pydict)
    (keys : list (nat * datetime * datetime)) (b : bool) :
  mapM record_key snapshot = Ok keys ->
  forallb (fun k : nat * datetime * datetime =>
             Bool.eqb (aware k.1.2) b && Bool.eqb (aware k.2) b) keys = true ->
  comparable keys = true /\
  exists out,
    get_optimized_queue_list snapshot = Ok out /\
    length out = length snapshot.
Proof.
  intros Hkeys Hall. rewrite forallb_forall in Hall.
  assert (forall k1 k2, k1 ∈ keys -> k2 ∈ keys -> exists r, key_lt k1 k2 = Ok r)
    as Hcmp.
  { intros k1 k2 H1%list_elem_of_In H2%list_elem_of_In.
    apply (key_lt_same_awareness b); by apply Hall. }
  split; [by apply comparable_true|].
  destruct (returns_when_comparable snapshot keys Hkeys Hcmp) as [out Hout].
  exists out. split; [done|]. by apply no_data_loss_when_returned.
Qed.

Lemma to_dict_no_id item : QueueItem.to_dict item !! "id" = None.
Proof. unfold QueueItem.to_dict. by simplify_map_eq. Qed.

(** X13. The pass cannot be applied to its own output: an output dict
    has the key "appointment_id" and no key "id", so when a pass has
    returned a list that is not empty, the pass on that list raises
    [KeyError]. *)
Theorem schedule_own_output_raises_KeyError (snapshot out : list pydict) :
  get_optimized_queue_list snapshot = Ok out ->
  out <> [] ->
  Forall (fun o : pydict => o !! "id" = None) out /\
  get_optimized_queue_list out = Raise KeyError.
Proof.
  rewrite get_optimized_queue_list_unfold.
  intros (nodes & keyed & sorted & _ & _ & _ & Hout)%single_stable_sort_Ok Hne.
  assert (Forall (fun o : pydict => o !! "id" = None) out) as Hall.
  { clear Hne. induction Hout as [|e o sorted out Ho _ IH]; constructor; [|done].
    apply fmap_Ok in Ho as (item & _ & ->). apply to_dict_no_id. }
  split; [done|].
  destruct Hall as [|o out Ho _]; [done|].
  unfold get_optimized_queue_list. cbn [for_each].
  assert (PatientLinkedList.insert_from_appointment_dict PatientLinkedList.new o
          = Raise KeyError) as ->; [|done].
  unfold PatientLinkedList.insert_from_appointment_dict,
    PatientLinkedList.make_node, dict_getitem.
  by rewrite Ho.
Qed.

Lemma py_or_empty_idem v :
  py_or (py_or v (PyStr "")) (PyStr "") = py_or v (PyStr "").
Proof. unfold py_or. by destruct (truthy v) eqn:Hv; [rewrite Hv|]. Qed.

Lemma make_node_text_fields a node :
  PatientLinkedList.make_node a = Ok node ->
  PatientNode.name node
  = py_or (py_or (dict_get a "name") (dict_get a "patient_name")) (PyStr "") /\
  PatientNode.appointment_date node
  = py_or (dict_get a "appointment_date") (PyStr "") /\
  PatientNode.appointment_time node
  = py_or (dict_get a "appointment_time") (PyStr "").
Proof.
  unfold PatientLinkedList.make_node.
  destruct (dict_getitem a "id"); simpl; [|done].
  destruct (py_lower _); simpl; [|done]. by intros [= <-].
Qed.

Lemma output_record_fields a o :
  output_record a = Ok o ->
  dom o
  = ({[ "appointment_id"; "name"; "priority"; "appointment_date";
        "appointment_time"; "created_at" ]} : gset string) /\
  o !! "appointment_id" = a !! "id" /\
  o !! "name"
  = Some (py_or (py_or (dict_get a "name") (dict_get a "patient_name"))
            (PyStr "")) /\
  o !! "appointment_date"
  = Some (py_or (dict_get a "appointment_date") (PyStr "")) /\
  o !! "appointment_time"
  = Some (py_or (dict_get a "appointment_time") (PyStr "")).
Proof.
  intros (node & Hnode & ->)%output_record_inv.
  destruct (make_node_fields _ _ Hnode) as (Hid & _).
  destruct (make_node_text_fields _ _ Hnode) as (Hname & Hdate & Htime).
  rewrite Hid, Hname, Hdate, Htime.
  unfold QueueItem.to_dict, build_queue_item. cbn [QueueItem.appointment_id
    QueueItem.name QueueItem.priority QueueItem.appointment_date
    QueueItem.appointment_time QueueItem.created_at].
  rewrite !py_or_empty_idem.
  split; [|by simplify_map_eq].
  rewrite !dom_insert_L, dom_singleton_L. set_solver.
Qed.

(** X14. Every dict of the output comes from a row of the snapshot and
    has exactly the six keys appointment_id, name, priority,
    appointment_date, appointment_time and created_at (the status and
    the doctor of a row are not passed on). Its appointment_id is the id
    of the row; its name is the name of the row, else the patient_name,
    else the empty string; its date and its time are those of the row,
    the empty string when missing or empty. *)
Theorem output_dict_fields (snapshot out : list pydict) (o : pydict) :
  get_optimized_queue_list snapshot = Ok out ->
  o ∈ out ->
  exists a, a ∈ snapshot /\
    dom o
    = ({[ "appointment_id"; "name"; "priority"; "appointment_date";
          "appointment_time"; "created_at" ]} : gset string) /\
    o !! "appointment_id" = a !! "id" /\
    o !! "name"
    = Some (py_or (py_or (dict_get a "name") (dict_get a "patient_name"))
              (PyStr "")) /\
    o !! "appointment_date"
    = Some (py_or (dict_get a "appointment_date") (PyStr "")) /\
    o !! "appointment_time"
    = Some (py_or (dict_get a "appointment_time") (PyStr "")).
Proof.
  intros (order & _ & Hout & _)%served_in_order Ho.
  apply list_elem_of_lookup in Ho as [n Hn].
  destruct (Forall2_lookup_r _ _ _ _ _ Hout Hn) as (i & _ & a & Hi & Ha).
  exists a. split; [by eapply list_elem_of_lookup_2|].
  by apply output_record_fields.
Qed.


Lemma mapM_raises_at {A B} (f : A -> result B) pre x post e :
  Forall (fun y => exists z, f y = Ok z) pre ->
  f x = Raise e ->
  mapM f (pre ++ x :: post) = Raise e.
Proof.
  intros Hpre Hx. induction Hpre as [|y pre [z Hy] _ IH]; simpl.
  - by rewrite Hx.
  - by rewrite Hy, IH.
Qed.

(** X16. A row without an "id" makes the whole pass raise [KeyError]:
    when the rows before it are well-typed, the ingest of the store
    stops at that row, before any key is computed or compared, whatever
    the rows behind it hold. *)
Theorem row_without_id_raises_KeyError (pre post : list pydict) (a : pydict) :
  forallb well_typed pre = true ->
  a !! "id" = None ->
  get_optimized_queue_list (pre ++ a :: post) = Raise KeyError.
Proof.
  intros Hpre Hid. rewrite get_optimized_queue_list_unfold.
  unfold single_stable_sort.
  rewrite (mapM_raises_at _ pre a post KeyError); [done| |].
  - apply Forall_forall. intros b Hb%list_elem_of_In.
    rewrite forallb_forall in Hpre.
    destruct (make_node_well_typed b (Hpre b Hb)) as (node & Hnode & _).
    eauto.
  - unfold PatientLinkedList.make_node, dict_getitem. by rewrite Hid.
Qed.

Lemma sort_key_rank (e : enriched) : (sort_key e).1.1 = e.1.1.1.
Proof. by destruct e as [[[r d] c] node]. Qed.

(** X17. In the output of a pass the priority levels never descend:
    the output is the list of the dicts of queue items whose ranks (the
    rank of the priority label an item carries) ascend along the list,
    so every critical record stands before every emergency record, and
    so on down to normal. *)
Theorem output_ranks_ascend (snapshot out : list pydict) :
  get_optimized_queue_list snapshot = Ok out ->
  exists items,
    out = map QueueItem.to_dict items /\
    StronglySorted
      (fun x y => (rank_of (QueueItem.priority x)
                   <= rank_of (QueueItem.priority y))%nat) items.
Proof.
  rewrite get_optimized_queue_list_unfold.
  intros (nodes & keyed & sorted & Hnodes & Hkeyed & Hsorted & Hout)%single_stable_sort_Ok.
  assert (Forall (fun e : enriched => enrich e.2 = Ok e) sorted) as Hentries.
  { apply Forall_forall. intros e He.
    rewrite (list_sort_perm _ _ _ _ Hsorted) in He.
    apply list_elem_of_lookup in He as [i Hi].
    by destruct (entry_at _ _ _ _ _ Hnodes Hkeyed Hi) as (a & _ & _ & He). }
  pose proof (list_sort_key_ordered _ _ Hsorted) as Hs.
  clear Hsorted Hnodes Hkeyed.
  assert (exists items,
            out = map QueueItem.to_dict items /\
            Forall2 (fun (e : enriched) item =>
                       rank_of (QueueItem.priority item) = e.1.1.1)
              sorted items /\
            StronglySorted
              (fun x y => (rank_of (QueueItem.priority x)
                           <= rank_of (QueueItem.priority y))%nat) items)
    as (items & -> & _ & Hitems); [|by exists items].
  induction Hout as [|e o sorted out Ho Hout IH].
  - exists []. split; [done|]. split; constructor.
  - apply Forall_cons in Hentries as [He Hentries].
    apply StronglySorted_inv in Hs as [Hs Hhd].
    destruct (IH Hentries Hs) as (items & -> & Hranks & Hitems).
    destruct (enrich_item_of _ _ He) as (_ & item & Hitem & Hrank).
    rewrite Hitem in Ho. simpl in Ho. injection Ho as <-.
    exists (item :: items). split; [done|].
    split; [by constructor|]. constructor; [done|].
    apply Forall_lookup. intros i y Hy.
    destruct (Forall2_lookup_r _ _ _ _ _ Hranks Hy) as (e' & He' & ->).
    rewrite Hrank, <- !sort_key_rank.
    apply key_ordered_rank. exact (Forall_lookup_1 _ _ _ _ Hhd He').
Qed.

(** ** models/patient.py: the registry *)

Lemma registry_chain_ind (P : Models.PatientNode.t -> Prop) :
  (forall r, P (Models.PatientNode.mk r None)) ->
  (forall r nxt, P nxt -> P (Models.PatientNode.mk r (Some nxt))) ->
  forall node, P node.
Proof.
  intros Hlast Hstep. fix IH 1. intros [r [nxt|]].
  - apply Hstep, IH.
  - apply Hlast.
Qed.

Lemma registry_records_link_last h node :
  Models.PatientLinkedList.records_from (Models.PatientLinkedList.link_last h node)
  = Models.PatientLinkedList.records_from h
    ++ Models.PatientLinkedList.records_from node.
Proof.
  induction h as [r|r nxt IH] using registry_chain_ind.
  - done.
  - simpl in *. by rewrite IH.
Qed.

Lemma registry_to_list_append l r :
  Models.PatientLinkedList.to_list (Models.PatientLinkedList.append l r)
  = Models.PatientLinkedList.to_list l ++ [r].
Proof.
  unfold Models.PatientLinkedList.to_list, Models.PatientLinkedList.append.
  destruct l as [[h|] n]; simpl; [|done]. apply registry_records_link_last.
Qed.

Lemma registry_is_empty_to_list l :
  Models.PatientLinkedList.is_empty l = true
  <-> Models.PatientLinkedList.to_list l = [].
Proof.
  unfold Models.PatientLinkedList.is_empty, Models.PatientLinkedList.to_list.
  destruct l as [[[r nx]|] n]; simpl; done.
Qed.

(** X18. The registry counts its records. After any sequence of [append]
    and [clear] calls on a new registry, [len] is the number of records
    that [to_list] returns, and [is_empty] holds exactly when that
    number is 0. *)
Theorem registry_size_counts_records
    (calls : list Models.PatientLinkedList.call) :
  let l := Models.PatientLinkedList.run calls in
  Models.PatientLinkedList.len l
  = Z.of_nat (length (Models.PatientLinkedList.to_list l)) /\
  (Models.PatientLinkedList.is_empty l = true
   <-> Models.PatientLinkedList.len l = 0) /\
  (Models.PatientLinkedList.is_empty l = true
   <-> Models.PatientLinkedList.to_list l = []).
Proof.
  intros l.
  assert (Models.PatientLinkedList.len l
          = Z.of_nat (length (Models.PatientLinkedList.to_list l))) as Hlen.
  { subst l. unfold Models.PatientLinkedList.run.
    assert (Models.PatientLinkedList.len Models.PatientLinkedList.new
            = Z.of_nat (length (Models.PatientLinkedList.to_list
                                  Models.PatientLinkedList.new))) as Hnew
      by done.
    revert Hnew. generalize Models.PatientLinkedList.new.
    induction calls as [|c calls IH]; intros l Hl; simpl; [done|].
    apply IH. destruct c as [r|]; simpl; [|done].
    rewrite registry_to_list_append, length_app. simpl.
    unfold Models.PatientLinkedList.len in *. simpl. lia. }
  split; [done|]. split; [|apply registry_is_empty_to_list].
  rewrite registry_is_empty_to_list, Hlen.
  destruct (Models.PatientLinkedList.to_list l); simpl; [done|].
  split; [done|lia].
Qed.

(** X19. [append] puts a record at the end and [to_list] returns the
    records in the order of their insertion: after the records [rs]
    have been appended in turn, [to_list] is what it was before followed
    by [rs], and [len] has grown by their number; appended to a cleared
    registry, [rs] is all that [to_list] returns. *)
Theorem registry_keeps_append_order (l : Models.PatientLinkedList.t)
    (rs : list Models.PatientRecord.t) :
  Models.PatientLinkedList.to_list (foldl Models.PatientLinkedList.append l rs)
  = Models.PatientLinkedList.to_list l ++ rs /\
  Models.PatientLinkedList.len (foldl Models.PatientLinkedList.append l rs)
  = Models.PatientLinkedList.len l + Z.of_nat (length rs) /\
  Models.PatientLinkedList.to_list
    (foldl Models.PatientLinkedList.append (Models.PatientLinkedList.clear l) rs)
  = rs.
Proof.
  assert (forall l0,
            Models.PatientLinkedList.to_list
              (foldl Models.PatientLinkedList.append l0 rs)
            = Models.PatientLinkedList.to_list l0 ++ rs) as Hlist.
  { induction rs as [|r rs IH]; intros l0; simpl.
    - by rewrite app_nil_r.
    - by rewrite IH, registry_to_list_append, <- app_assoc. }
  split; [apply Hlist|]. split; [|by rewrite Hlist].
  clear Hlist. revert l. induction rs as [|r rs IH]; intros l; simpl.
  - lia.
  - rewrite IH. unfold Models.PatientLinkedList.len. simpl. lia.
Qed.

Lemma registry_find_from_spec h k :
  Models.PatientLinkedList.find_from h k
  = snd <$> list_find (fun r => Models.PatientRecord.id r = k)
              (Models.PatientLinkedList.records_from h).
Proof.
  induction h as [r|r nxt IH] using registry_chain_ind; simpl;
    destruct (Z.eqb_spec (Models.PatientRecord.id r) k) as [Heq|Hne].
  - by rewrite decide_True.
  - by rewrite decide_False.
  - by rewrite decide_True.
  - rewrite decide_False by done. rewrite IH.
    by destruct (list_find _ _) as [[i x]|].
Qed.

(** X20. [find_by_id] returns the first record, in the order of
    [to_list], whose id is the given one, and [None] when no record has
    that id. ([list_find] gives the first index at which the test holds,
    with the element there.) *)
Theorem registry_find_first_match (l : Models.PatientLinkedList.t) (k : Z) :
  Models.PatientLinkedList.find_by_id l k
  = snd <$> list_find (fun r => Models.PatientRecord.id r = k)
              (Models.PatientLinkedList.to_list l) /\
  (forall r, Models.PatientLinkedList.find_by_id l k = Some r ->
     Models.PatientRecord.id r = k /\ r ∈ Models.PatientLinkedList.to_list l) /\
  (Models.PatientLinkedList.find_by_id l k = None <->
   Forall (fun r => Models.PatientRecord.id r <> k)
     (Models.PatientLinkedList.to_list l)).
Proof.
  assert (Models.PatientLinkedList.find_by_id l k
          = snd <$> list_find (fun r => Models.PatientRecord.id r = k)
                      (Models.PatientLinkedList.to_list l)) as Hfind.
  { unfold Models.PatientLinkedList.find_by_id, Models.PatientLinkedList.to_list.
    destruct l as [[h|] n]; simpl; [apply registry_find_from_spec|done]. }
  split; [done|]. rewrite Hfind. split.
  - intros r ([i x] & Hx & ->)%fmap_Some. simpl.
    apply list_find_Some in Hx as (Hi & Hid & _).
    split; [done|]. by eapply list_elem_of_lookup_2.
  - rewrite fmap_None. apply list_find_None.
Qed.

(** X21. A record that has been appended is found by its id unless a
    record stored before has the same id, which is then the one found;
    and appending a record changes the result for no other id. *)
Theorem registry_append_then_find (l : Models.PatientLinkedList.t)
    (r : Models.PatientRecord.t) (k : Z) :
  Models.PatientLinkedList.find_by_id (Models.PatientLinkedList.append l r) k
  = match Models.PatientLinkedList.find_by_id l k with
    | Some r' => Some r'
    | None => if Models.PatientRecord.id r =? k then Some r else None
    end.
Proof.
  unfold Models.PatientLinkedList.find_by_id, Models.PatientLinkedList.append.
  destruct l as [[h|] n]; simpl; [|done].
  induction h as [r0|r0 nxt IH] using registry_chain_ind; simpl;
    destruct (Models.PatientRecord.id r0 =? k); try done.
Qed.

(** ** app.py: what the forms store and what the dashboards read *)

(** X22. The priority stored with a new appointment is always one of
    the four levels of [PRIORITIES], "normal" when the form has no
    priority or an empty one. The scheduling engine takes a stored
    priority as it is: lower-casing and trimming it changes nothing,
    and [priority_rank] returns the position of that very label in
    [PRIORITY_ORDER]. *)
Theorem form_priority_is_known_level (field : option string) :
  let p := form_priority field in
  p ∈ PRIORITIES /\
  (field = None \/ field = Some "" -> p = "normal") /\
  strip (lower (str_or p "normal")) = p /\
  exists r, priority_rank (PyStr p) = Ok r /\ PRIORITY_ORDER !! r = Some p.
Proof.
  intros p.
  assert (p ∈ PRIORITIES) as Hp.
  { subst p. unfold form_priority. case_bool_decide; [done|].
    unfold PRIORITIES. set_solver. }
  split; [done|]. split.
  { subst p. by intros [->| ->]. }
  unfold PRIORITIES in Hp.
  repeat (apply elem_of_cons in Hp as [->|Hp]); [..|by apply elem_of_nil in Hp].
  - split; [done|]. by exists 3%nat.
  - split; [done|]. by exists 2%nat.
  - split; [done|]. by exists 1%nat.
  - split; [done|]. by exists 0%nat.
Qed.

Lemma selected_false (r : pydict) k :
  k ∈ appointment_columns -> r !! k = None -> selected r = false.
Proof.
  intros Hk%list_elem_of_In Hnone. destruct (selected r) eqn:Hsel; [|done].
  unfold selected in Hsel. rewrite forallb_forall in Hsel.
  apply Hsel, bool_decide_eq_true in Hk as [v Hv]. congruence.
Qed.

Lemma rows_to_dicts_spec (rows : list pydict) :
  match _appointment_rows_to_dicts rows with
  | Ok raw => forallb selected rows = true /\ Forall2 row_dict_of rows raw
  | Raise e => forallb selected rows = false /\ e = IndexError
  end.
Proof.
  unfold _appointment_rows_to_dicts.
  induction rows as [|r rows IH]; [by split; [|constructor]|].
  cbn [mapM forallb]. unfold row_getitem in *.
  destruct (r !! "id") as [id|] eqn:Hid; simpl;
    [|by rewrite (selected_false r "id") by (done || set_solver)].
  destruct (r !! "patient_name") as [name|] eqn:Hname; simpl;
    [|by rewrite (selected_false r "patient_name") by (done || set_solver)].
  destruct (r !! "appointment_date") as [date|] eqn:Hdate; simpl;
    [|by rewrite (selected_false r "appointment_date") by (done || set_solver)].
  destruct (r !! "appointment_time") as [time|] eqn:Htime; simpl;
    [|by rewrite (selected_false r "appointment_time") by (done || set_solver)].
  destruct (r !! "priority") as [priority|] eqn:Hpriority; simpl;
    [|by rewrite (selected_false r "priority") by (done || set_solver)].
  destruct (r !! "status") as [status|] eqn:Hstatus; simpl;
    [|by rewrite (selected_false r "status") by (done || set_solver)].
  destruct (r !! "created_at") as [created|] eqn:Hcreated; simpl;
    [|by rewrite (selected_false r "created_at") by (done || set_solver)].
  destruct (r !! "doctor_id") as [doctor|] eqn:Hdoctor; simpl;
    [|by rewrite (selected_false r "doctor_id") by (done || set_solver)].
  assert (selected r = true) as ->.
  { unfold selected, appointment_columns. cbn [forallb].
    rewrite Hid, Hname, Hdate, Htime, Hpriority, Hstatus, Hcreated, Hdoctor.
    rewrite !bool_decide_eq_true_2; eauto. }
  destruct (mapM _ rows) as [raw|e]; simpl; [|done].
  destruct IH as [-> Hraw]. split; [done|]. constructor; [|done].
  unfold row_dict_of. split; [|by simplify_map_eq].
  rewrite !dom_insert_L, dom_singleton_L. set_solver.
Qed.

(** X23. [_appointment_rows_to_dicts] returns when every row has the
    eight columns of the dashboards' queries, and raises [IndexError]
    otherwise. It returns one dict per row, in the order of the rows,
    with exactly eight keys: the patient_name of the row under the key
    "name", and the other seven columns under their own names. *)
Theorem rows_to_dicts_outcome (rows : list pydict) :
  if forallb selected rows
  then
    exists raw,
      _appointment_rows_to_dicts rows = Ok raw /\
      Forall2 row_dict_of rows raw
  else _appointment_rows_to_dicts rows = Raise IndexError.
Proof.
  pose proof (rows_to_dicts_spec rows) as Hspec.
  destruct (_appointment_rows_to_dicts rows) as [raw|e].
  - destruct Hspec as [-> Hraw]. by exists raw.
  - by destruct Hspec as [-> ->].
Qed.

(** X24. The queue of the doctor's dashboard shows every row of the
    query once. When the rows have been turned into dicts and the pass
    on these dicts has returned, the output has one dict per row, and
    the pairs of appointment_id and name in the output are the pairs of
    id and patient_name of the rows (the name being the empty string
    for a row whose patient_name is [None] or empty), each as often as
    among the rows. *)
Theorem dashboard_queue_keeps_rows (rows raw out : list pydict) :
  _appointment_rows_to_dicts rows = Ok raw ->
  get_optimized_queue_list raw = Ok out ->
  length out = length rows /\
  map (fun o : pydict => (o !! "appointment_id", o !! "name")) out
  ≡ₚ map (fun r : pydict =>
            (r !! "id", Some (py_or (dict_get r "patient_name") (PyStr ""))))
       rows.
Proof.
  intros Hraw Hout.
  pose proof (rows_to_dicts_spec rows) as Hspec. rewrite Hraw in Hspec.
  destruct Hspec as [_ Hrows].
  destruct (no_data_loss_when_returned _ _ Hout) as [Hlen _].
  split; [by rewrite Hlen, <- (Forall2_length _ _ _ Hrows)|].
  revert Hout. rewrite get_optimized_queue_list_unfold.
  intros (nodes & keyed & sorted & Hnodes & Hkeyed & Hsorted & Hout)%single_stable_sort_Ok.
  destruct (mapM_output_record nodes keyed raw Hnodes Hkeyed)
    as (records & Hrecords%mapM_Ok_Forall2 & Hall).
  destruct (Permutation_Forall2 (list_sort_perm _ _ _ _ Hsorted) Hout)
    as (records' & Hperm & Hkeyed').
  assert (records' = records) as ->.
  { eapply Forall2_unique; [exact Hkeyed'|exact Hrecords|]. congruence. }
  assert (map (fun o : pydict => (o !! "appointment_id", o !! "name")) records
          = map (fun r : pydict =>
                   (r !! "id",
                    Some (py_or (dict_get r "patient_name") (PyStr ""))))
              rows) as <-; [|by apply Permutation_map].
  clear -Hrows Hall. revert records Hall.
  induction Hrows as [|r a rows raw Hr _ IH]; intros records Hall.
  - by inversion Hall.
  - inversion Hall as [|? o ? records' Ho Hall']; subst. cbn [map].
    rewrite (IH _ Hall'). f_equal.
    destruct (output_record_fields _ _ Ho) as (_ & Hid & Hname & _).
    destruct Hr as (Hdom & Hn & Hi & _).
    rewrite Hid, Hname, Hi. f_equal. f_equal.
    assert (dict_get a "patient_name" = PyNone) as ->.
    { unfold dict_get.
      assert (a !! "patient_name" = None) as ->; [|done].
      apply not_elem_of_dom. rewrite Hdom.
      rewrite !elem_of_union, !elem_of_singleton.
      by intros [[[[[[[?|?]|?]|?]|?]|?]|?]|?]. }
    unfold dict_get at 1. rewrite Hn. fold (dict_get r "patient_name").
    unfold py_or.
    by destruct (truthy (dict_get r "patient_name")) eqn:Hx; [rewrite Hx|].
Qed.

(** ** scheduler.py: how the queue depends on the snapshot *)

Lemma for_each_app {A S} (f : S -> A -> result S) l1 l2 s :
  for_each f (l1 ++ l2) s = (s' ← for_each f l1 s; for_each f l2 s').
Proof.
  revert s. induction l1 as [|x l1 IH]; intros s; simpl; [done|].
  destruct (f s x) as [s'|e]; simpl; [apply IH|done].
Qed.

Lemma insort_split {A K} (key : A -> K) (lt : K -> K -> result bool) x l l' :
  insort key lt x l = Ok l' ->
  exists l1 l2, l = l1 ++ l2 /\ l' = l1 ++ x :: l2.
Proof.
  revert l'. induction l as [|y l IH]; intros l'; simpl.
  - intros [= <-]. by exists [], [].
  - destruct (lt (key x) (key y)) as [[]|]; simpl; [| |done].
    + intros [= <-]. by exists [], (y :: l).
    + destruct (insort key lt x l) as [rest|]; simpl; [|done].
      intros [= <-]. destruct (IH _ eq_refl) as (l1 & l2 & -> & ->).
      by exists (y :: l1), l2.
Qed.

(** X25. A row added at the end of the snapshot adds its record to the
    queue and moves no other record: when the pass on the longer
    snapshot returns, the pass on the snapshot before returns too, and
    the longer queue is the queue before with the output dict of the new
    row put in at one place. *)
Theorem appended_row_inserts_one_record (snapshot out' : list pydict)
    (a : pydict) :
  get_optimized_queue_list (snapshot ++ [a]) = Ok out' ->
  exists out1 out2 o,
    get_optimized_queue_list snapshot = Ok (out1 ++ out2) /\
    output_record a = Ok o /\
    out' = out1 ++ o :: out2.
Proof.
  rewrite !get_optimized_queue_list_unfold.
  intros (nodes' & keyed' & sorted' & Hnodes & Hkeyed & Hsorted & Hout)%single_stable_sort_Ok.
  apply Forall2_app_inv_l in Hnodes as (nodes & na & Hnodes & Hna & ->).
  apply Forall2_cons_inv_l in Hna as (node & ? & Hnode & ->%Forall2_nil_inv_l & ->).
  apply Forall2_app_inv_l in Hkeyed as (keyed & ea & Hkeyed & Hea & ->).
  apply Forall2_cons_inv_l in Hea as (e & ? & He & ->%Forall2_nil_inv_l & ->).
  unfold list_sort in Hsorted. rewrite for_each_app in Hsorted.
  apply bind_Ok in Hsorted as (sorted & Hsorted & Hins).
  simpl in Hins. destruct (insort sort_key key_lt e sorted) as [s|] eqn:Hs;
    [|done].
  simpl in Hins. injection Hins as ->.
  apply insort_split in Hs as (s1 & s2 & -> & ->).
  apply Forall2_app_inv_l in Hout as (out1 & out2' & Hout1 & Hout2 & ->).
  apply Forall2_cons_inv_l in Hout2 as (o & out2 & Ho & Hout2 & ->).
  exists out1, out2, o. split; [|split; [|done]].
  - unfold single_stable_sort.
    apply mapM_Ok_Forall2 in Hnodes, Hkeyed. rewrite Hnodes. simpl.
    rewrite Hkeyed. simpl. fold (list_sort sort_key key_lt keyed) in Hsorted.
    rewrite Hsorted. simpl. apply mapM_Ok_Forall2. by apply Forall2_app.
  - destruct (enrich_item_of _ _ He) as [Hnode' _].
    apply (output_record_entry a e); [by rewrite Hnode'|done].
Qed.

Lemma key_equal_sym a b : key_equal a b -> key_equal b a.
Proof.
  destruct a as [[r1 d1] c1], b as [[r2 d2] c2]. simpl.
  intros (-> & Hd & Hc). by rewrite (datetime_eqb_sym d2), (datetime_eqb_sym c2).
Qed.

Lemma key_ordered_antisym a b :
  key_ordered a b -> key_ordered b a -> key_equal a b.
Proof.
  destruct a as [[r1 d1] c1], b as [[r2 d2] c2]. simpl.
  intros (Hr1 & Hd1 & Hc1) (Hr2 & Hd2 & Hc2).
  assert (r1 = r2) as -> by lia. split; [done|].
  assert (datetime_eqb d1 d2 = true) as Hd
    by (apply datetime_le_antisym; auto).
  split; [done|]. apply datetime_le_antisym; [auto|].
  apply Hc2; [done|]. by rewrite datetime_eqb_sym.
Qed.

Lemma distinct_keys_elem (keyed : list enriched) x y :
  distinct_keys (map sort_key keyed) = true ->
  x ∈ keyed -> y ∈ keyed ->
  key_equal (sort_key x) (sort_key y) -> x = y.
Proof.
  induction keyed as [|e keyed IH]; [by intros _ ?%elem_of_nil|].
  cbn [map distinct_keys]. intros [Hhd Htl]%andb_prop Hx Hy Heq.
  rewrite forallb_forall in Hhd.
  assert (forall z, z ∈ keyed -> ~ key_equal (sort_key e) (sort_key z)) as Hne.
  { intros z Hz Hez.
    assert (In (sort_key z) (map sort_key keyed)) as Hin
      by (apply in_map; by apply list_elem_of_In).
    apply Hhd in Hin. by rewrite bool_decide_eq_true_2 in Hin. }
  apply elem_of_cons in Hx as [->|Hx], Hy as [->|Hy].
  - done.
  - by destruct (Hne y Hy).
  - destruct (Hne x Hx). by apply key_equal_sym.
  - by apply IH.
Qed.

Lemma StronglySorted_unique_on {A} (R : A -> A -> Prop) (l1 l2 : list A) :
  (forall x y, x ∈ l1 -> y ∈ l1 -> R x y -> R y x -> x = y) ->
  StronglySorted R l1 -> StronglySorted R l2 -> l1 ≡ₚ l2 -> l1 = l2.
Proof.
  intros Hanti Hs1. revert l2 Hanti.
  induction Hs1 as [|x l1 Hs1 IH Hx]; intros l2 Hanti Hs2 Hperm.
  - by apply Permutation_nil_l in Hperm.
  - destruct Hs2 as [|y l2 Hs2 Hy].
    { by apply Permutation_nil_r in Hperm. }
    assert (x = y) as <-.
    { destruct (elem_of_cons l2 x y) as [Hin _].
      destruct Hin as [->|Hin]; [by rewrite <- Hperm; left|done|].
      assert (y ∈ x :: l1) as [->|Hin']%elem_of_cons
        by (rewrite Hperm; left); [done|].
      rewrite Forall_forall in Hx, Hy.
      apply Hanti; [left|by right|by apply Hx|by apply Hy]. }
    f_equal. apply IH; [|done|by apply Permutation_cons_inv in Hperm].
    intros a b Ha Hb. apply Hanti; by right.
Qed.

(** X26. The queue does not depend on the order of the rows when no two
    rows have the same sort key: if the pass returns a queue for a
    snapshot whose keys are pairwise different, it returns the same
    queue for every rearrangement of the snapshot. (With equal keys the
    earlier row of the snapshot is served first.) *)
Theorem schedule_order_independent (snapshot1 snapshot2 out : list pydict)
    (keys : list (nat * datetime * datetime)) :
  snapshot1 ≡ₚ snapshot2 ->
  mapM record_key snapshot1 = Ok keys ->
  distinct_keys keys = true ->
  get_optimized_queue_list snapshot1 = Ok out ->
  get_optimized_queue_list snapshot2 = Ok out.
Proof.
  intros Hperm (nodes & keyed & Hnodes & Hkeyed & ->)%mapM_record_key_Ok Hdistinct.
  rewrite !get_optimized_queue_list_unfold. unfold single_stable_sort.
  rewrite Hnodes. simpl. rewrite Hkeyed. simpl.
  intros (sorted & Hsorted & Hout)%bind_Ok.
  apply mapM_Ok_Forall2 in Hnodes, Hkeyed.
  destruct (Permutation_Forall2 Hperm Hnodes) as (nodes2 & Hperm2 & Hnodes2).
  destruct (Permutation_Forall2 Hperm2 Hkeyed) as (keyed2 & Hperm3 & Hkeyed2).
  apply mapM_Ok_Forall2 in Hnodes2, Hkeyed2.
  rewrite Hnodes2. simpl. rewrite Hkeyed2. simpl.
  destruct (list_sort_returns sort_key key_lt keyed2) as [sorted2 Hsorted2].
  { intros x y Hx Hy. rewrite <- Hperm3 in Hx, Hy.
    destruct (key_lt (sort_key x) (sort_key y)) as [b|e] eqn:Hlt; [eauto|].
    exfalso.
    assert (exists e', list_sort sort_key key_lt keyed = Raise e') as [e' He'].
    { apply list_sort_raises_iff. exists x, y.
      by rewrite <- (key_lt_raises _ _ _ Hlt). }
    congruence. }
  rewrite Hsorted2. simpl.
  assert (sorted = sorted2) as <-; [|done].
  apply (StronglySorted_unique_on
           (fun x y => key_ordered (sort_key x) (sort_key y))).
  - intros x y Hx Hy Hxy Hyx.
    rewrite (list_sort_perm _ _ _ _ Hsorted) in Hx, Hy.
    apply (distinct_keys_elem keyed); [done..|].
    by apply key_ordered_antisym.
  - exact (list_sort_key_ordered _ _ Hsorted).
  - exact (list_sort_key_ordered _ _ Hsorted2).
  - by rewrite (list_sort_perm _ _ _ _ Hsorted),
      (list_sort_perm _ _ _ _ Hsorted2).
Qed.

(** X27. A priority as the forms store it is served as it is: when the
    priority of every row of the snapshot is one of the four levels of
    [PRIORITIES], every dict of the output carries the id and the very
    priority of a row of the snapshot. *)
Theorem stored_priority_served_unchanged (snapshot out : list pydict)
    (o : pydict) :
  forallb (fun a : pydict =>
             bool_decide (dict_get a "priority" ∈ map PyStr PRIORITIES))
    snapshot = true ->
  get_optimized_queue_list snapshot = Ok out ->
  o ∈ out ->
  exists a, a ∈ snapshot /\
    o !! "appointment_id" = a !! "id" /\
    o !! "priority" = Some (dict_get a "priority").
Proof.
  intros Hstored (order & _ & Hout & _)%served_in_order Ho.
  apply list_elem_of_lookup in Ho as [n Hn].
  destruct (Forall2_lookup_r _ _ _ _ _ Hout Hn) as (i & _ & a & Hi & Ha).
  assert (a ∈ snapshot) as Hin by (by eapply list_elem_of_lookup_2).
  exists a. split; [done|].
  destruct (output_record_fields _ _ Ha) as (_ & Hid & _).
  split; [done|].
  apply output_record_inv in Ha as (node & Hnode & ->).
  destruct (make_node_fields _ _ Hnode) as (_ & _ & Hp).
  rewrite to_dict_priority. simpl. rewrite Hp.
  rewrite forallb_forall in Hstored.
  apply list_elem_of_In, Hstored, bool_decide_eq_true in Hin.
  unfold PRIORITIES in Hin. cbn [map] in Hin.
  repeat (apply elem_of_cons in Hin as [->|Hin]); [done..|].
  by apply elem_of_nil in Hin.
Qed.

End Scheduler.

(** * Examples, with the canonical parser *)

(** Decides a closed statement by evaluating its decision procedure. *)
Ltac by_computation :=
  first [ apply (bool_decide_eq_true_1 _) | apply (bool_decide_eq_false_1 _) ];
  vm_compute; reflexivity.


Example priority_rank_upper : priority_rank (PyStr "  CRITICAL ") = Ok 0%nat.
Proof. reflexivity. Qed.
Example priority_rank_unrecognized : priority_rank (PyStr "URGENT!") = Ok 3%nat.
Proof. reflexivity. Qed.
Example priority_rank_not_a_string : priority_rank (PyInt 5) = Raise AttributeError.
Proof. reflexivity. Qed.
Example strip_inner_space : strip "  a b  " = "a b".
Proof. reflexivity. Qed.

Example isoformat_min : isoformat datetime_min = "0001-01-01T00:00:00".
Proof. reflexivity. Qed.
Example isoformat_offset :
  isoformat (datetime_of_fields 2024 2 29 23 59 58 120 (Some (-19800000000)))
  = "2024-02-29T23:59:58.000120-05:30".
Proof. reflexivity. Qed.
Example fromisoformat_date_time :
  fromisoformat_canonical "2025-02-01T09:00"
  = Some (datetime_of_fields 2025 2 1 9 0 0 0 None).
Proof. reflexivity. Qed.
Example fromisoformat_aware :
  fromisoformat_canonical "2025-01-01 00:00:01.250000+00:00"
  = Some (datetime_of_fields 2025 1 1 0 0 1 250000 (Some 0)).
Proof. reflexivity. Qed.
Example fromisoformat_isoformat :
  isoformat <$> fromisoformat_canonical "2024-02-29T23:59:58.000120-05:30"
  = Some "2024-02-29T23:59:58.000120-05:30".
Proof. reflexivity. Qed.
Example fromisoformat_no_such_day :
  fromisoformat_canonical "2025-02-30T09:00" = None.
Proof. reflexivity. Qed.
Example fromisoformat_words : fromisoformat_canonical "tomorrow" = None.
Proof. reflexivity. Qed.

Example naive_against_aware :
  datetime_lt (datetime_of_fields 2025 2 1 9 0 0 0 None)
    (datetime_of_fields 2025 1 1 0 0 0 0 (Some 0)) = Raise TypeError.
Proof. reflexivity. Qed.

(** Scenario 1 of the spec: priority first, then the earlier due time. *)
Example schedule_three_rows :
  get_optimized_queue_list fromisoformat_canonical three_rows
  = Ok three_rows_served.
Proof. by_computation. Qed.

(** Scenario 2: with equal rank and due time the earlier creation wins. *)
Example schedule_creation_tiebreak :
  get_optimized_queue_list fromisoformat_canonical
    [ appointment 2 "Y" "emergency" "2025-02-01" "09:00" "2025-01-01T00:00:05";
      appointment 1 "X" "emergency" "2025-02-01" "09:00" "2025-01-01T00:00:04" ]
  = Ok [ served 1 "X" "emergency" "2025-02-01" "09:00" "2025-01-01T00:00:04";
         served 2 "Y" "emergency" "2025-02-01" "09:00" "2025-01-01T00:00:05" ].
Proof. by_computation. Qed.

(** Scenario 3: the empty snapshot. *)
Example schedule_nothing :
  get_optimized_queue_list fromisoformat_canonical [] = Ok [].
Proof. reflexivity. Qed.

(** Scenario 4: one row with every field degraded. *)
Example schedule_degraded_row :
  get_optimized_queue_list fromisoformat_canonical degraded_row
  = Ok degraded_row_served.
Proof. by_computation. Qed.

(** Scenario 5: one row of each level. *)
Example schedule_four_levels :
  get_optimized_queue_list fromisoformat_canonical
    [ appointment 1 "N" "normal" "2025-02-01" "09:00" "2025-01-01T00:00:00";
      appointment 2 "A" "accident" "2025-02-01" "09:00" "2025-01-01T00:00:00";
      appointment 3 "C" "critical" "2025-02-01" "09:00" "2025-01-01T00:00:00";
      appointment 4 "E" "emergency" "2025-02-01" "09:00" "2025-01-01T00:00:00" ]
  = Ok [ served 3 "C" "critical" "2025-02-01" "09:00" "2025-01-01T00:00:00";
         served 4 "E" "emergency" "2025-02-01" "09:00" "2025-01-01T00:00:00";
         served 2 "A" "accident" "2025-02-01" "09:00" "2025-01-01T00:00:00";
         served 1 "N" "normal" "2025-02-01" "09:00" "2025-01-01T00:00:00" ].
Proof. by_computation. Qed.

(** The stored rows have distinct ids and the same rank; the first is due
    at a naive time, the second at its aware creation time. *)
Example stored_rows_keys :
  mapM (record_key fromisoformat_canonical) stored_rows
  = Ok [ (3%nat, datetime_of_fields 2025 2 1 9 0 0 0 None,
          datetime_of_fields 2025 1 1 0 0 0 1 (Some 0));
         (3%nat, datetime_of_fields 2025 1 1 0 0 1 1 (Some 0),
          datetime_of_fields 2025 1 1 0 0 1 1 (Some 0)) ].
Proof. by_computation. Qed.

(** * Witnesses and counterexamples *)

Lemma serving_order_sorted_stable_witness :
  get_optimized_queue_list fromisoformat_canonical three_rows
  = Ok three_rows_served /\
  mapM (record_key fromisoformat_canonical) three_rows = Ok three_rows_keys /\
  comparable three_rows_keys = true /\
  (exists order : list nat,
     order ≡ₚ seq 0 (length three_rows) /\
     Forall2 (fun i o =>
                exists a, three_rows !! i = Some a /\
                  output_record fromisoformat_canonical a = Ok o)
       order three_rows_served /\
     Sorted (serves_before fromisoformat_canonical three_rows) order) /\
  (exists out,
     get_optimized_queue_list fromisoformat_canonical three_rows = Ok out).
Proof.
  assert (get_optimized_queue_list fromisoformat_canonical three_rows
          = Ok three_rows_served) as Hout by by_computation.
  assert (mapM (record_key fromisoformat_canonical) three_rows
          = Ok three_rows_keys) as Hkeys by by_computation.
  assert (comparable three_rows_keys = true) as Hcmp
    by (vm_compute; reflexivity).
  split; [exact Hout|]. split; [exact Hkeys|]. split; [exact Hcmp|]. split.
  - exact (proj1 (serving_order_sorted_stable fromisoformat_canonical three_rows)
             three_rows_served Hout).
  - exact (proj2 (serving_order_sorted_stable fromisoformat_canonical three_rows)
             three_rows_keys Hkeys Hcmp).
Defined.

Lemma dequeue_level_precedence_witness :
  PriorityQueue.wf sample_queue = true /\
  (exists r, PriorityQueue.dequeue sample_queue = Ok r) /\
  (forall n m x y,
     PriorityQueue.to_list sample_queue !! n = Some x ->
     PriorityQueue.to_list sample_queue !! m = Some y ->
     (rank_of (QueueItem.priority x) < rank_of (QueueItem.priority y))%nat ->
     (n < m)%nat) /\
  PriorityQueue.drain (PriorityQueue.len sample_queue) sample_queue
  = Ok (PriorityQueue.to_list sample_queue).
Proof.
  assert (PriorityQueue.wf sample_queue = true) as Hwf by reflexivity.
  split; [exact Hwf|].
  split; [exact (proj1 (dequeue_level_precedence sample_queue Hwf))|].
  split.
  - exact (proj1 (proj2 (proj2 (proj2 (dequeue_level_precedence sample_queue Hwf))))).
  - exact (proj2 (proj2 (proj2 (proj2 (dequeue_level_precedence sample_queue Hwf))))).
Defined.

Example dequeue_sample_queue :
  PriorityQueue.dequeue sample_queue
  = Ok (Some (sample_item 2 "critical"),
        PriorityQueue.mk
          [ Queue.mk []; Queue.mk []; Queue.mk [];
            Queue.mk [sample_item 1 "normal"; sample_item 3 "urgent!"] ]).
Proof. reflexivity. Qed.



Example sample_row_key :
  record_key fromisoformat_canonical sample_row
  = Ok (3%nat, datetime_of_fields 2025 2 1 10 0 0 0 None,
        datetime_of_fields 2025 1 1 0 0 0 0 None).
Proof. by_computation. Qed.

Lemma presorted_order_kept_witness :
  mapM (record_key fromisoformat_canonical) ordered_rows = Ok ordered_rows_keys /\
  Sorted key_ordered ordered_rows_keys /\
  exists out,
    get_optimized_queue_list fromisoformat_canonical ordered_rows = Ok out /\
    Forall2 (fun a o => output_record fromisoformat_canonical a = Ok o)
      ordered_rows out.
Proof.
  assert (mapM (record_key fromisoformat_canonical) ordered_rows
          = Ok ordered_rows_keys) as Hkeys by by_computation.
  assert (Sorted key_ordered ordered_rows_keys) as Hsorted by by_computation.
  split; [exact Hkeys|]. split; [exact Hsorted|].
  exact (presorted_order_kept fromisoformat_canonical ordered_rows
           ordered_rows_keys Hkeys Hsorted).
Defined.

Example schedule_ordered_rows :
  get_optimized_queue_list fromisoformat_canonical ordered_rows
  = Ok three_rows_served.
Proof. by_computation. Qed.

Lemma dequeue_peek_empty_no_item_witness :
  PriorityQueue.is_empty PriorityQueue.new = true /\
  PriorityQueue.dequeue PriorityQueue.new = Ok (None, PriorityQueue.new) /\
  PriorityQueue.peek PriorityQueue.new = Ok None /\
  Forall (fun q => Queue.dequeue q = Ok (None, q) /\ Queue.peek q = Ok None)
    (PriorityQueue._queues PriorityQueue.new).
Proof.
  assert (PriorityQueue.is_empty PriorityQueue.new = true) as Hempty
    by reflexivity.
  split; [exact Hempty|].
  exact (dequeue_peek_empty_no_item PriorityQueue.new Hempty).
Defined.

Lemma output_fields_normalized_witness :
  get_optimized_queue_list fromisoformat_canonical three_rows
  = Ok three_rows_served /\
  exists order : list nat,
    order ≡ₚ seq 0 (length three_rows) /\
    Forall2
      (fun i o =>
         exists a, three_rows !! i = Some a /\
           o !! "appointment_id" = a !! "id" /\
           o !! "priority"
           = Some (PyStr (str_or (strip (lower (text_of (dict_get a "priority"))))
                            "normal")) /\
           o !! "created_at"
           = Some (PyStr (isoformat
                            (created_of fromisoformat_canonical
                               (dict_get a "created_at")))) /\
           (created_of fromisoformat_canonical (dict_get a "created_at")
            = datetime_min ->
            o !! "created_at" = Some (PyStr "0001-01-01T00:00:00")))
      order three_rows_served.
Proof.
  assert (get_optimized_queue_list fromisoformat_canonical three_rows
          = Ok three_rows_served) as Hout by by_computation.
  split; [exact Hout|].
  exact (output_fields_normalized fromisoformat_canonical three_rows
           three_rows_served Hout).
Defined.

(** An unrecognized label is ranked as normal and kept in the output. *)
Example unrecognized_label_kept :
  rank_of "urgent!" = 3%nat /\
  str_or (strip (lower "URGENT!")) "normal" = "urgent!".
Proof. split; reflexivity. Qed.

(** C6 fails as stated. A snapshot of one row is in serving order, and
    the pass returns a list that is not the snapshot: the output dict
    has the key "appointment_id" where the row has "id". Fed with its own
    output, the pass raises [KeyError]. *)
Lemma presorted_snapshot_not_returned :
  mapM (record_key fromisoformat_canonical) one_row
  = Ok [ (3%nat, datetime_of_fields 2025 2 1 10 0 0 0 None,
          datetime_of_fields 2025 1 1 0 0 0 0 None) ] /\
  get_optimized_queue_list fromisoformat_canonical one_row = Ok one_row_served /\
  get_optimized_queue_list fromisoformat_canonical one_row <> Ok one_row /\
  get_optimized_queue_list fromisoformat_canonical one_row_served
  = Raise KeyError.
Proof. repeat split; by_computation. Qed.

(** C10 fails as stated. The label of the row is three spaces; lower-cased
    and trimmed it is the empty string, and the priority field of the
    output is "normal". *)
Lemma blank_label_served_as_normal :
  (fun a : pydict => dict_get a "priority") <$> blank_label_row
  = [PyStr "   "] /\
  strip (lower "   ") = "" /\
  exists o,
    get_optimized_queue_list fromisoformat_canonical blank_label_row = Ok [o] /\
    o !! "priority" = Some (PyStr "normal") /\
    o !! "priority" <> Some (PyStr (strip (lower "   "))).
Proof.
  split; [reflexivity|]. split; [reflexivity|].
  exists (served 1 "A" "normal" "2025-02-01" "10:00" "2025-01-01T00:00:00").
  repeat split; by_computation.
Qed.


(** C3 fails on the code. The two stored rows have distinct ids, and
    the pass returns no list: it raises [TypeError], because the sort
    compares the naive due time of the first row with the aware due time
    (the creation time) of the second. *)
Theorem stored_rows_raise_TypeError :
  (fun a : pydict => a !! "id") <$> stored_rows
  = [Some (PyInt 1); Some (PyInt 2)] /\
  forallb well_typed stored_rows = true /\
  get_optimized_queue_list fromisoformat_canonical stored_rows
  = Raise TypeError.
Proof. repeat split; by_computation. Qed.

(** * Witnesses of the further properties *)

Lemma PriorityQueue_enqueue_position_witness :
  PriorityQueue.wf sample_queue = true /\
  exists pq',
    PriorityQueue.enqueue sample_queue (sample_item 4 "emergency") = Ok pq' /\
    PriorityQueue.wf pq' = true /\
    PriorityQueue.len pq' = S (PriorityQueue.len sample_queue) /\
    PriorityQueue.to_list pq'
    = filter (fun x => (rank_of (QueueItem.priority x)
                        <= rank_of (QueueItem.priority
                                      (sample_item 4 "emergency")))%nat)
        (PriorityQueue.to_list sample_queue)
      ++ sample_item 4 "emergency" ::
         filter (fun x => (rank_of (QueueItem.priority
                                      (sample_item 4 "emergency"))
                           < rank_of (QueueItem.priority x))%nat)
           (PriorityQueue.to_list sample_queue).
Proof.
  assert (PriorityQueue.wf sample_queue = true) as Hwf by reflexivity.
  split; [exact Hwf|].
  exact (PriorityQueue_enqueue_position sample_queue
           (sample_item 4 "emergency") Hwf).
Defined.

(** The emergency item goes between the critical item and the two items
    of rank 3. *)
Example enqueue_sample_queue :
  PriorityQueue.to_list
  <$> PriorityQueue.enqueue sample_queue (sample_item 4 "emergency")
  = Ok [ sample_item 2 "critical"; sample_item 4 "emergency";
         sample_item 1 "normal"; sample_item 3 "urgent!" ].
Proof. reflexivity. Qed.

Lemma PriorityQueue_reachable_operations_return_witness :
  PriorityQueue.reachable PriorityQueue.new /\
  PriorityQueue.wf PriorityQueue.new = true /\
  (forall item, exists pq',
     PriorityQueue.enqueue PriorityQueue.new item = Ok pq' /\
     PriorityQueue.reachable pq') /\
  (exists x pq',
     PriorityQueue.dequeue PriorityQueue.new = Ok (x, pq') /\
     PriorityQueue.reachable pq') /\
  (exists x, PriorityQueue.peek PriorityQueue.new = Ok x).
Proof.
  split; [exact PriorityQueue.reachable_new|].
  exact (PriorityQueue_reachable_operations_return PriorityQueue.new
           PriorityQueue.reachable_new).
Defined.

Lemma insert_then_remove_restores_witness :
  sample_row !! "id" = Some (PyInt 1) /\
  forallb (fun n => negb (py_eq (PatientNode.appointment_id n) (PyInt 1)))
    (PatientLinkedList.records sample_store) = true /\
  PatientLinkedList.insert_from_appointment_dict sample_store sample_row
  = Ok sample_store_grown /\
  exists l'',
    PatientLinkedList.remove_by_id sample_store_grown (PyInt 1) = (l'', true) /\
    PatientLinkedList.records l'' = PatientLinkedList.records sample_store.
Proof.
  assert (sample_row !! "id" = Some (PyInt 1)) as Hid by by_computation.
  assert (forallb (fun n => negb (py_eq (PatientNode.appointment_id n) (PyInt 1)))
            (PatientLinkedList.records sample_store) = true) as Hfresh
    by reflexivity.
  assert (PatientLinkedList.insert_from_appointment_dict sample_store sample_row
          = Ok sample_store_grown) as Hins by (vm_compute; reflexivity).
  split; [exact Hid|]. split; [exact Hfresh|]. split; [exact Hins|].
  exact (insert_then_remove_restores sample_store sample_store_grown sample_row
           (PyInt 1) Hid Hfresh Hins).
Defined.

Lemma schedule_keeps_every_record_witness :
  get_optimized_queue_list fromisoformat_canonical three_rows
  = Ok three_rows_served /\
  exists records,
    mapM (output_record fromisoformat_canonical) three_rows = Ok records /\
    three_rows_served ≡ₚ records /\
    length three_rows_served = length three_rows /\
    map (fun o : pydict => o !! "appointment_id") three_rows_served
    ≡ₚ map (fun a : pydict => a !! "id") three_rows.
Proof.
  assert (get_optimized_queue_list fromisoformat_canonical three_rows
          = Ok three_rows_served) as Hout by by_computation.
  split; [exact Hout|].
  exact (schedule_keeps_every_record fromisoformat_canonical three_rows
           three_rows_served Hout).
Defined.

Lemma well_typed_snapshot_outcome_witness :
  forallb well_typed stored_rows = true /\
  exists keys,
    mapM (record_key fromisoformat_canonical) stored_rows = Ok keys /\
    length keys = length stored_rows /\
    (comparable keys = true ->
     exists out,
       get_optimized_queue_list fromisoformat_canonical stored_rows = Ok out /\
       length out = length stored_rows) /\
    (comparable keys = false ->
     get_optimized_queue_list fromisoformat_canonical stored_rows
     = Raise TypeError).
Proof.
  assert (forallb well_typed stored_rows = true) as Hrows
    by (vm_compute; reflexivity).
  split; [exact Hrows|].
  exact (well_typed_snapshot_outcome fromisoformat_canonical stored_rows Hrows).
Defined.

Lemma same_awareness_returns_witness :
  mapM (record_key fromisoformat_canonical) three_rows = Ok three_rows_keys /\
  forallb (fun k : nat * datetime * datetime =>
             Bool.eqb (aware k.1.2) false && Bool.eqb (aware k.2) false)
    three_rows_keys = true /\
  comparable three_rows_keys = true /\
  exists out,
    get_optimized_queue_list fromisoformat_canonical three_rows = Ok out /\
    length out = length three_rows.
Proof.
  assert (mapM (record_key fromisoformat_canonical) three_rows
          = Ok three_rows_keys) as Hkeys by by_computation.
  assert (forallb (fun k : nat * datetime * datetime =>
                     Bool.eqb (aware k.1.2) false && Bool.eqb (aware k.2) false)
            three_rows_keys = true) as Hnaive by (vm_compute; reflexivity).
  split; [exact Hkeys|]. split; [exact Hnaive|].
  exact (same_awareness_returns fromisoformat_canonical three_rows
           three_rows_keys false Hkeys Hnaive).
Defined.

Lemma schedule_own_output_raises_KeyError_witness :
  get_optimized_queue_list fromisoformat_canonical three_rows
  = Ok three_rows_served /\
  three_rows_served <> [] /\
  Forall (fun o : pydict => o !! "id" = None) three_rows_served /\
  get_optimized_queue_list fromisoformat_canonical three_rows_served
  = Raise KeyError.
Proof.
  assert (get_optimized_queue_list fromisoformat_canonical three_rows
          = Ok three_rows_served) as Hout by by_computation.
  assert (three_rows_served <> []) as Hne by by_computation.
  split; [exact Hout|]. split; [exact Hne|].
  exact (schedule_own_output_raises_KeyError fromisoformat_canonical three_rows
           three_rows_served Hout Hne).
Defined.

Lemma output_dict_fields_witness :
  get_optimized_queue_list fromisoformat_canonical degraded_row
  = Ok degraded_row_served /\
  served 7 "Z" "urgent!" "" "" "0001-01-01T00:00:00" ∈ degraded_row_served /\
  exists a, a ∈ degraded_row /\
    dom (served 7 "Z" "urgent!" "" "" "0001-01-01T00:00:00")
    = ({[ "appointment_id"; "name"; "priority"; "appointment_date";
          "appointment_time"; "created_at" ]} : gset string) /\
    served 7 "Z" "urgent!" "" "" "0001-01-01T00:00:00" !! "appointment_id"
    = a !! "id" /\
    served 7 "Z" "urgent!" "" "" "0001-01-01T00:00:00" !! "name"
    = Some (py_or (py_or (dict_get a "name") (dict_get a "patient_name"))
              (PyStr "")) /\
    served 7 "Z" "urgent!" "" "" "0001-01-01T00:00:00" !! "appointment_date"
    = Some (py_or (dict_get a "appointment_date") (PyStr "")) /\
    served 7 "Z" "urgent!" "" "" "0001-01-01T00:00:00" !! "appointment_time"
    = Some (py_or (dict_get a "appointment_time") (PyStr "")).
Proof.
  assert (get_optimized_queue_list fromisoformat_canonical degraded_row
          = Ok degraded_row_served) as Hout by by_computation.
  assert (served 7 "Z" "urgent!" "" "" "0001-01-01T00:00:00"
          ∈ degraded_row_served) as Hin by by_computation.
  split; [exact Hout|]. split; [exact Hin|].
  exact (output_dict_fields fromisoformat_canonical degraded_row
           degraded_row_served _ Hout Hin).
Defined.

Lemma row_without_id_raises_KeyError_witness :
  forallb well_typed one_row = true /\
  served 9 "Q" "normal" "" "" "" !! "id" = None /\
  get_optimized_queue_list fromisoformat_canonical
    (one_row ++ served 9 "Q" "normal" "" "" "" :: stored_rows)
  = Raise KeyError.
Proof.
  assert (forallb well_typed one_row = true) as Hpre
    by (vm_compute; reflexivity).
  assert (served 9 "Q" "normal" "" "" "" !! "id" = None) as Hid
    by by_computation.
  split; [exact Hpre|]. split; [exact Hid|].
  exact (row_without_id_raises_KeyError fromisoformat_canonical one_row
           stored_rows (served 9 "Q" "normal" "" "" "") Hpre Hid).
Defined.

Lemma output_ranks_ascend_witness :
  get_optimized_queue_list fromisoformat_canonical three_rows
  = Ok three_rows_served /\
  exists items,
    three_rows_served = map QueueItem.to_dict items /\
    StronglySorted
      (fun x y => (rank_of (QueueItem.priority x)
                   <= rank_of (QueueItem.priority y))%nat) items.
Proof.
  assert (get_optimized_queue_list fromisoformat_canonical three_rows
          = Ok three_rows_served) as Hout by by_computation.
  split; [exact Hout|].
  exact (output_ranks_ascend fromisoformat_canonical three_rows
           three_rows_served Hout).
Defined.

Lemma dashboard_queue_keeps_rows_witness :
  _appointment_rows_to_dicts query_rows = Ok query_dicts /\
  get_optimized_queue_list fromisoformat_canonical query_dicts
  = Ok query_served /\
  length query_served = length query_rows /\
  map (fun o : pydict => (o !! "appointment_id", o !! "name")) query_served
  ≡ₚ map (fun r : pydict =>
            (r !! "id", Some (py_or (dict_get r "patient_name") (PyStr ""))))
       query_rows.
Proof.
  assert (_appointment_rows_to_dicts query_rows = Ok query_dicts) as Hraw
    by by_computation.
  assert (get_optimized_queue_list fromisoformat_canonical query_dicts
          = Ok query_served) as Hout by by_computation.
  split; [exact Hraw|]. split; [exact Hout|].
  exact (dashboard_queue_keeps_rows fromisoformat_canonical query_rows
           query_dicts query_served Hraw Hout).
Defined.

Lemma appended_row_inserts_one_record_witness :
  get_optimized_queue_list fromisoformat_canonical (two_rows ++ [third_row])
  = Ok three_rows_served /\
  exists out1 out2 o,
    get_optimized_queue_list fromisoformat_canonical two_rows
    = Ok (out1 ++ out2) /\
    output_record fromisoformat_canonical third_row = Ok o /\
    three_rows_served = out1 ++ o :: out2.
Proof.
  assert (get_optimized_queue_list fromisoformat_canonical
            (two_rows ++ [third_row]) = Ok three_rows_served) as Hout
    by by_computation.
  split; [exact Hout|].
  exact (appended_row_inserts_one_record fromisoformat_canonical two_rows
           three_rows_served third_row Hout).
Defined.

(** The third row is critical and due first: its record goes to the
    front, before the records of the two rows. *)
Example schedule_two_rows :
  get_optimized_queue_list fromisoformat_canonical two_rows
  = Ok [ served 2 "B" "critical" "2025-02-02" "09:00" "2025-01-01T00:00:01";
         served 1 "A" "normal" "2025-02-01" "10:00" "2025-01-01T00:00:00" ].
Proof. by_computation. Qed.

Lemma schedule_order_independent_witness :
  three_rows ≡ₚ ordered_rows /\
  mapM (record_key fromisoformat_canonical) three_rows = Ok three_rows_keys /\
  distinct_keys three_rows_keys = true /\
  get_optimized_queue_list fromisoformat_canonical three_rows
  = Ok three_rows_served /\
  get_optimized_queue_list fromisoformat_canonical ordered_rows
  = Ok three_rows_served.
Proof.
  assert (three_rows ≡ₚ ordered_rows) as Hperm
    by exact (Permutation_rev three_rows).
  assert (mapM (record_key fromisoformat_canonical) three_rows
          = Ok three_rows_keys) as Hkeys by by_computation.
  assert (distinct_keys three_rows_keys = true) as Hdistinct
    by (vm_compute; reflexivity).
  assert (get_optimized_queue_list fromisoformat_canonical three_rows
          = Ok three_rows_served) as Hout by by_computation.
  split; [exact Hperm|]. split; [exact Hkeys|]. split; [exact Hdistinct|].
  split; [exact Hout|].
  exact (schedule_order_independent fromisoformat_canonical three_rows
           ordered_rows three_rows_served three_rows_keys Hperm Hkeys
           Hdistinct Hout).
Defined.

Lemma stored_priority_served_unchanged_witness :
  forallb (fun a : pydict =>
             bool_decide (dict_get a "priority" ∈ map PyStr PRIORITIES))
    query_dicts = true /\
  get_optimized_queue_list fromisoformat_canonical query_dicts
  = Ok query_served /\
  served 2 "" "critical" "2025-02-02" "09:00" "2025-01-01T00:00:01"
  ∈ query_served /\
  exists a, a ∈ query_dicts /\
    served 2 "" "critical" "2025-02-02" "09:00" "2025-01-01T00:00:01"
    !! "appointment_id" = a !! "id" /\
    served 2 "" "critical" "2025-02-02" "09:00" "2025-01-01T00:00:01"
    !! "priority" = Some (dict_get a "priority").
Proof.
  assert (forallb (fun a : pydict =>
                     bool_decide (dict_get a "priority" ∈ map PyStr PRIORITIES))
            query_dicts = true) as Hstored by (vm_compute; reflexivity).
  assert (get_optimized_queue_list fromisoformat_canonical query_dicts
          = Ok query_served) as Hout by by_computation.
  assert (served 2 "" "critical" "2025-02-02" "09:00" "2025-01-01T00:00:01"
          ∈ query_served) as Hin by by_computation.
  split; [exact Hstored|]. split; [exact Hout|]. split; [exact Hin|].
  exact (stored_priority_served_unchanged fromisoformat_canonical query_dicts
           query_served _ Hstored Hout Hin).
Defined.

(** * Examples of the registry and of the stored priority *)

(** Two records share the id 1: the one appended first is found. *)
Example registry_first_of_two :
  let l :=
    Models.PatientLinkedList.run
      [ Models.PatientLinkedList.Append (sample_record 1 "A");
        Models.PatientLinkedList.Append (sample_record 2 "B");
        Models.PatientLinkedList.Append (sample_record 1 "C") ] in
  Models.PatientLinkedList.to_list l
  = [sample_record 1 "A"; sample_record 2 "B"; sample_record 1 "C"] /\
  Models.PatientLinkedList.len l = 3 /\
  Models.PatientLinkedList.find_by_id l 1 = Some (sample_record 1 "A") /\
  Models.PatientLinkedList.find_by_id l 3 = None /\
  Models.PatientLinkedList.is_empty (Models.PatientLinkedList.clear l) = true.
Proof. repeat split; reflexivity. Qed.

Example form_priority_examples :
  form_priority None = "normal" /\
  form_priority (Some "  Emergency ") = "emergency" /\
  form_priority (Some "urgent!") = "normal".
Proof. repeat split; reflexivity. Qed.

Example rows_to_dicts_missing_column :
  _appointment_rows_to_dicts [sample_row] = Raise IndexError.
Proof. by_computation. Qed.
